(** * MLP.py: a multilayer perceptron trained by back-propagation

    Shallow embedding of [src/nn/MLP.py] (class [MLP]: [__init__],
    [compute_output], [__str__], [train_backprop]) and proofs of the
    properties its specification states (C1 to C10) and of further
    properties of the code (X1 to X17).

    Conventions of the embedding.
    - A numpy 2-D array is a record holding its shape and its rows; a 1-D
      array is a list.  Operations that numpy refuses (misaligned [np.dot],
      shapes that do not broadcast, an index out of range) return [Raise].
    - Array elements are values of an abstract scalar type [R] with the
      operations the program uses.  No law is assumed of them unless a
      theorem lists it as a hypothesis; the laws used ([x * 1 = x],
      [x + 0 = x], field laws for the cost and batch-size identities) are
      those of exact arithmetic, so rounding is not modelled.
    - The functions imported from [Functions], [Distances] and [Helpers]
      ([sigmoid], [d_sigmoid], [xeuclidian], [d_xeuclidian],
      [d_cross_entropy], [neuron_local_gain_update]) are not part of the
      file: they are fields of the class [Externals].
    - Injected functions (activations, goals, norms and their derivatives,
      the gain update) leave their arguments alone.  Line 184 clears
      column 0 of the array [d_regularization_norm] returns, in place, so
      that function's result is either a new array or the weight matrix it
      was given ([returned]); in the second case the write reaches the
      weights ([regularization_penalty_argument]).  The update rule is
      proved for derivatives that return a new array ([hyper_ok]).
    - Sizes and counts ([batch_size], [max_iter], indices) are natural
      numbers; [n_iter_stop_skip], which the program only compares, is an
      integer.
    - [np.random.shuffle] and the [rng] argument are oracles; [time.clock]
      and [print] are left out. *)

From Stdlib Require Import String.
From Stdlib Require Import List Arith Lia Bool ZArith Permutation.
From Stdlib Require QArith Qabs Qcanon Field DecimalString.
Import ListNotations.

Set Implicit Arguments.

(** ** Python exceptions and results *)

Inductive pyexn : Type :=
| IndexError
| ValueError
| TypeError
| NameError
| PyException (msg : string).

Inductive result (A : Type) : Type :=
| Ok (a : A)
| Raise (e : pyexn).

Arguments Ok {A} a.
Arguments Raise {A} e.

Definition rbind {A B : Type} (m : result A) (k : A -> result B) : result B :=
  match m with
  | Ok a => k a
  | Raise e => Raise e
  end.

Notation "x <- m ;; k" := (rbind m (fun x => k))
  (at level 61, m at next level, right associativity).
Notation "' p <- m ;; k" := (rbind m (fun p => k))
  (at level 61, p pattern, m at next level, right associativity).

(** [l[i]] on a Python list. *)
Definition py_get {A : Type} (l : list A) (i : nat) : result A :=
  match nth_error l i with
  | Some a => Ok a
  | None => Raise IndexError
  end.

(** [l[i] = v] on a Python list. *)
Fixpoint set_nth {A : Type} (l : list A) (i : nat) (v : A) : list A :=
  match l, i with
  | [], _ => []
  | _ :: t, O => v :: t
  | h :: t, S j => h :: set_nth t j v
  end.

Definition py_set {A : Type} (l : list A) (i : nat) (v : A) : result (list A) :=
  if i <? length l then Ok (set_nth l i v) else Raise IndexError.

(** [l[-1]]. *)
Definition py_last {A : Type} (l : list A) : result A :=
  match rev l with
  | a :: _ => Ok a
  | [] => Raise IndexError
  end.

(** [str(n)] of a Python integer. *)
Definition str_int (z : Z) : string :=
  DecimalString.NilZero.string_of_int (Z.to_int z).

(** ** Scalars *)

Class Scalar (R : Type) : Type := {
  r0 : R;                       (* 0.0 *)
  r1 : R;                       (* 1.0 *)
  radd : R -> R -> R;
  rsub : R -> R -> R;
  rmul : R -> R -> R;
  rdiv : R -> R -> R;
  rabs : R -> R;
  rltb : R -> R -> bool;        (* x < y *)
  rleb : R -> R -> bool;        (* x <= y *)
  of_nat : nat -> R             (* int -> float *)
}.

(** ** numpy arrays *)

Record ndarray (A : Type) : Type := mk_nd {
  shape0 : nat;
  shape1 : nat;
  rows : list (list A)
}.

Definition shape {A : Type} (m : ndarray A) : nat * nat := (shape0 m, shape1 m).

(** The rows agree with the declared shape. *)
Definition wf_nd {A : Type} (m : ndarray A) : Prop :=
  length (rows m) = shape0 m /\ Forall (fun r => length r = shape1 m) (rows m).

Fixpoint map2 {A B C : Type} (f : A -> B -> C) (l : list A) (l' : list B) : list C :=
  match l, l' with
  | a :: t, b :: t' => f a b :: map2 f t t'
  | _, _ => []
  end.

Definition nd_map {A B : Type} (f : A -> B) (m : ndarray A) : ndarray B :=
  mk_nd (shape0 m) (shape1 m) (map (map f) (rows m)).

(** Broadcasting of one dimension against another. *)
Definition bdim (a b : nat) : option nat :=
  if a =? b then Some a
  else if a =? 1 then Some b
  else if b =? 1 then Some a
  else None.

(** Stretch a list of length 1 to length [n]; leave the others alone. *)
Definition stretch {A : Type} (have want : nat) (l : list A) : list A :=
  if have =? want then l
  else match l with
       | a :: _ => repeat a want
       | [] => []
       end.

Definition bcast_rows {A : Type} (m : ndarray A) (s0 s1 : nat) : list (list A) :=
  stretch (shape0 m) s0 (map (stretch (shape1 m) s1) (rows m)).

(** Elementwise binary operation of two 2-D arrays, with numpy's
    broadcasting rule. *)
Definition nd_zip {A B C : Type} (f : A -> B -> C) (m : ndarray A) (m' : ndarray B)
  : result (ndarray C) :=
  match bdim (shape0 m) (shape0 m'), bdim (shape1 m) (shape1 m') with
  | Some s0, Some s1 =>
      Ok (mk_nd s0 s1 (map2 (map2 f) (bcast_rows m s0 s1) (bcast_rows m' s0 s1)))
  | _, _ => Raise ValueError
  end.

(** In-place operation [m op= m']: the result keeps the shape of [m]. *)
Definition nd_zip_inplace {A B : Type} (f : A -> B -> A) (m : ndarray A) (m' : ndarray B)
  : result (ndarray A) :=
  match bdim (shape0 m) (shape0 m'), bdim (shape1 m) (shape1 m') with
  | Some s0, Some s1 =>
      if (s0 =? shape0 m) && (s1 =? shape1 m)
      then Ok (mk_nd s0 s1 (map2 (map2 f) (rows m) (bcast_rows m' s0 s1)))
      else Raise ValueError
  | _, _ => Raise ValueError
  end.

(** Elementwise operation of two arrays of one shape, without
    broadcasting. *)
Definition zip_same {A B C : Type} (f : A -> B -> C) (m : ndarray A) (m' : ndarray B)
  : ndarray C :=
  mk_nd (shape0 m) (shape1 m) (map2 (map2 f) (rows m) (rows m')).

Section Numpy.
Context {R : Type} {SR : Scalar R}.

Local Abbreviation matrix := (ndarray R).

(** [m.reshape((n, d))] of a 1-D array. *)
Fixpoint chunks (n d : nat) (l : list R) : list (list R) :=
  match n with
  | O => []
  | S n' => firstn d l :: chunks n' d (skipn d l)
  end.

Definition reshape (l : list R) (n d : nat) : result matrix :=
  if length l =? n * d then Ok (mk_nd n d (chunks n d l)) else Raise ValueError.

(** [np.zeros(np.prod(m.shape)).reshape(m.shape)] and [np.ones(m.shape)]. *)
Definition nd_const (c : R) (n d : nat) : matrix :=
  mk_nd n d (repeat (repeat c d) n).

(** [np.c_[np.ones(m.shape[0]), m]]. *)
Definition c_ones (m : matrix) : matrix :=
  mk_nd (shape0 m) (S (shape1 m)) (map (cons r1) (rows m)).

(** [m.T]. *)
Definition column (j : nat) (rs : list (list R)) : list R :=
  map (fun r => nth j r r0) rs.

Definition transpose (m : matrix) : matrix :=
  mk_nd (shape1 m) (shape0 m) (map (fun j => column j (rows m)) (seq 0 (shape1 m))).

(** [m[1:, :]]. *)
Definition drop_row0 (m : matrix) : matrix :=
  mk_nd (shape0 m - 1) (shape1 m) (tl (rows m)).

(** [m[idx, :]] for a list of row indices. *)
Definition take_rows (m : matrix) (idx : list nat) : result matrix :=
  if forallb (fun i => i <? shape0 m) idx
  then Ok (mk_nd (length idx) (shape1 m) (map (fun i => nth i (rows m) []) idx))
  else Raise IndexError.

(** Entry [(i, j)] of an array. *)
Definition entry (m : matrix) (i j : nat) : R := nth j (nth i (rows m) []) r0.

(** [np.sum] of a 1-D array or of a list. *)
Definition np_sum (l : list R) : R := fold_left radd l r0.

Definition dot_vec (a b : list R) : R := np_sum (map2 rmul a b).

(** The matrix product of [a] and [b]: entry [(i, j)] is the product of
    row [i] of [a] with column [j] of [b]. *)
Definition matmul (a b : matrix) : matrix :=
  mk_nd (shape0 a) (shape1 b)
    (map (fun ra => map (fun cb => dot_vec ra cb) (rows (transpose b))) (rows a)).

(** [np.dot(a, b)] for 2-D arrays. *)
Definition dot (a b : matrix) : result matrix :=
  if shape1 a =? shape0 b then Ok (matmul a b) else Raise ValueError.

(** [m] without its column 0. *)
Definition drop_col0 (m : matrix) : matrix :=
  mk_nd (shape0 m) (shape1 m - 1) (map (@tl R) (rows m)).

(** Elementwise arithmetic. *)
Definition nd_mul : matrix -> matrix -> result matrix := nd_zip rmul.
Definition nd_add : matrix -> matrix -> result matrix := nd_zip radd.
Definition nd_isub : matrix -> matrix -> result matrix := nd_zip_inplace rsub.

(** Scalar with array. *)
Definition scal_mul (s : R) (m : matrix) : matrix := nd_map (rmul s) m.
Definition mul_scal (m : matrix) (s : R) : matrix := nd_map (fun x => rmul x s) m.
Definition add_scal (m : matrix) (s : R) : matrix := nd_map (fun x => radd x s) m.
Definition div_scal (m : matrix) (s : R) : matrix := nd_map (fun x => rdiv x s) m.

(** [m >= 0]. *)
Definition nd_ge0 (m : matrix) : ndarray bool := nd_map (fun x => rleb r0 x) m.

(** [m[:, 0] = 0]. *)
Definition zero_col0 (m : matrix) : result matrix :=
  if shape1 m =? 0 then Raise IndexError
  else Ok (mk_nd (shape0 m) (shape1 m)
             (map (fun r => match r with [] => [] | _ :: t => r0 :: t end) (rows m))).

(** Python's [min] of a list of floats. *)
Definition py_min (l : list R) : result R :=
  match l with
  | [] => Raise ValueError
  | a :: t => Ok (fold_left (fun best x => if rltb x best then x else best) t a)
  end.

End Numpy.

(** ** The program *)

(** What [d_regularization_norm] hands back: a new array, or the very
    array it was given.  Line 184 writes into the array returned, so it
    matters which; no other injected result is written into. *)
Inductive returned (A : Type) : Type :=
| Fresh (a : A)
| Argument.

Arguments Fresh {A} a.
Arguments Argument {A}.

Definition returned_value {A : Type} (r : returned A) (arg : A) : A :=
  match r with
  | Fresh a => a
  | Argument => arg
  end.

Section Program.
Context {R : Type} {SR : Scalar R}.
Local Abbreviation matrix := (ndarray R).

(** Functions of the modules [Functions], [Distances] and [Helpers]. *)
Class Externals : Type := {
  sigmoid : matrix -> matrix;
  d_sigmoid : matrix -> matrix;
  xeuclidian : matrix -> matrix -> list R;
  d_xeuclidian : matrix -> matrix -> matrix;
  d_cross_entropy : matrix -> matrix -> matrix;
  neuron_local_gain_update :
    matrix -> ndarray bool -> R -> R -> R -> R -> matrix
}.

Context {EX : Externals}.

(** The function object passed as [d_goal].  [d_goal == d_cross_entropy]
    compares function objects: it holds of the module's own
    [d_cross_entropy] and of no other function, whatever it computes. *)
Inductive d_goal_fn : Type :=
| D_cross_entropy
| D_fun (g : matrix -> matrix -> matrix).

Definition call_d_goal (d : d_goal_fn) : matrix -> matrix -> matrix :=
  match d with
  | D_cross_entropy => d_cross_entropy
  | D_fun g => g
  end.

Definition is_d_cross_entropy (d : d_goal_fn) : bool :=
  match d with
  | D_cross_entropy => true
  | D_fun _ => false
  end.

Record MLP : Type := mk_MLP {
  W : list matrix;
  f_list : list (matrix -> matrix)
}.

(** *** [MLP.__init__] *)

Definition msg_init : string :=
  "error: activation_functions is not None and len(activation_functions) != len(layers_structure)".

Fixpoint init_loop (input_dimension : nat) (layers_structure : list nat)
    (rng : nat -> nat -> list R) (idxs : list nat) (W : list matrix)
  : result (list matrix) :=
  match idxs with
  | [] => Ok W
  | i :: rest =>
      neurons <- py_get layers_structure i ;;
      prev <- (if i =? 0 then Ok input_dimension
               else py_get layers_structure (i - 1)) ;;
      let dimension := 1 + prev in
      m <- reshape (rng i (neurons * dimension)) neurons dimension ;;
      init_loop input_dimension layers_structure rng rest (W ++ [m])
  end.

(** [rng i n] is the array the [i]-th call of [rng] returns when asked
    for [n] numbers. *)
Definition init (input_dimension : nat) (layers_structure : list nat)
    (activation_functions : option (list (matrix -> matrix)))
    (rng : nat -> nat -> list R) : result MLP :=
  let bad :=
    match activation_functions with
    | Some fs => negb (length fs =? length layers_structure)
    | None => false
    end in
  if bad then Raise (PyException msg_init)
  else
    let f_list :=
      match activation_functions with
      | None => map (fun _ => sigmoid) (seq 0 (length layers_structure))
      | Some fs => fs
      end in
    W <- init_loop input_dimension layers_structure rng
           (seq 0 (length layers_structure)) [] ;;
    Ok (mk_MLP W f_list).

(** *** [MLP.compute_output] *)

Definition msg_dim : string :=
  "error: input_data.shape[1] != self.W[0].shape[1]".

Fixpoint compute_loop (self : MLP) (idxs : list nat) (input_data : matrix)
  : result matrix :=
  match idxs with
  | [] => Ok input_data
  | i :: rest =>
      f <- py_get (f_list self) i ;;
      Wi <- py_get (W self) i ;;
      z <- dot input_data (transpose Wi) ;;
      let input_data := f z in
      let input_data :=
        if negb (i =? length (W self) - 1) then c_ones input_data
        else input_data in
      compute_loop self rest input_data
  end.

Definition compute_output (self : MLP) (input_data : matrix) (add_bias : bool)
  : result matrix :=
  let input_data := if add_bias then c_ones input_data else input_data in
  W0 <- py_get (W self) 0 ;;
  if negb (shape1 input_data =? shape1 W0) then Raise (PyException msg_dim)
  else compute_loop self (seq 0 (length (W self))) input_data.

(** *** [MLP.__str__] *)

Definition __str__ (self : MLP) : result string :=
  W0 <- py_get (W self) 0 ;;
  Ok (String.append
        (String.append
           (String.append "MLP: " (str_int (Z.of_nat (shape1 W0) - 1)))
           " -> ")
        (String.concat " -> "
           (map (fun m => str_int (Z.of_nat (shape0 m))) (W self)))).

(** *** [MLP.train_backprop]: arguments and state *)

Record hyper : Type := mk_hyper {
  learning_rate : R;
  momentum_rate : R;
  regularization_rate : R;
  regularization_norm : option (matrix -> R);
  d_regularization_norm : option (matrix -> returned matrix);
  neural_local_gain : option (R * R * R * R);
  batch_size : option nat;
  max_iter : nat;
  min_train_cost : R;
  min_cv_cost : R;
  n_iter_stop_skip : Z;
  stop_threshold : R;
  tolerance : R;
  goal : matrix -> matrix -> list R;
  d_goal : d_goal_fn;
  d_f_list : option (list (matrix -> matrix));
  cv_input_data : option matrix;
  cv_output_data : option matrix;
  cv_goal : option (matrix -> matrix -> list R);
  add_bias : bool
}.

(** The mutable variables of a run: the network and the locals
    [last_delta_W], [nlg], [cost], [cv_cost]. *)
Record train_state : Type := mk_state {
  net : MLP;                    (* self *)
  last_delta_W : list matrix;
  nlg : option (list matrix);
  cost : list R;
  cv_cost : list R
}.

Definition M (A : Type) : Type := train_state -> train_state * result A.

Definition ret {A : Type} (a : A) : M A := fun s => (s, Ok a).

Definition mbind {A B : Type} (m : M A) (k : A -> M B) : M B :=
  fun s => match m s with
           | (s', Ok a) => k a s'
           | (s', Raise e) => (s', Raise e)
           end.

Definition lift {A : Type} (r : result A) : M A := fun s => (s, r).
Definition get : M train_state := fun s => (s, Ok s).
Definition put (s : train_state) : M unit := fun _ => (s, Ok tt).

Fixpoint for_each {A : Type} (l : list A) (body : A -> M unit) : M unit :=
  match l with
  | [] => ret tt
  | a :: t => mbind (body a) (fun _ => for_each t body)
  end.

(** A [for] loop whose body may [break]: the body returns [true] to
    leave the loop. *)
Fixpoint for_break {A : Type} (l : list A) (body : A -> M bool) : M unit :=
  match l with
  | [] => ret tt
  | a :: t => mbind (body a) (fun b => if b then ret tt else for_break t body)
  end.

End Program.

Arguments Externals R : clear implicits.
Arguments d_goal_fn R : clear implicits.
Arguments MLP R : clear implicits.
Arguments hyper R : clear implicits.
Arguments train_state R : clear implicits.
Arguments M R A : clear implicits.

Notation "x <~ m ;; k" := (mbind m (fun x => k))
  (at level 61, m at next level, right associativity).
Notation "' p <~ m ;; k" := (mbind m (fun p => k))
  (at level 61, p pattern, m at next level, right associativity).

(** [l[a:b]] for [0 <= a]. *)
Definition py_slice {A : Type} (l : list A) (a b : nat) : list A :=
  firstn (b - a) (skipn a l).

(** [range(0, n, step)]. *)
Definition py_range_step (n step : nat) : result (list nat) :=
  if step =? 0 then Raise ValueError
  else Ok (map (fun k => k * step) (seq 0 ((n + step - 1) / step))).

(** [l[-2]]. *)
Definition py_last2 {A : Type} (l : list A) : result A :=
  match rev l with
  | _ :: a :: _ => Ok a
  | _ => Raise IndexError
  end.

Section TrainBackprop.
Context {R : Type} {SR : Scalar R} {EX : Externals R}.
Local Abbreviation matrix := (ndarray R).

(** *** Forward pass of one batch (lines 147-155) *)

Fixpoint forward_loop (self : MLP R) (idxs : list nat)
    (z f_z : list matrix) (tmp_data : matrix)
  : result (list matrix * list matrix) :=
  match idxs with
  | [] => Ok (z, f_z)
  | i_layer :: rest =>
      Wi <- py_get (W self) i_layer ;;
      zi <- dot tmp_data (transpose Wi) ;;
      let z := z ++ [zi] in
      f <- py_get (f_list self) i_layer ;;
      zl <- py_last z ;;
      let tmp_data := f zl in
      let f_z := f_z ++ [tmp_data] in
      let tmp_data :=
        if negb (i_layer =? length (W self) - 1) then c_ones tmp_data
        else tmp_data in
      forward_loop self rest z f_z tmp_data
  end.

Definition forward_pass (self : MLP R) (batch_data : matrix)
  : result (list matrix * list matrix) :=
  forward_loop self (seq 0 (length (W self))) [] [] batch_data.

(** *** Backward pass of one batch (lines 158-178)

    [dE_dz_log] is a ghost variable: it records at index [i_layer] the
    value the loop body binds to [dE_dz]; the program itself keeps only
    [dE_dz_next]. *)

Definition output_dE_dz (d_goal : d_goal_fn R) (d_f_list : list (matrix -> matrix))
    (targets : matrix) (z f_z : list matrix) (i_layer : nat) : result matrix :=
  out <- py_last f_z ;;
  let g := call_d_goal d_goal targets out in
  if is_d_cross_entropy d_goal then Ok (mul_scal g r1)
  else
    d_f <- py_get d_f_list i_layer ;;
    zi <- py_get z i_layer ;;
    nd_mul g (d_f zi).

Definition hidden_dE_dz (self : MLP R) (d_f_list : list (matrix -> matrix))
    (z : list matrix) (dE_dz_next : matrix) (i_layer : nat) : result matrix :=
  Wn <- py_get (W self) (i_layer + 1) ;;
  p <- dot (drop_row0 (transpose Wn)) (transpose dE_dz_next) ;;
  d_f <- py_get d_f_list i_layer ;;
  zi <- py_get z i_layer ;;
  nd_mul (transpose p) (d_f zi).

Definition layer_input (batch_data : matrix) (f_z : list matrix) (i_layer : nat)
  : result matrix :=
  if i_layer =? 0 then Ok batch_data
  else fz <- py_get f_z (i_layer - 1) ;; Ok (c_ones fz).

Definition layer_gradient (layer_input_data dE_dz : matrix) (batch_size : nat)
  : result matrix :=
  g <- dot (transpose layer_input_data) dE_dz ;;
  Ok (div_scal (transpose g) (of_nat batch_size)).

Fixpoint backward_loop (self : MLP R) (d_goal : d_goal_fn R)
    (d_f_list : list (matrix -> matrix)) (output_data batch_data : matrix)
    (batch_idx : list nat) (batch_size : nat) (z f_z : list matrix)
    (idxs : list nat) (nabla_W : list (option matrix))
    (dE_dz_next : option matrix) (dE_dz_log : list (option matrix))
  : result (list (option matrix) * list (option matrix)) :=
  match idxs with
  | [] => Ok (nabla_W, dE_dz_log)
  | i_layer :: rest =>
      dE_dz <- match dE_dz_next with
               | None =>
                   targets <- take_rows output_data batch_idx ;;
                   output_dE_dz d_goal d_f_list targets z f_z i_layer
               | Some next =>
                   hidden_dE_dz self d_f_list z next i_layer
               end ;;
      layer_input_data <- layer_input batch_data f_z i_layer ;;
      grad <- layer_gradient layer_input_data dE_dz batch_size ;;
      nabla_W <- py_set nabla_W i_layer (Some grad) ;;
      backward_loop self d_goal d_f_list output_data batch_data batch_idx
        batch_size z f_z rest nabla_W (Some dE_dz)
        (set_nth dE_dz_log i_layer (Some dE_dz))
  end.

Definition backward_pass (self : MLP R) (d_goal : d_goal_fn R)
    (d_f_list : list (matrix -> matrix)) (output_data batch_data : matrix)
    (batch_idx : list nat) (batch_size : nat) (z f_z : list matrix)
  : result (list (option matrix) * list (option matrix)) :=
  let L := length (W self) in
  backward_loop self d_goal d_f_list output_data batch_data batch_idx
    batch_size z f_z (rev (seq 0 L)) (repeat None L) None (repeat None L).

(** *** Weight update of one layer (lines 182-194) *)

Definition set_W (st : train_state R) (w : list matrix) : train_state R :=
  mk_state (mk_MLP w (f_list (net st))) (last_delta_W st) (nlg st)
    (cost st) (cv_cost st).

Definition set_last_delta_W (st : train_state R) (d : list matrix) : train_state R :=
  mk_state (net st) d (nlg st) (cost st) (cv_cost st).

Definition set_nlg (st : train_state R) (g : list matrix) : train_state R :=
  mk_state (net st) (last_delta_W st) (Some g) (cost st) (cv_cost st).

Definition set_cost (st : train_state R) (c : list R) : train_state R :=
  mk_state (net st) (last_delta_W st) (nlg st) c (cv_cost st).

Definition set_cv_cost (st : train_state R) (c : list R) : train_state R :=
  mk_state (net st) (last_delta_W st) (nlg st) (cost st) c.

(** [regularization_penalty] (lines 182-184): [None] stands for the scalar
    [0.0].  When the derivative returns the weight matrix itself, clearing
    column 0 of the penalty clears column 0 of the weights. *)
Definition regularization_penalty (h : hyper R) (i_layer : nat)
  : M R (option matrix) :=
  match d_regularization_norm h with
  | None => ret None
  | Some d =>
      st <~ get ;;
      Wi <~ lift (py_get (W (net st)) i_layer) ;;
      match d Wi with
      | Fresh m =>
          p <~ lift (zero_col0 m) ;;
          ret (Some p)
      | Argument =>
          p <~ lift (zero_col0 Wi) ;;
          W' <~ lift (py_set (W (net st)) i_layer p) ;;
          _ <~ put (set_W st W') ;;
          ret (Some p)
      end
  end.

Definition compute_delta_W (h : hyper R) (st : train_state R)
    (nabla_W : list (option matrix)) (penalty : option matrix) (i_layer : nat)
  : result matrix :=
  rate <- match nlg st with
          | None => Ok None
          | Some g => gi <- py_get g i_layer ;;
                      Ok (Some (scal_mul (learning_rate h) gi))
          end ;;
  last <- py_get (last_delta_W st) i_layer ;;
  nab_o <- py_get nabla_W i_layer ;;
  nab <- match nab_o with Some n => Ok n | None => Raise TypeError end ;;
  s1 <- nd_add (scal_mul (momentum_rate h) last) nab ;;
  s2 <- match penalty with
        | None => Ok (add_scal s1 r0)
        | Some p => nd_add s1 (scal_mul (regularization_rate h) p)
        end ;;
  match rate with
  | None => Ok (scal_mul (learning_rate h) s2)
  | Some rm => nd_mul rm s2
  end.

Definition update_gain (h : hyper R) (delta_W : matrix) (i_layer : nat) : M R unit :=
  st <~ get ;;
  match nlg st with
  | None => ret tt
  | Some g =>
      match neural_local_gain h with
      | None => lift (Raise NameError)
      | Some (nlg_bonus, nlg_penalty, nlg_min, nlg_max) =>
          last <~ lift (py_get (last_delta_W st) i_layer) ;;
          p <~ lift (nd_mul delta_W last) ;;
          let c := nd_ge0 p in
          gi <~ lift (py_get g i_layer) ;;
          g' <~ lift (py_set g i_layer
                        (neuron_local_gain_update gi c nlg_bonus nlg_penalty
                           nlg_min nlg_max)) ;;
          put (set_nlg st g')
      end
  end.

Definition update_layer (h : hyper R) (nabla_W : list (option matrix))
    (i_layer : nat) : M R unit :=
  penalty <~ regularization_penalty h i_layer ;;
  st <~ get ;;
  delta_W <~ lift (compute_delta_W h st nabla_W penalty i_layer) ;;
  _ <~ update_gain h delta_W i_layer ;;
  st <~ get ;;
  Wi <~ lift (py_get (W (net st)) i_layer) ;;
  Wi' <~ lift (nd_isub Wi delta_W) ;;
  W' <~ lift (py_set (W (net st)) i_layer Wi') ;;
  _ <~ put (set_W st W') ;;
  st <~ get ;;
  last' <~ lift (py_set (last_delta_W st) i_layer delta_W) ;;
  put (set_last_delta_W st last').

(** *** One batch (lines 144-194) *)

Definition train_batch (h : hyper R) (d_f_list : list (matrix -> matrix))
    (input_data output_data : matrix) (batch_size : nat)
    (idx_data : list nat) (i_in_batch : nat) : M R unit :=
  let batch_idx := py_slice idx_data i_in_batch (i_in_batch + batch_size) in
  batch_data <~ lift (take_rows input_data batch_idx) ;;
  st <~ get ;;
  ' (z, f_z) <~ lift (forward_pass (net st) batch_data) ;;
  ' (nabla_W, _) <~ lift (backward_pass (net st) (d_goal h) d_f_list
                           output_data batch_data batch_idx batch_size z f_z) ;;
  for_each (seq 0 (length (W (net st)))) (update_layer h nabla_W).

(** *** Cost of an epoch (lines 197-205) *)

Definition reg_term (h : hyper R) (Ws : list matrix) : R :=
  match regularization_norm h with
  | None => r0
  | Some rn => np_sum (map rn Ws)
  end.

Definition epoch_cost (g : matrix -> matrix -> list R) (h : hyper R)
    (self : MLP R) (data targets : matrix) : result R :=
  out <- compute_output self data false ;;
  let per_example := map (fun x => radd x (reg_term h (W self))) (g targets out) in
  Ok (rdiv (np_sum per_example) (of_nat (shape0 data))).

(** *** Stopping criteria (lines 214-226) *)

Definition threshold_test (h : hyper R) (costs : list R) : result bool :=
  c <- py_last costs ;;
  m <- py_min costs ;;
  Ok (rltb m (rmul (rsub r1 (stop_threshold h)) c)).

Definition stop_check (h : hyper R) (do_cv : bool) (n_iter : nat)
    (cost cv_cost : list R) : result bool :=
  if (Z.of_nat n_iter >? n_iter_stop_skip h)%Z then
    b <- threshold_test h (if do_cv then cv_cost else cost) ;;
    if b then Ok true
    else
      c <- py_last cost ;;
      if rleb c (min_train_cost h) then Ok true
      else
        b <- (if 0 <? length cv_cost
              then cv <- py_last cv_cost ;; Ok (rleb cv (min_cv_cost h))
              else Ok false) ;;
        if b then Ok true
        else
          if 1 <? length cost
          then c1 <- py_last cost ;;
               c2 <- py_last2 cost ;;
               Ok (rltb (rabs (rsub c1 c2)) (tolerance h))
          else Ok false
  else Ok false.

(** *** One epoch (lines 139-226); returns [true] on [break] *)

Definition epoch (h : hyper R) (d_f_list : list (matrix -> matrix))
    (input_data output_data : matrix) (batch_size : nat)
    (cv : option (matrix * matrix)) (cv_goal : matrix -> matrix -> list R)
    (shuffle : nat -> list nat -> list nat) (n_iter : nat) : M R bool :=
  let idx_data := shuffle n_iter (seq 0 (shape0 input_data)) in
  idx_batch <~ lift (py_range_step (length idx_data) batch_size) ;;
  _ <~ for_each idx_batch
         (train_batch h d_f_list input_data output_data batch_size idx_data) ;;
  st <~ get ;;
  c <~ lift (epoch_cost (goal h) h (net st) input_data output_data) ;;
  _ <~ put (set_cost st (cost st ++ [c])) ;;
  _ <~ match cv with
       | Some (cv_in, cv_out) =>
           st <~ get ;;
           c <~ lift (epoch_cost cv_goal h (net st) cv_in cv_out) ;;
           put (set_cv_cost st (cv_cost st ++ [c]))
       | None => ret tt
       end ;;
  st <~ get ;;
  let do_cv := match cv with Some _ => true | None => false end in
  lift (stop_check h do_cv n_iter (cost st) (cv_cost st)).

(** *** [MLP.train_backprop]

    [shuffle n l] is the order [np.random.shuffle] leaves [l] in at epoch
    [n].  The function returns the network as the run leaves it, together
    with the value returned or the exception raised. *)

Inductive train_result : Type :=
| Cost_only (cost : list R)
| Cost_and_cv (cost cv_cost : list R).

Definition train_backprop (self : MLP R) (input_data output_data : matrix)
    (h : hyper R) (shuffle : nat -> list nat -> list nat)
  : MLP R * result train_result :=
  let d_f_list :=
    match d_f_list h with
    | None => repeat d_sigmoid (length (W self))
    | Some l => l
    end in
  let input_data := if add_bias h then c_ones input_data else input_data in
  let batch_size :=
    match batch_size h with
    | None => shape0 input_data
    | Some b => b
    end in
  let cv_goal :=
    match cv_goal h with
    | None => goal h
    | Some g => g
    end in
  let last_delta_W := map (fun m => nd_const r0 (shape0 m) (shape1 m)) (W self) in
  let nlg :=
    match neural_local_gain h with
    | Some _ => Some (map (fun m => nd_const r1 (shape0 m) (shape1 m)) (W self))
    | None => None
    end in
  let cv :=
    match cv_input_data h, cv_output_data h with
    | Some cv_in, Some cv_out =>
        Some (if add_bias h then c_ones cv_in else cv_in, cv_out)
    | _, _ => None
    end in
  let st0 := mk_state self last_delta_W nlg [] [] in
  match for_break (seq 0 (max_iter h))
          (epoch h d_f_list input_data output_data batch_size cv cv_goal shuffle)
          st0 with
  | (st, Ok _) =>
      (net st,
       Ok (match cv with
           | Some _ => Cost_and_cv (cost st) (cv_cost st)
           | None => Cost_only (cost st)
           end))
  | (st, Raise e) => (net st, Raise e)
  end.

End TrainBackprop.

Arguments train_result R : clear implicits.

(** * A concrete instance: exact rational numbers

    The scalars are the rationals in lowest terms, on which the model
    computes.  The exponential is not rational, so a piecewise-linear
    squashing function stands for [sigmoid]; the goal functions are the
    squared error and the residual [output - target].  The statements
    below are run on a network of two layers with three examples. *)

Module Sample.
Import QArith_base Qabs Qcanon.

Definition q (z : Z) : Qc := Q2Qc (inject_Z z).
Definition ratio (a b : Z) : Qc := Qcdiv (q a) (q b).

#[global] Instance Qc_scalar : Scalar Qc := {|
  r0 := q 0;
  r1 := q 1;
  radd := Qcplus;
  rsub := Qcminus;
  rmul := Qcmult;
  rdiv := Qcdiv;
  rabs := fun x => Q2Qc (Qabs x);
  rltb := fun x y => negb (Qle_bool y x);
  rleb := fun x y => Qle_bool x y;
  of_nat := fun n => q (Z.of_nat n)
|}.

Definition mat (n d : nat) (l : list (list Z)) : ndarray Qc :=
  mk_nd n d (map (map q) l).

(** Activation functions and their derivatives. *)
Definition linear (m : ndarray Qc) : ndarray Qc := m.
Definition d_linear (m : ndarray Qc) : ndarray Qc := nd_map (fun _ => q 1) m.
Definition halve (m : ndarray Qc) : ndarray Qc :=
  nd_map (fun x => Qcmult x (ratio 1 2)) m.
Definition d_halve (m : ndarray Qc) : ndarray Qc :=
  nd_map (fun _ => ratio 1 2) m.

Definition squash (x : Qc) : Qc :=
  if rleb x (q (-2)) then q 0
  else if rleb (q 2) x then q 1
  else Qcplus (Qcmult x (ratio 1 4)) (ratio 1 2).
Definition d_squash (x : Qc) : Qc :=
  if rleb x (q (-2)) then q 0
  else if rleb (q 2) x then q 0
  else ratio 1 4.

(** Goal functions: [residual t o] is [o - t]; [sq_err] is the squared
    error of each example. *)
Definition residual (t o : ndarray Qc) : ndarray Qc := zip_same Qcminus o t.
Definition sq_err (t o : ndarray Qc) : list Qc :=
  map (fun i =>
         np_sum (map (fun x => Qcmult x x) (nth i (rows (residual t o)) [])))
      (seq 0 (shape0 o)).

(** Gain update: add the bonus where the signs agree, multiply by the
    penalty where they do not, within the bounds. *)
Definition gain_update (g : ndarray Qc) (c : ndarray bool)
    (bonus penalty gmin gmax : Qc) : ndarray Qc :=
  zip_same (fun gi (ci : bool) =>
              if ci
              then (let v := Qcplus gi bonus in if rleb v gmax then v else gmax)
              else (let v := Qcmult gi penalty in if rleb gmin v then v else gmin))
           g c.

#[global] Instance externals : Externals Qc := {|
  sigmoid := nd_map squash;
  d_sigmoid := nd_map d_squash;
  xeuclidian := sq_err;
  d_xeuclidian := residual;
  d_cross_entropy := residual;
  neuron_local_gain_update := gain_update
|}.

(** A network with 2 inputs, 2 hidden neurons and 1 output. *)
Definition W0 : ndarray Qc := mat 2 3 [[1; 2; 3]; [0; 1; -1]]%Z.
Definition W1 : ndarray Qc := mat 1 3 [[1; 1; 1]]%Z.
Definition network : MLP Qc := mk_MLP [W0; W1] [linear; linear].
Definition derivatives : list (ndarray Qc -> ndarray Qc) := [d_linear; d_linear].

(** The same weights with a halving output activation. *)
Definition network_halved : MLP Qc := mk_MLP [W0; W1] [linear; halve].
Definition derivatives_halved : list (ndarray Qc -> ndarray Qc) :=
  [d_linear; d_halve].

(** Three examples, their targets, and inputs of the wrong width. *)
Definition X : ndarray Qc := mat 3 2 [[1; 0]; [0; 1]; [1; 1]]%Z.
Definition Y : ndarray Qc := mat 3 1 [[1]; [0]; [1]]%Z.
Definition X_narrow : ndarray Qc := mat 3 1 [[1]; [0]; [1]]%Z.

(** The first batch of two examples and the last batch of one. *)
Definition batch01 : ndarray Qc := mat 2 3 [[1; 1; 0]; [1; 0; 1]]%Z.
Definition batch2 : ndarray Qc := mat 1 3 [[1; 1; 1]]%Z.

Definition no_shuffle (n : nat) (l : list nat) : list nat := l.

Definition hyper_of (max_iter : nat)
    (reg : option (ndarray Qc -> Qc))
    (d_reg : option (ndarray Qc -> returned (ndarray Qc)))
    (gain : option (Qc * Qc * Qc * Qc)) (d_goal : d_goal_fn Qc) : hyper Qc :=
  {| learning_rate := ratio 1 10;
     momentum_rate := ratio 9 10;
     regularization_rate := ratio 1 10;
     regularization_norm := reg;
     d_regularization_norm := d_reg;
     neural_local_gain := gain;
     batch_size := Some 2%nat;
     max_iter := max_iter;
     min_train_cost := q 0;
     min_cv_cost := q 0;
     n_iter_stop_skip := 10%Z;
     stop_threshold := ratio 1 20;
     tolerance := q 0;
     goal := sq_err;
     d_goal := d_goal;
     d_f_list := Some derivatives;
     cv_input_data := None;
     cv_output_data := None;
     cv_goal := None;
     add_bias := true |}.

(** Squared L2 penalty and its derivative. *)
Definition l2 (w : ndarray Qc) : Qc :=
  np_sum (map (fun r => np_sum (map (fun x => Qcmult x x) r)) (rows w)).
Definition d_l2 (w : ndarray Qc) : returned (ndarray Qc) :=
  Fresh (nd_map (Qcmult (q 2)) w).

Definition hyper_plain : hyper Qc :=
  hyper_of 2 None None None (D_fun residual).
Definition hyper_full : hyper Qc :=
  hyper_of 2 (Some l2) (Some d_l2)
    (Some (ratio 1 20, ratio 19 20, ratio 1 10, q 10)) (D_fun residual).
Definition hyper_no_epoch : hyper Qc :=
  hyper_of 0 None None None (D_fun residual).

(** A derivative of the penalty that hands back the array it was given. *)
Definition d_alias (w : ndarray Qc) : returned (ndarray Qc) := Argument.
Definition hyper_alias : hyper Qc :=
  hyper_of 2 (Some l2) (Some d_alias) None (D_fun residual).

(** The same arguments with another batch size. *)
Definition with_batch_size (b : option nat) (h : hyper Qc) : hyper Qc :=
  {| learning_rate := learning_rate h;
     momentum_rate := momentum_rate h;
     regularization_rate := regularization_rate h;
     regularization_norm := regularization_norm h;
     d_regularization_norm := d_regularization_norm h;
     neural_local_gain := neural_local_gain h;
     batch_size := b;
     max_iter := max_iter h;
     min_train_cost := min_train_cost h;
     min_cv_cost := min_cv_cost h;
     n_iter_stop_skip := n_iter_stop_skip h;
     stop_threshold := stop_threshold h;
     tolerance := tolerance h;
     goal := goal h;
     d_goal := d_goal h;
     d_f_list := d_f_list h;
     cv_input_data := cv_input_data h;
     cv_output_data := cv_output_data h;
     cv_goal := cv_goal h;
     add_bias := add_bias h |}.

(** A generator that counts: call [i] asked for [n] numbers returns
    [100 i, 100 i + 1, ...]. *)
Definition rng_count (i n : nat) : list Qc :=
  map (fun k => q (Z.of_nat (100 * i + k))) (seq 0 n).

(** A network without layers. *)
Definition network_empty : MLP Qc := mk_MLP [] [].

End Sample.

(** * Vocabulary of the statements *)

Section Vocabulary.
Context {R : Type} {SR : Scalar R} {EX : Externals R}.
Local Abbreviation matrix := (ndarray R).

(** The weight matrix [__init__] builds for layer [i]. *)
Definition init_layer (input_dimension : nat) (layers_structure : list nat)
    (rng : nat -> nat -> list R) (i : nat) : matrix :=
  let neurons := nth i layers_structure 0 in
  let dimension := 1 + (if i =? 0 then input_dimension
                        else nth (i - 1) layers_structure 0) in
  mk_nd neurons dimension (chunks neurons dimension (rng i (neurons * dimension))).

(** How many numbers [__init__] asks [rng] for at layer [i]. *)
Definition layer_size (input_dimension : nat) (layers_structure : list nat)
    (i : nat) : nat :=
  nth i layers_structure 0
  * (1 + (if i =? 0 then input_dimension else nth (i - 1) layers_structure 0)).

(** The histories a run returns. *)
Definition train_cost (r : train_result R) : list R :=
  match r with
  | Cost_only c => c
  | Cost_and_cv c _ => c
  end.

Definition train_cv_cost (r : train_result R) : option (list R) :=
  match r with
  | Cost_only _ => None
  | Cost_and_cv _ c => Some c
  end.

(** The index lists of the batches of an epoch (lines 142-144). *)
Definition batch_indices (idx_data : list nat) (batch_size : nat)
    (idx_batch : list nat) : list (list nat) :=
  map (fun i_in_batch => py_slice idx_data i_in_batch (i_in_batch + batch_size))
    idx_batch.

(** The shapes of the weight matrices of the network held in a state. *)
Definition W_shapes (st : train_state R) : list (nat * nat) :=
  map shape (W (net st)).

(** An injected function that returns an array of the shape of its
    argument, as activation functions and derivatives are documented to. *)
Definition shape_preserving (f : matrix -> matrix) : Prop :=
  forall m, shape (f m) = shape m.

(** Each weight matrix has one column more than the previous one has
    rows. *)
Definition chained (Ws : list matrix) : Prop :=
  forall i w w', nth_error Ws (S i) = Some w -> nth_error Ws i = Some w' ->
                 shape1 w = S (shape0 w').

(** The network and the injected functions fit each other. *)
Record net_ok (self : MLP R) (d_goal : d_goal_fn R)
    (d_f_list : list (matrix -> matrix)) : Prop := mk_net_ok {
  no_layers : length (W self) <> 0;
  no_f_len : length (f_list self) = length (W self);
  no_df_len : length d_f_list = length (W self);
  no_f_shape : Forall shape_preserving (f_list self);
  no_df_shape : Forall shape_preserving d_f_list;
  no_chained : chained (W self);
  no_d_goal : forall t o, shape t = shape o ->
                          shape (call_d_goal d_goal t o) = shape o
}.

(** A batch the network accepts: [batch_data] has the width of [W[0]],
    [batch_idx] selects as many rows of [output_data] as the batch has,
    and [output_data] has the width of the last layer. *)
Record batch_ok (self : MLP R) (output_data batch_data : matrix)
    (batch_idx : list nat) : Prop := mk_batch_ok {
  bo_input : forall w0, nth_error (W self) 0 = Some w0 ->
                        shape1 batch_data = shape1 w0;
  bo_idx : Forall (fun i => i < shape0 output_data) batch_idx;
  bo_rows : length batch_idx = shape0 batch_data;
  bo_out : forall w, nth_error (W self) (length (W self) - 1) = Some w ->
                     shape1 output_data = shape0 w
}.

(** What the forward pass records for layer [i]: [z[i]] is the product
    of the layer's input with the transposed weights and [f_z[i]] is the
    activation of [z[i]]. *)
Definition fwd_rec (self : MLP R) (batch_data : matrix) (z f_z : list matrix)
    (i : nat) : Prop :=
  exists Wi f inp zi,
    nth_error (W self) i = Some Wi
    /\ nth_error (f_list self) i = Some f
    /\ layer_input batch_data f_z i = Ok inp
    /\ nth_error z i = Some zi
    /\ nth_error f_z i = Some (f zi)
    /\ zi = matmul inp (transpose Wi)
    /\ shape0 inp = shape0 batch_data
    /\ shape1 inp = shape1 Wi.

(** What the backward pass computes for layer [i]: the error term
    [dE_dz] (bound in the loop body, recorded in [dE_dz_log]) comes from
    [output_dE_dz] at the last layer and from [hidden_dE_dz] applied to
    the error term of layer [i + 1] elsewhere, and [nabla_W[i]] is the
    gradient built from it. *)
Definition bwd_rec (self : MLP R) (d_goal : d_goal_fn R)
    (d_f_list : list (matrix -> matrix)) (output_data batch_data : matrix)
    (batch_idx : list nat) (batch_size : nat) (z f_z : list matrix)
    (nabla_W dE_dz_log : list (option matrix)) (i : nat) : Prop :=
  exists dE_dz inp,
    nth_error dE_dz_log i = Some (Some dE_dz)
    /\ layer_input batch_data f_z i = Ok inp
    /\ nth_error nabla_W i
       = Some (Some (div_scal (transpose (matmul (transpose inp) dE_dz))
                       (of_nat batch_size)))
    /\ shape0 dE_dz = shape0 batch_data
    /\ (forall Wi, nth_error (W self) i = Some Wi -> shape1 dE_dz = shape0 Wi)
    /\ (if S i =? length (W self)
        then exists targets,
               take_rows output_data batch_idx = Ok targets
               /\ output_dE_dz d_goal d_f_list targets z f_z i = Ok dE_dz
        else exists dE_dz_next,
               nth_error dE_dz_log (S i) = Some (Some dE_dz_next)
               /\ hidden_dE_dz self d_f_list z dE_dz_next i = Ok dE_dz).

(** [m] with its column 0 set to zero. *)
Definition zeroed_col0 (m : matrix) : matrix :=
  mk_nd (shape0 m) (shape1 m)
    (map (fun r => match r with [] => [] | _ :: t => r0 :: t end) (rows m)).

(** The update of one layer as line 185-189 computes it from the layer's
    weights [Wi], gain [gain] (when adaptive gain is on), previous update
    [last] and gradient [grad]. *)
Definition layer_delta (h : hyper R) (gain : option matrix)
    (Wi last grad : matrix) : matrix :=
  let s1 := zip_same radd (scal_mul (momentum_rate h) last) grad in
  let s2 :=
    match d_regularization_norm h with
    | None => add_scal s1 r0
    | Some d =>
        zip_same radd s1
          (scal_mul (regularization_rate h)
             (zeroed_col0 (returned_value (d Wi) Wi)))
    end in
  match gain with
  | None => scal_mul (learning_rate h) s2
  | Some gi => zip_same rmul (scal_mul (learning_rate h) gi) s2
  end.

(** The update of one layer as the specification words it:
    [rate * (momentum_rate * last_delta + gradient
             + regularization_rate * regularization_gradient)],
    the last term being absent without [d_regularization_norm]. *)
Definition claimed_delta (h : hyper R) (gain : option matrix)
    (Wi last grad : matrix) : matrix :=
  let s1 := zip_same radd (scal_mul (momentum_rate h) last) grad in
  let s2 :=
    match d_regularization_norm h with
    | None => s1
    | Some d =>
        zip_same radd s1
          (scal_mul (regularization_rate h)
             (zeroed_col0 (returned_value (d Wi) Wi)))
    end in
  match gain with
  | None => scal_mul (learning_rate h) s2
  | Some gi => zip_same rmul (scal_mul (learning_rate h) gi) s2
  end.

(** The gain matrix of a layer after its update. *)
Definition layer_gain (h : hyper R) (gi delta last : matrix) : matrix :=
  match neural_local_gain h with
  | Some (nlg_bonus, nlg_penalty, nlg_min, nlg_max) =>
      neuron_local_gain_update gi (nd_ge0 (zip_same rmul delta last))
        nlg_bonus nlg_penalty nlg_min nlg_max
  | None => gi
  end.

(** The hyper-parameters fit the network: the injected derivative of the
    regulariser returns a new array of the shape it is given, the gain
    update returns an array of that shape, and a regularised weight matrix
    has a column 0 to clear. *)
Record hyper_ok (h : hyper R) (Ws : list matrix) : Prop := mk_hyper_ok {
  ho_reg : forall d, d_regularization_norm h = Some d ->
                     (forall w, exists m, d w = Fresh m /\ shape m = shape w)
                     /\ Forall (fun w : matrix => shape1 w <> 0) Ws;
  ho_gain : forall g c b p mn mx,
              shape (neuron_local_gain_update g c b p mn mx) = shape g
}.

(** The locals of a run fit the network: [last_delta_W] and [nlg] hold
    one matrix per layer, of the shape of the layer's weights, and [nlg]
    is there exactly when [neural_local_gain] is given. *)
Record state_ok (h : hyper R) (st : train_state R) : Prop := mk_state_ok {
  so_last : map shape (last_delta_W st) = map shape (W (net st));
  so_nlg : match nlg st with
           | None => neural_local_gain h = None
           | Some g => neural_local_gain h <> None
                       /\ map shape g = map shape (W (net st))
           end
}.

(** [nabla_W] holds a gradient for every layer, of the shape of its
    weights. *)
Definition nabla_ok (Ws : list matrix) (nabla_W : list (option matrix)) : Prop :=
  forall i Wi, nth_error Ws i = Some Wi ->
               exists grad, nth_error nabla_W i = Some (Some grad)
                            /\ shape grad = shape Wi.

(** The gain matrix of layer [i], when adaptive gain is on. *)
Definition gain_of (g : option (list matrix)) (i : nat) : option matrix :=
  match g with
  | None => None
  | Some l => nth_error l i
  end.

(** The state a successful update of layer [i] leaves, [delta] being the
    update applied, [Wi] the weights and [last] the previous update. *)
Definition updated (h : hyper R) (st : train_state R) (i : nat)
    (Wi last delta : matrix) : train_state R :=
  mk_state
    (mk_MLP (set_nth (W (net st)) i (zip_same rsub Wi delta)) (f_list (net st)))
    (set_nth (last_delta_W st) i delta)
    (match nlg st with
     | None => None
     | Some g =>
         Some (match nth_error g i with
               | Some gi => set_nth g i (layer_gain h gi delta last)
               | None => g
               end)
     end)
    (cost st) (cv_cost st).

(** The training data fit the network: [input_data] (bias column
    included) has the width of [W[0]], [output_data] has the width of the
    last layer and as many rows as [input_data]. *)
Record data_ok (self : MLP R) (input_data output_data : matrix) : Prop :=
  mk_data_ok {
  do_input : forall w0, nth_error (W self) 0 = Some w0 ->
                        shape1 input_data = shape1 w0;
  do_output : forall w, nth_error (W self) (length (W self) - 1) = Some w ->
                        shape1 output_data = shape0 w;
  do_rows : shape0 output_data = shape0 input_data
}.

(** A state from which an epoch of the run can proceed. *)
Record run_ok (h : hyper R) (d_f_list : list (matrix -> matrix))
    (input_data output_data : matrix) (st : train_state R) : Prop :=
  mk_run_ok {
  ro_net : net_ok (net st) (d_goal h) d_f_list;
  ro_hyper : hyper_ok h (W (net st));
  ro_state : state_ok h st;
  ro_data : data_ok (net st) input_data output_data
}.

(** The cross-validation inputs, when given, have the width of [W[0]]. *)
Definition cv_ok (self : MLP R) (cv : option (matrix * matrix)) : Prop :=
  match cv with
  | Some (cv_in, _) =>
      forall w0, nth_error (W self) 0 = Some w0 -> shape1 cv_in = shape1 w0
  | None => True
  end.

(** [np.random.shuffle] permutes the list it is given. *)
Definition shuffle_ok (shuffle : nat -> list nat -> list nat) : Prop :=
  forall n l, Permutation l (shuffle n l).

(** The arguments of a call of [train_backprop] after its preamble
    (lines 120-137): the derivatives, the training inputs with their bias
    column, the batch size and the cross-validation data actually used. *)
Definition used_d_f_list (self : MLP R) (h : hyper R) : list (matrix -> matrix) :=
  match d_f_list h with
  | None => repeat d_sigmoid (length (W self))
  | Some l => l
  end.

Definition used_input (h : hyper R) (input_data : matrix) : matrix :=
  if add_bias h then c_ones input_data else input_data.

Definition used_batch_size (h : hyper R) (input_data : matrix) : nat :=
  match batch_size h with
  | None => shape0 (used_input h input_data)
  | Some b => b
  end.

Definition used_cv (h : hyper R) : option (matrix * matrix) :=
  match cv_input_data h, cv_output_data h with
  | Some cv_in, Some cv_out =>
      Some (if add_bias h then c_ones cv_in else cv_in, cv_out)
  | _, _ => None
  end.

Definition used_cv_goal (h : hyper R) : matrix -> matrix -> list R :=
  match cv_goal h with
  | None => goal h
  | Some g => g
  end.

(** The state a run starts from. *)
Definition initial_state (self : MLP R) (h : hyper R) : train_state R :=
  mk_state self
    (map (fun m => nd_const r0 (shape0 m) (shape1 m)) (W self))
    (match neural_local_gain h with
     | Some _ => Some (map (fun m => nd_const r1 (shape0 m) (shape1 m)) (W self))
     | None => None
     end)
    [] [].

(** A call of [train_backprop] whose arguments fit the network. *)
Record call_ok (self : MLP R) (input_data output_data : matrix) (h : hyper R)
    (shuffle : nat -> list nat -> list nat) : Prop := mk_call_ok {
  co_net : net_ok self (d_goal h) (used_d_f_list self h);
  co_hyper : hyper_ok h (W self);
  co_data : data_ok self (used_input h input_data) output_data;
  co_batch : used_batch_size h input_data <> 0;
  co_shuffle : shuffle_ok shuffle;
  co_cv : cv_ok self (used_cv h)
}.

(** The arguments [h] with another derivative of the penalty. *)
Definition with_d_regularization_norm (h : hyper R)
    (d : option (matrix -> returned matrix)) : hyper R :=
  {| learning_rate := learning_rate h;
     momentum_rate := momentum_rate h;
     regularization_rate := regularization_rate h;
     regularization_norm := regularization_norm h;
     d_regularization_norm := d;
     neural_local_gain := neural_local_gain h;
     batch_size := batch_size h;
     max_iter := max_iter h;
     min_train_cost := min_train_cost h;
     min_cv_cost := min_cv_cost h;
     n_iter_stop_skip := n_iter_stop_skip h;
     stop_threshold := stop_threshold h;
     tolerance := tolerance h;
     goal := goal h;
     d_goal := d_goal h;
     d_f_list := d_f_list h;
     cv_input_data := cv_input_data h;
     cv_output_data := cv_output_data h;
     cv_goal := cv_goal h;
     add_bias := add_bias h |}.

(** A derivative that returns a copy of its argument. *)
Definition fresh_copy (w : matrix) : returned matrix := Fresh w.

(** The laws of exact arithmetic the cost and batch-size identities
    rest on. *)
Record exact_arith : Prop := mk_exact_arith {
  ea_add_0_r : forall x, radd x r0 = x;
  ea_add_comm : forall x y, radd x y = radd y x;
  ea_add_assoc : forall x y z, radd x (radd y z) = radd (radd x y) z;
  ea_mul_0_l : forall x, rmul r0 x = r0;
  ea_mul_1_l : forall x, rmul r1 x = x;
  ea_mul_add_r : forall x y z, rmul (radd x y) z = radd (rmul x z) (rmul y z);
  ea_of_nat_0 : of_nat 0 = r0;
  ea_of_nat_S : forall n, of_nat (S n) = radd (of_nat n) r1;
  ea_div_add : forall x y z, rdiv (radd x y) z = radd (rdiv x z) (rdiv y z);
  ea_div_cancel : forall n x, n <> 0 ->
                    rdiv (rmul (of_nat n) x) (of_nat n) = x;
  ea_div_scale : forall m b x, m <> 0 ->
                   rdiv x (of_nat b)
                   = rmul (rdiv (of_nat m) (of_nat b)) (rdiv x (of_nat m))
}.

(** The mean of a vector of per-example costs. *)
Definition mean (l : list R) : R := rdiv (np_sum l) (of_nat (length l)).

(** The cost of an epoch as the specification words it: the mean of the
    goal over the examples, plus the penalties of the layers when
    [regularization_norm] is given. *)
Definition claimed_cost (h : hyper R) (Ws : list matrix) (per_example : list R) : R :=
  match regularization_norm h with
  | None => mean per_example
  | Some rn => radd (mean per_example) (np_sum (map rn Ws))
  end.

(** The update of a last batch of [m] examples as the specification
    words it: the update computed from the gradient averaged over the
    examples of the batch, scaled by [m / batch_size]. *)
Definition claimed_last_batch_update (h : hyper R) (gain : option matrix)
    (Wi last avg_grad : matrix) (m batch_size : nat) : matrix :=
  scal_mul (rdiv (of_nat m) (of_nat batch_size))
    (layer_delta h gain Wi last avg_grad).

(** The output-layer error term as the specification words it: the
    activation-derivative factor is left out when [d_goal] is the
    cross-entropy derivative and the output activation matches it
    ([matching]), and is there otherwise. *)
Definition claimed_output_dE_dz (d_goal : d_goal_fn R) (matching : bool)
    (g d_f_z : matrix) : matrix :=
  if is_d_cross_entropy d_goal && matching then g
  else zip_same rmul g d_f_z.

End Vocabulary.

(** * Properties *)

Unset Implicit Arguments.

(** ** Python lists *)

Lemma py_get_nth_error {A : Type} (l : list A) (i : nat) (a : A) :
  nth_error l i = Some a -> py_get l i = Ok a.
Proof. unfold py_get. now intros ->. Qed.

Lemma py_get_Ok {A : Type} (l : list A) (i : nat) (a : A) :
  py_get l i = Ok a -> nth_error l i = Some a.
Proof. unfold py_get. destruct (nth_error l i); congruence. Qed.

Lemma py_get_lt {A : Type} (l : list A) (i : nat) :
  i < length l -> exists a, py_get l i = Ok a /\ nth_error l i = Some a.
Proof.
  intros H. destruct (nth_error l i) as [a|] eqn:E.
  - exists a. split; [now apply py_get_nth_error | reflexivity].
  - apply nth_error_None in E. lia.
Qed.

Lemma set_nth_length {A : Type} (l : list A) (i : nat) (v : A) :
  length (set_nth l i v) = length l.
Proof.
  revert i. induction l as [|h t IH]; intros [|j]; simpl; auto.
Qed.

Lemma nth_error_set_nth_eq {A : Type} (l : list A) (i : nat) (v : A) :
  i < length l -> nth_error (set_nth l i v) i = Some v.
Proof.
  revert i. induction l as [|h t IH]; intros [|j] H; simpl in *; try lia; auto.
  apply IH. lia.
Qed.

Lemma nth_error_set_nth_ne {A : Type} (l : list A) (i j : nat) (v : A) :
  i <> j -> nth_error (set_nth l i v) j = nth_error l j.
Proof.
  revert i j. induction l as [|h t IH]; intros [|i] [|j] H; simpl; auto.
  congruence.
Qed.

Lemma map_set_nth {A B : Type} (f : A -> B) (l : list A) (i : nat) (v : A) :
  map f (set_nth l i v) = set_nth (map f l) i (f v).
Proof.
  revert i. induction l as [|h t IH]; intros [|j]; simpl; auto.
  now rewrite IH.
Qed.

Lemma set_nth_same {A : Type} (l : list A) (i : nat) (v : A) :
  nth_error l i = Some v -> set_nth l i v = l.
Proof.
  revert i. induction l as [|h t IH]; intros [|j] H; simpl in *; try congruence.
  now rewrite IH.
Qed.

Lemma py_set_lt {A : Type} (l : list A) (i : nat) (v : A) :
  i < length l -> py_set l i v = Ok (set_nth l i v).
Proof.
  intros H. unfold py_set. apply Nat.ltb_lt in H. now rewrite H.
Qed.

Lemma py_set_Ok {A : Type} (l l' : list A) (i : nat) (v : A) :
  py_set l i v = Ok l' -> i < length l /\ l' = set_nth l i v.
Proof.
  unfold py_set. destruct (i <? length l) eqn:E; [|discriminate].
  apply Nat.ltb_lt in E. intros [= <-]. auto.
Qed.

Lemma py_last_app {A : Type} (l : list A) (a : A) : py_last (l ++ [a]) = Ok a.
Proof. unfold py_last. now rewrite rev_app_distr. Qed.

Lemma py_last_nth_error {A : Type} (l : list A) (a : A) :
  py_last l = Ok a -> nth_error l (length l - 1) = Some a.
Proof.
  unfold py_last. destruct l as [|x l'] using rev_ind; [discriminate|].
  rewrite rev_app_distr. simpl. intros [= ->].
  rewrite length_app. simpl.
  replace (length l' + 1 - 1) with (length l') by lia.
  rewrite nth_error_app2 by lia. now rewrite Nat.sub_diag.
Qed.

Lemma py_last_nonempty {A : Type} (l : list A) :
  l <> [] -> exists a, py_last l = Ok a.
Proof.
  destruct l as [|x l'] using rev_ind; [congruence|].
  intros _. exists x. apply py_last_app.
Qed.

(** ** Shapes of the numpy operations *)

Section Shapes.
Context {R : Type} {SR : Scalar R}.
Local Abbreviation matrix := (ndarray R).

Lemma shape_eq (a b : matrix) :
  shape a = shape b <-> shape0 a = shape0 b /\ shape1 a = shape1 b.
Proof. unfold shape. split; [intros [= -> ->]; auto | intros [-> ->]; auto]. Qed.

Lemma bdim_same (a : nat) : bdim a a = Some a.
Proof. unfold bdim. now rewrite Nat.eqb_refl. Qed.

Lemma stretch_same {A : Type} (n : nat) (l : list A) : stretch n n l = l.
Proof. unfold stretch. now rewrite Nat.eqb_refl. Qed.

Lemma bcast_rows_same {A : Type} (m : ndarray A) :
  bcast_rows m (shape0 m) (shape1 m) = rows m.
Proof.
  unfold bcast_rows. rewrite stretch_same.
  rewrite <- (map_id (rows m)) at 2. apply map_ext. intros r.
  apply stretch_same.
Qed.

Lemma nd_zip_same {A B C : Type} (f : A -> B -> C) (m : ndarray A) (m' : ndarray B) :
  shape0 m = shape0 m' -> shape1 m = shape1 m' ->
  nd_zip f m m' = Ok (zip_same f m m').
Proof.
  intros H0 H1. unfold nd_zip, zip_same. rewrite <- H0, <- H1, !bdim_same.
  rewrite bcast_rows_same. unfold bcast_rows at 1.
  rewrite H0, H1, stretch_same.
  do 3 f_equal. rewrite <- (map_id (rows m')) at 2. apply map_ext.
  intros r. apply stretch_same.
Qed.

Lemma nd_zip_inplace_same {A B : Type} (f : A -> B -> A) (m : ndarray A) (m' : ndarray B) :
  shape0 m = shape0 m' -> shape1 m = shape1 m' ->
  nd_zip_inplace f m m' = Ok (zip_same f m m').
Proof.
  intros H0 H1. unfold nd_zip_inplace, zip_same. rewrite <- H0, <- H1, !bdim_same.
  rewrite !Nat.eqb_refl. simpl. unfold bcast_rows.
  rewrite H0, H1, stretch_same.
  do 3 f_equal. rewrite <- (map_id (rows m')) at 2. apply map_ext.
  intros r. apply stretch_same.
Qed.

Lemma nd_zip_inplace_shape {A B : Type} (f : A -> B -> A) (m r : ndarray A) (m' : ndarray B) :
  nd_zip_inplace f m m' = Ok r -> shape r = shape m.
Proof.
  unfold nd_zip_inplace.
  destruct (bdim (shape0 m) (shape0 m')) as [s0|]; [|discriminate].
  destruct (bdim (shape1 m) (shape1 m')) as [s1|]; [|discriminate].
  destruct (s0 =? shape0 m) eqn:E0; [|discriminate].
  destruct (s1 =? shape1 m) eqn:E1; [|discriminate].
  apply Nat.eqb_eq in E0, E1. intros [= <-]. unfold shape. simpl. congruence.
Qed.

Lemma dot_Ok (a b : matrix) :
  shape1 a = shape0 b -> dot a b = Ok (matmul a b).
Proof.
  intros H. unfold dot. apply Nat.eqb_eq in H. now rewrite H.
Qed.

Lemma dot_mismatch (a b : matrix) :
  shape1 a <> shape0 b -> dot a b = Raise ValueError.
Proof.
  intros H. unfold dot. apply Nat.eqb_neq in H. now rewrite H.
Qed.

Lemma take_rows_Ok (m : matrix) (idx : list nat) :
  Forall (fun i => i < shape0 m) idx ->
  exists b, take_rows m idx = Ok b /\ shape0 b = length idx /\ shape1 b = shape1 m.
Proof.
  intros H. unfold take_rows.
  assert (E : forallb (fun i => i <? shape0 m) idx = true).
  { apply forallb_forall. intros i Hi. apply Nat.ltb_lt.
    rewrite Forall_forall in H. auto. }
  rewrite E. eexists. split; [reflexivity|]. simpl. auto.
Qed.

End Shapes.

(** ** Arrays whose rows agree with their shape *)

Section WellFormed.
Context {R : Type} {SR : Scalar R}.
Local Abbreviation matrix := (ndarray R).

Lemma wf_nd_map {A B : Type} (f : A -> B) (m : ndarray A) :
  wf_nd m -> wf_nd (nd_map f m).
Proof.
  intros [H0 H1]. split; simpl.
  - now rewrite length_map.
  - apply Forall_map. eapply Forall_impl; [|exact H1].
    intros r Hr. simpl. now rewrite length_map.
Qed.

Lemma wf_c_ones (m : matrix) : wf_nd m -> wf_nd (c_ones m).
Proof.
  intros [H0 H1]. split; simpl.
  - now rewrite length_map.
  - apply Forall_map. eapply Forall_impl; [|exact H1].
    intros r Hr. simpl. now rewrite Hr.
Qed.

Lemma wf_transpose (m : matrix) : wf_nd m -> wf_nd (transpose m).
Proof.
  intros [H0 H1]. split; simpl.
  - now rewrite length_map, length_seq.
  - apply Forall_map. apply Forall_forall. intros j _. unfold column.
    now rewrite length_map.
Qed.

Lemma wf_matmul (a b : matrix) : wf_nd a -> wf_nd b -> wf_nd (matmul a b).
Proof.
  intros [Ha0 Ha1] Hb. split; simpl.
  - now rewrite length_map.
  - apply Forall_map. apply Forall_forall. intros r _.
    now rewrite !length_map, length_seq.
Qed.

Lemma wf_take_rows (m b : matrix) (idx : list nat) :
  wf_nd m -> take_rows m idx = Ok b -> wf_nd b.
Proof.
  intros [H0 H1]. unfold take_rows.
  destruct (forallb _ idx) eqn:E; [|discriminate]. intros [= <-].
  split; simpl.
  - now rewrite length_map.
  - apply Forall_map. apply Forall_forall. intros i Hi.
    rewrite forallb_forall in E. specialize (E i Hi). apply Nat.ltb_lt in E.
    rewrite Forall_forall in H1. apply H1. apply nth_In. lia.
Qed.

Lemma length_map2 {A B C : Type} (f : A -> B -> C) (l : list A) (l' : list B) :
  length l = length l' -> length (map2 f l l') = length l.
Proof.
  revert l'. induction l as [|a l IH]; intros [|b l'] H; simpl in *; try lia.
  now rewrite IH by lia.
Qed.

Lemma wf_zip_same {A B C : Type} (f : A -> B -> C) (m : ndarray A) (m' : ndarray B) :
  wf_nd m -> wf_nd m' -> shape m = shape m' -> wf_nd (zip_same f m m').
Proof.
  intros [H0 H1] [H0' H1'] Hs. unfold shape in Hs. injection Hs as Hs0 Hs1.
  split; simpl.
  - rewrite length_map2; congruence.
  - rewrite <- Hs1 in H1'. clear H0 H0' Hs0 Hs1.
    revert H1 H1'. generalize (shape1 m). generalize (rows m'). generalize (rows m).
    induction l as [|r l IH]; intros [|r' l'] n Hl Hl'; simpl; constructor.
    + inversion Hl; inversion Hl'; subst. rewrite length_map2; congruence.
    + inversion Hl; inversion Hl'; subst. now apply IH.
Qed.

Lemma wf_chunks (n d : nat) (l : list R) :
  length l = n * d -> wf_nd (mk_nd n d (chunks n d l)).
Proof.
  revert l. induction n as [|n IH]; intros l Hl; split; simpl.
  - reflexivity.
  - constructor.
  - destruct (IH (skipn d l)) as [H0 _]; [rewrite length_skipn; lia|].
    simpl in H0. now rewrite H0.
  - constructor.
    + rewrite length_firstn. lia.
    + destruct (IH (skipn d l)) as [_ H1]; [rewrite length_skipn; lia|].
      exact H1.
Qed.

Lemma transpose_entry (m : matrix) (i j : nat) :
  wf_nd m -> i < shape0 m -> j < shape1 m ->
  entry (transpose m) j i = entry m i j.
Proof.
  intros [H0 H1] Hi Hj. unfold entry, transpose. simpl.
  rewrite (nth_indep _ [] (column 0 (rows m))) by now rewrite length_map, length_seq.
  rewrite (map_nth (fun j => column j (rows m))), seq_nth by assumption. simpl.
  unfold column.
  rewrite (nth_indep _ r0 (nth j [] r0)) by (rewrite length_map; lia).
  now rewrite (map_nth (fun r => nth j r r0)).
Qed.

Lemma matmul_entry (a b : matrix) (i j : nat) :
  wf_nd a -> i < shape0 a -> j < shape1 b ->
  entry (matmul a b) i j = dot_vec (nth i (rows a) []) (column j (rows b)).
Proof.
  intros [H0 H1] Hi Hj. unfold entry, matmul. simpl.
  set (F := fun ra : list R => map (fun cb => dot_vec ra cb)
                                (map (fun j => column j (rows b)) (seq 0 (shape1 b)))).
  rewrite (nth_indep _ [] (F [])) by (rewrite length_map; lia).
  rewrite (map_nth F). unfold F.
  set (G := fun cb => dot_vec (nth i (rows a) []) cb).
  rewrite (nth_indep _ r0 (G (column 0 (rows b))))
    by now rewrite !length_map, length_seq.
  rewrite (map_nth G).
  rewrite (map_nth (fun j => column j (rows b))), seq_nth by assumption.
  reflexivity.
Qed.

End WellFormed.

(** ** Construction *)

Section InitProps.
Context {R : Type} {SR : Scalar R} {EX : Externals R}.
Local Abbreviation matrix := (ndarray R).

Lemma init_loop_Ok (d : nat) (ls : list nat) (rng : nat -> nat -> list R) :
  (forall i n, length (rng i n) = n) ->
  forall cnt k acc,
    k + cnt = length ls ->
    init_loop d ls rng (seq k cnt) acc
    = Ok (acc ++ map (init_layer d ls rng) (seq k cnt)).
Proof.
  intros Hrng. induction cnt as [|cnt IH]; intros k acc Hk; simpl.
  - now rewrite app_nil_r.
  - destruct (py_get_lt ls k) as (neurons & -> & Hn); [lia|]. simpl.
    assert (Hneu : nth k ls 0 = neurons) by now apply nth_error_nth.
    assert (Hprev : (if k =? 0 then Ok d else py_get ls (k - 1))
                    = Ok (if k =? 0 then d else nth (k - 1) ls 0)).
    { destruct (k =? 0) eqn:E; [reflexivity|].
      apply Nat.eqb_neq in E.
      destruct (py_get_lt ls (k - 1)) as (p & -> & Hp); [lia|].
      now rewrite (nth_error_nth _ _ 0 Hp). }
    rewrite Hprev. simpl. unfold reshape.
    rewrite Hrng, Nat.eqb_refl. simpl.
    rewrite IH by lia. rewrite <- app_assoc. simpl.
    unfold init_layer at 2. now rewrite Hneu.
Qed.

Lemma init_Ok (d : nat) (ls : list nat)
    (af : option (list (matrix -> matrix))) (rng : nat -> nat -> list R) :
  (forall i n, length (rng i n) = n) ->
  (forall fs, af = Some fs -> length fs = length ls) ->
  exists fl,
    init d ls af rng
    = Ok (mk_MLP (map (init_layer d ls rng) (seq 0 (length ls))) fl)
    /\ length fl = length ls.
Proof.
  intros Hrng Haf. unfold init.
  rewrite (init_loop_Ok d ls rng Hrng (length ls) 0 []) by lia. simpl.
  destruct af as [fs|].
  - rewrite (Haf fs eq_refl), Nat.eqb_refl. simpl. eexists. split; [reflexivity|].
    now apply Haf.
  - simpl. eexists. split; [reflexivity|]. now rewrite length_map, length_seq.
Qed.

(** The weight matrices [__init__] builds are well formed. *)
Lemma init_wf (d : nat) (ls : list nat) (rng : nat -> nat -> list R) (i : nat) :
  (forall i n, length (rng i n) = n) -> wf_nd (init_layer d ls rng i).
Proof.
  intros Hrng. unfold init_layer. apply wf_chunks. apply Hrng.
Qed.

End InitProps.

(** ** Quantities a run leaves unchanged *)

Section Frame.
Context {R : Type} {SR : Scalar R} {EX : Externals R}.
Local Abbreviation matrix := (ndarray R).

Variables (X : Type) (F : train_state R -> X).

Lemma mbind_frame {A B : Type} (m : M R A) (k : A -> M R B) :
  (forall s, F (fst (m s)) = F s) ->
  (forall a s, F (fst (k a s)) = F s) ->
  forall s, F (fst (mbind m k s)) = F s.
Proof.
  intros Hm Hk s. unfold mbind. specialize (Hm s).
  destruct (m s) as [s' [a|e]]; simpl in *; [|assumption].
  now rewrite Hk.
Qed.

Lemma mbind_get_frame {B : Type} (k : train_state R -> M R B) :
  (forall s, F (fst (k s s)) = F s) ->
  forall s, F (fst (mbind get k s)) = F s.
Proof. intros Hk s. unfold mbind, get. apply Hk. Qed.

Lemma mbind_lift_frame {A B : Type} (r : result A) (k : A -> M R B) (s : train_state R) :
  (forall a, r = Ok a -> F (fst (k a s)) = F s) ->
  F (fst (mbind (lift r) k s)) = F s.
Proof.
  intros Hk. unfold mbind, lift. destruct r as [a|e]; simpl; auto.
Qed.

Lemma lift_frame {A : Type} (r : result A) (s : train_state R) :
  F (fst (lift r s)) = F s.
Proof. reflexivity. Qed.

Lemma for_each_frame {A : Type} (l : list A) (body : A -> M R unit) :
  (forall a s, F (fst (body a s)) = F s) ->
  forall s, F (fst (for_each l body s)) = F s.
Proof.
  intros Hb. induction l as [|a t IH]; intros s; simpl; [reflexivity|].
  apply mbind_frame; auto.
Qed.

Lemma for_break_frame {A : Type} (l : list A) (body : A -> M R bool) :
  (forall a s, F (fst (body a s)) = F s) ->
  forall s, F (fst (for_break l body s)) = F s.
Proof.
  intros Hb. induction l as [|a t IH]; intros s; simpl; [reflexivity|].
  apply mbind_frame; auto. intros [|] s'; [reflexivity|apply IH].
Qed.

End Frame.

Section ShapePreservation.
Context {R : Type} {SR : Scalar R} {EX : Externals R}.
Local Abbreviation matrix := (ndarray R).

Lemma update_gain_net (h : hyper R) (delta_W : matrix) (i : nat) (st : train_state R) :
  net (fst (update_gain h delta_W i st)) = net st.
Proof.
  unfold update_gain, mbind, get, lift, put, ret. simpl.
  destruct (nlg st) as [g|]; [|reflexivity].
  destruct (neural_local_gain h) as [[[[b p] mn] mx]|]; [|reflexivity].
  destruct (py_get (last_delta_W st) i); [|reflexivity].
  destruct (nd_mul delta_W a); [|reflexivity].
  destruct (py_get g i); [|reflexivity].
  destruct (py_set g i _); reflexivity.
Qed.

Lemma set_nth_shapes (Ws : list matrix) (i : nat) (w w' : matrix) :
  nth_error Ws i = Some w -> shape w' = shape w ->
  map shape (set_nth Ws i w') = map shape Ws.
Proof.
  intros Hn Hs. rewrite map_set_nth, Hs. apply set_nth_same.
  now rewrite nth_error_map, Hn.
Qed.

Lemma zero_col0_shape (m p : matrix) : zero_col0 m = Ok p -> shape p = shape m.
Proof.
  unfold zero_col0. destruct (shape1 m =? 0); [discriminate|].
  intros [= <-]. reflexivity.
Qed.

Lemma regularization_penalty_shapes (h : hyper R) (i : nat) (st : train_state R) :
  W_shapes (fst (regularization_penalty h i st)) = W_shapes st.
Proof.
  unfold regularization_penalty.
  destruct (d_regularization_norm h) as [d|]; [|reflexivity].
  revert st. apply mbind_get_frame. intros st.
  apply mbind_lift_frame. intros Wi HWi.
  destruct (d Wi) as [m|].
  - apply mbind_lift_frame. intros p _. reflexivity.
  - apply mbind_lift_frame. intros p Hp.
    apply mbind_lift_frame. intros W' HW'.
    apply py_set_Ok in HW'. destruct HW' as [_ ->].
    apply py_get_Ok in HWi. apply zero_col0_shape in Hp.
    unfold mbind, put, ret, W_shapes. simpl.
    now apply set_nth_shapes with (w := Wi).
Qed.

Lemma update_layer_shapes (h : hyper R) (nabla_W : list (option matrix))
    (i : nat) (st : train_state R) :
  W_shapes (fst (update_layer h nabla_W i st)) = W_shapes st.
Proof.
  unfold update_layer. revert st. apply mbind_frame.
  { apply regularization_penalty_shapes. }
  intros pen. apply mbind_get_frame. intros st.
  apply mbind_lift_frame. intros delta_W Hdelta.
  unfold mbind at 1.
  pose proof (update_gain_net h delta_W i st) as Hg.
  destruct (update_gain h delta_W i st) as [s1 [[]|e]]; simpl in Hg;
    [|unfold W_shapes; simpl; now rewrite Hg].
  unfold mbind, get, lift, put. simpl.
  destruct (py_get (W (net s1)) i) as [Wi1|] eqn:E1;
    [|unfold W_shapes; simpl; now rewrite Hg].
  destruct (nd_isub Wi1 delta_W) as [Wi'|] eqn:E2;
    [|unfold W_shapes; simpl; now rewrite Hg].
  destruct (py_set (W (net s1)) i Wi') as [W'|] eqn:E3;
    [|unfold W_shapes; simpl; now rewrite Hg].
  apply py_set_Ok in E3. destruct E3 as [_ ->].
  apply py_get_Ok in E1. apply nd_zip_inplace_shape in E2.
  assert (HW : W_shapes (set_W s1 (set_nth (W (net s1)) i Wi')) = W_shapes st).
  { unfold W_shapes. simpl. rewrite (set_nth_shapes _ _ _ _ E1 E2). now rewrite Hg. }
  simpl. destruct (py_set (last_delta_W s1) i delta_W); simpl; exact HW.
Qed.

End ShapePreservation.

Section RunFrame.
Context {R : Type} {SR : Scalar R} {EX : Externals R}.
Local Abbreviation matrix := (ndarray R).

Variables (X : Type) (F : train_state R -> X).
Hypothesis F_update : forall h nabla_W i st,
  F (fst (update_layer h nabla_W i st)) = F st.
Hypothesis F_cost : forall st c, F (set_cost st c) = F st.
Hypothesis F_cv_cost : forall st c, F (set_cv_cost st c) = F st.

Lemma train_batch_frame h d_f_list input_data output_data batch_size idx_data i st :
  F (fst (train_batch h d_f_list input_data output_data batch_size idx_data i st))
  = F st.
Proof.
  unfold train_batch. apply mbind_lift_frame. intros batch_data _.
  revert st. apply mbind_get_frame. intros st.
  apply mbind_lift_frame. intros [z f_z] _.
  apply mbind_lift_frame. intros [nabla_W log] _.
  apply for_each_frame. intros a s. apply F_update.
Qed.

Lemma epoch_frame h d_f_list input_data output_data batch_size cv cv_goal shuffle n st :
  F (fst (epoch h d_f_list input_data output_data batch_size cv cv_goal shuffle n st))
  = F st.
Proof.
  unfold epoch. apply mbind_lift_frame. intros idx_batch _.
  revert st. apply mbind_frame.
  { apply for_each_frame. intros a s. apply train_batch_frame. }
  intros _. apply mbind_get_frame. intros st.
  apply mbind_lift_frame. intros c _.
  unfold mbind at 1. unfold put at 1.
  assert (Hcv : forall s,
    F (fst (match cv with
            | Some (cv_in, cv_out) =>
                st0 <~ get ;;
                c0 <~ lift (epoch_cost cv_goal h (net st0) cv_in cv_out) ;;
                put (set_cv_cost st0 (cv_cost st0 ++ [c0]))
            | None => ret tt
            end s)) = F s).
  { intros s. destruct cv as [[cv_in cv_out]|]; [|reflexivity].
    revert s. apply mbind_get_frame. intros s.
    apply mbind_lift_frame. intros c0 _. unfold put. simpl. apply F_cv_cost. }
  rewrite <- (F_cost st (cost st ++ [c])).
  generalize (set_cost st (cost st ++ [c])). apply mbind_frame.
  - exact Hcv.
  - intros _. apply mbind_get_frame. intros s. apply lift_frame.
Qed.

Lemma train_backprop_frame self input_data output_data h shuffle (G : MLP R -> X) :
  (forall st, F st = G (net st)) ->
  G (fst (train_backprop self input_data output_data h shuffle)) = G self.
Proof.
  intros HG. unfold train_backprop.
  match goal with
  | |- context [for_break ?l ?b ?s] =>
      pose proof (for_break_frame X F l b
                    (fun a s' => epoch_frame _ _ _ _ _ _ _ _ a s') s) as Hrun;
      destruct (for_break l b s) as [st [u|e]]
  end; simpl in *; rewrite <- HG, Hrun, HG; reflexivity.
Qed.

End RunFrame.

(** ** The shape invariant of the weights (C9) *)

Section ShapeInvariant.
Context {R : Type} {SR : Scalar R} {EX : Externals R}.
Local Abbreviation matrix := (ndarray R).

Lemma init_layer_nth (d : nat) (ls : list nat) (rng : nat -> nat -> list R)
    (i : nat) (w : matrix) :
  nth_error (map (init_layer d ls rng) (seq 0 (length ls))) i = Some w ->
  i < length ls /\ w = init_layer d ls rng i.
Proof.
  intros H. rewrite nth_error_map in H.
  destruct (nth_error (seq 0 (length ls)) i) as [j|] eqn:E; [|discriminate].
  assert (Hi : i < length (seq 0 (length ls))).
  { apply nth_error_Some. congruence. }
  rewrite length_seq in Hi.
  rewrite nth_error_seq in E. apply Nat.ltb_lt in Hi. rewrite Hi in E.
  apply Nat.ltb_lt in Hi. simpl in *. split; [assumption|]. congruence.
Qed.

(** C9. Whenever construction is valid (the activation functions, when
    given, are as many as the layers, and [rng] returns as many numbers
    as it is asked for), [__init__] returns a network with one weight
    matrix per layer such that [W[0]] has [1 + input_dimension] columns,
    [W[i]] has [1 + rows(W[i-1])] columns for [i > 0] and [W[i]] has the
    requested number of rows; no epoch of [train_backprop], and no run of
    it, changes the shape of a weight matrix. *)
Theorem C9_weight_shape_invariant (input_dimension : nat)
    (layers_structure : list nat)
    (activation_functions : option (list (matrix -> matrix)))
    (rng : nat -> nat -> list R) :
  layers_structure <> [] ->
  (forall i n, length (rng i n) = n) ->
  (forall fs, activation_functions = Some fs ->
              length fs = length layers_structure) ->
  exists self : MLP R,
    init input_dimension layers_structure activation_functions rng = Ok self
    /\ length (W self) = length layers_structure
    /\ (forall w0, nth_error (W self) 0 = Some w0 ->
                   shape1 w0 = 1 + input_dimension)
    /\ (forall i w w', nth_error (W self) (S i) = Some w ->
                       nth_error (W self) i = Some w' ->
                       shape1 w = 1 + shape0 w')
    /\ (forall i w, nth_error (W self) i = Some w ->
                    shape0 w = nth i layers_structure 0)
    /\ (forall h d_f_list input_data output_data batch_size cv cv_goal
               shuffle n st,
           W_shapes (fst (epoch h d_f_list input_data output_data batch_size
                            cv cv_goal shuffle n st))
           = W_shapes st)
    /\ (forall input_data output_data h shuffle,
           map shape (W (fst (train_backprop self input_data output_data h shuffle)))
           = map shape (W self)).
Proof.
  intros _ Hrng Haf.
  destruct (init_Ok input_dimension layers_structure activation_functions rng
              Hrng Haf) as (fl & Hinit & _).
  eexists. split; [exact Hinit|]. cbn [W].
  split; [now rewrite length_map, length_seq|].
  split.
  { intros w0 H0. apply init_layer_nth in H0. destruct H0 as [_ ->]. reflexivity. }
  split.
  { intros i w w' H1 H2. apply init_layer_nth in H1, H2.
    destruct H1 as [_ ->], H2 as [_ ->]. simpl.
    rewrite ?Nat.sub_0_r. reflexivity. }
  split.
  { intros i w H. apply init_layer_nth in H. destruct H as [_ ->]. reflexivity. }
  split.
  { intros. apply epoch_frame.
    - intros. apply update_layer_shapes.
    - reflexivity.
    - reflexivity. }
  intros.
  apply (train_backprop_frame _ W_shapes) with (G := fun m => map shape (W m)).
  - intros. apply update_layer_shapes.
  - reflexivity.
  - reflexivity.
  - reflexivity.
Qed.

End ShapeInvariant.

(** ** The forward pass of a batch *)

Section ForwardPass.
Context {R : Type} {SR : Scalar R} {EX : Externals R}.
Local Abbreviation matrix := (ndarray R).

Variables (self : MLP R) (d_goal : d_goal_fn R)
  (d_f_list : list (matrix -> matrix)) (batch_data : matrix).
Hypothesis Hnet : net_ok self d_goal d_f_list.
Hypothesis Hinput : forall w0, nth_error (W self) 0 = Some w0 ->
                               shape1 batch_data = shape1 w0.

Lemma shape_preserving_nth (fs : list (matrix -> matrix)) (i : nat)
    (f : matrix -> matrix) :
  Forall shape_preserving fs -> nth_error fs i = Some f -> shape_preserving f.
Proof.
  intros HF Hn. rewrite Forall_forall in HF. apply HF.
  eapply nth_error_In; eauto.
Qed.

Lemma layer_input_app (f_z : list matrix) (a : matrix) (i : nat) :
  i <= length f_z ->
  layer_input batch_data (f_z ++ [a]) i = layer_input batch_data f_z i.
Proof.
  intros Hi. unfold layer_input. destruct (i =? 0) eqn:E; [reflexivity|].
  apply Nat.eqb_neq in E. unfold py_get.
  rewrite nth_error_app1 by lia. reflexivity.
Qed.

Lemma fwd_rec_app (z f_z : list matrix) (zi a : matrix) (i : nat) :
  length z = length f_z ->
  fwd_rec self batch_data z f_z i ->
  fwd_rec self batch_data (z ++ [zi]) (f_z ++ [a]) i.
Proof.
  intros Hlen (Wi & f & inp & zi' & HW & Hf & Hin & Hz & Hfz & Hzi & Hs0 & Hs1).
  assert (Hi : i < length f_z).
  { apply nth_error_Some. congruence. }
  exists Wi, f, inp, zi'. repeat split; auto.
  - rewrite layer_input_app by lia. assumption.
  - rewrite nth_error_app1 by lia. assumption.
  - rewrite nth_error_app1 by lia. assumption.
Qed.

Lemma forward_loop_spec :
  forall cnt k z f_z tmp_data,
    k + cnt = length (W self) ->
    length z = k -> length f_z = k ->
    layer_input batch_data f_z k = Ok tmp_data \/ cnt = 0 ->
    shape0 tmp_data = shape0 batch_data ->
    (forall w, nth_error (W self) k = Some w -> shape1 tmp_data = shape1 w) ->
    (forall i, i < k -> fwd_rec self batch_data z f_z i) ->
    exists z' f_z',
      forward_loop self (seq k cnt) z f_z tmp_data = Ok (z', f_z')
      /\ length z' = length (W self) /\ length f_z' = length (W self)
      /\ forall i, i < length (W self) -> fwd_rec self batch_data z' f_z' i.
Proof.
  induction cnt as [|cnt IH]; intros k z f_z tmp Hk Hz Hfz Htmp Hs0 Hs1 Hrec.
  - simpl. exists z, f_z. repeat split; try lia.
    intros i Hi. apply Hrec. lia.
  - destruct Htmp as [Htmp|]; [|discriminate].
    simpl.
    destruct (py_get_lt (W self) k) as (Wk & -> & HWk); [lia|]. simpl.
    rewrite dot_Ok by (simpl; auto). simpl.
    destruct (py_get_lt (f_list self) k) as (f & -> & Hf);
      [rewrite (no_f_len Hnet); lia|]. simpl.
    rewrite py_last_app. simpl.
    set (zk := matmul tmp (transpose Wk)).
    assert (Hfs : shape (f zk) = shape zk).
    { apply (shape_preserving_nth _ _ _ (no_f_shape Hnet) Hf). }
    apply shape_eq in Hfs. destruct Hfs as [Hfs0 Hfs1]. simpl in Hfs0, Hfs1.
    apply IH.
    + lia.
    + rewrite length_app. simpl. lia.
    + rewrite length_app. simpl. lia.
    + destruct cnt as [|cnt]; [now right|]. left.
      unfold layer_input, py_get. cbn [Nat.eqb].
      rewrite nth_error_app2 by lia.
      replace (S k - 1 - length f_z) with 0 by lia. simpl.
      replace (k =? length (W self) - 1) with false
        by (symmetry; apply Nat.eqb_neq; lia).
      reflexivity.
    + destruct (negb (k =? length (W self) - 1)); simpl; congruence.
    + intros w Hw.
      assert (Hlt : S k < length (W self)).
      { apply nth_error_Some. congruence. }
      replace (k =? length (W self) - 1) with false
        by (symmetry; apply Nat.eqb_neq; lia).
      simpl. rewrite Hfs1.
      now rewrite (no_chained Hnet k Hw HWk).
    + intros i Hi.
      assert (Hcase : i < k \/ i = k) by lia. destruct Hcase as [Hlt| ->].
      * apply fwd_rec_app; [congruence|]. now apply Hrec.
      * exists Wk, f, tmp, zk. repeat split; auto.
        -- rewrite layer_input_app by lia. assumption.
        -- rewrite nth_error_app2 by lia. now rewrite Hz, Nat.sub_diag.
        -- rewrite nth_error_app2 by lia. now rewrite Hfz, Nat.sub_diag.
Qed.

(** The forward pass succeeds and records every layer. *)
Lemma forward_pass_spec :
  exists z f_z,
    forward_pass self batch_data = Ok (z, f_z)
    /\ length z = length (W self) /\ length f_z = length (W self)
    /\ forall i, i < length (W self) -> fwd_rec self batch_data z f_z i.
Proof.
  unfold forward_pass. apply forward_loop_spec; auto.
  - intros i Hi. lia.
Qed.

End ForwardPass.

(** ** The backward pass of a batch *)

Section BackwardPass.
Context {R : Type} {SR : Scalar R} {EX : Externals R}.
Local Abbreviation matrix := (ndarray R).

Variables (self : MLP R) (d_goal : d_goal_fn R)
  (d_f_list : list (matrix -> matrix)) (output_data batch_data : matrix)
  (batch_idx : list nat) (batch_size : nat) (z f_z : list matrix).
Hypothesis Hnet : net_ok self d_goal d_f_list.
Hypothesis Hbatch : batch_ok self output_data batch_data batch_idx.
Hypothesis Hz : length z = length (W self).
Hypothesis Hfz : length f_z = length (W self).
Hypothesis Hfwd : forall i, i < length (W self) -> fwd_rec self batch_data z f_z i.

Local Abbreviation bwd := (bwd_rec self d_goal d_f_list output_data batch_data
                             batch_idx batch_size z f_z).

Lemma bwd_rec_set_nth (nabla_W log : list (option matrix)) (i j : nat)
    (g d : option matrix) :
  j < i ->
  bwd nabla_W log i ->
  bwd (set_nth nabla_W j g) (set_nth log j d) i.
Proof.
  intros Hji (dE & inp & Hlog & Hin & Hnab & Hs0 & Hs1 & Hstep).
  exists dE, inp. repeat split; auto.
  - rewrite nth_error_set_nth_ne by lia. assumption.
  - rewrite nth_error_set_nth_ne by lia. assumption.
  - destruct (S i =? length (W self)); [assumption|].
    destruct Hstep as (dn & Hdn & Hh). exists dn. split; [|assumption].
    rewrite nth_error_set_nth_ne by lia. assumption.
Qed.

(** The output-layer error term is defined, is given by the formula of
    line 164-165, and has the shape of the network's output. *)
Lemma output_dE_dz_Ok (j : nat) :
  S j = length (W self) ->
  exists targets out d_f zj,
    take_rows output_data batch_idx = Ok targets
    /\ py_last f_z = Ok out
    /\ nth_error d_f_list j = Some d_f
    /\ nth_error z j = Some zj
    /\ output_dE_dz d_goal d_f_list targets z f_z j
       = Ok (if is_d_cross_entropy d_goal
             then mul_scal (call_d_goal d_goal targets out) r1
             else zip_same rmul (call_d_goal d_goal targets out) (d_f zj))
    /\ shape0 (call_d_goal d_goal targets out) = shape0 batch_data
    /\ (forall Wj, nth_error (W self) j = Some Wj ->
                   shape1 (call_d_goal d_goal targets out) = shape0 Wj).
Proof.
  intros Hj.
  destruct (take_rows_Ok output_data batch_idx (bo_idx Hbatch))
    as (targets & Ht & Ht0 & Ht1).
  destruct (Hfwd j) as (Wj & f & inp & zj & HW & Hf & Hin & Hzj & Hfzj & Hzdef & Hi0 & Hi1);
    [lia|].
  assert (Hlast : py_last f_z = Ok (f zj)).
  { destruct (py_last_nonempty f_z) as (a & Ha).
    - intros ->. simpl in Hfz. lia.
    - rewrite Ha. apply py_last_nth_error in Ha.
      replace (length f_z - 1) with j in Ha by lia. congruence. }
  assert (Hfsh : shape (f zj) = shape zj)
    by apply (shape_preserving_nth _ _ _ (no_f_shape Hnet) Hf).
  assert (Hzs : shape zj = (shape0 batch_data, shape0 Wj)).
  { subst zj. unfold shape. simpl. now rewrite Hi0. }
  assert (Hts : shape targets = shape (f zj)).
  { rewrite Hfsh, Hzs. unfold shape. rewrite Ht0, Ht1.
    rewrite (bo_rows Hbatch). f_equal. apply (bo_out Hbatch).
    replace (length (W self) - 1) with j by lia. assumption. }
  pose proof (no_d_goal Hnet Hts) as Hg.
  rewrite Hfsh, Hzs in Hg. unfold shape in Hg. injection Hg as Hg0 Hg1.
  destruct (py_get_lt d_f_list j) as (d_f & Hgdf & Hdf);
    [rewrite (no_df_len Hnet); lia|].
  exists targets, (f zj), d_f, zj.
  split; [assumption|]. split; [assumption|]. split; [assumption|].
  split; [assumption|]. split.
  - unfold output_dE_dz. rewrite Hlast. cbn [rbind].
    destruct (is_d_cross_entropy d_goal); [reflexivity|].
    rewrite Hgdf. cbn [rbind].
    rewrite (py_get_nth_error _ _ _ Hzj). cbn [rbind].
    assert (Hdsh : shape (d_f zj) = shape zj)
      by apply (shape_preserving_nth _ _ _ (no_df_shape Hnet) Hdf).
    rewrite Hzs in Hdsh. unfold shape in Hdsh. injection Hdsh as Hd0 Hd1.
    unfold nd_mul. rewrite nd_zip_same by congruence. reflexivity.
  - split; [assumption|]. intros Wj' HW'. congruence.
Qed.

(** The error term of a hidden layer is defined once that of the next
    layer is, is given by the formula of line 169-170, and has the shape
    of the layer's output. *)
Lemma hidden_dE_dz_Ok (j : nat) (dE_dz_next : matrix) :
  S j < length (W self) ->
  shape0 dE_dz_next = shape0 batch_data ->
  (forall Wn, nth_error (W self) (S j) = Some Wn -> shape1 dE_dz_next = shape0 Wn) ->
  exists Wn d_f zj,
    nth_error (W self) (S j) = Some Wn
    /\ nth_error d_f_list j = Some d_f
    /\ nth_error z j = Some zj
    /\ hidden_dE_dz self d_f_list z dE_dz_next j
       = Ok (zip_same rmul
               (transpose (matmul (drop_row0 (transpose Wn)) (transpose dE_dz_next)))
               (d_f zj))
    /\ (forall Wj, nth_error (W self) j = Some Wj -> shape0 dE_dz_next = shape0 batch_data
                   /\ shape0 Wj = shape1 Wn - 1).
Proof.
  intros Hj Hn0 Hn1.
  destruct (Hfwd j) as (Wj & f & inp & zj & HW & Hf & Hin & Hzj & Hfzj & Hzdef & Hi0 & Hi1);
    [lia|].
  destruct (py_get_lt (W self) (S j)) as (Wn & HgWn & HWn); [lia|].
  destruct (py_get_lt d_f_list j) as (d_f & Hgdf & Hdf);
    [rewrite (no_df_len Hnet); lia|].
  pose proof (no_chained Hnet j HWn HW) as Hch.
  exists Wn, d_f, zj.
  split; [assumption|]. split; [assumption|]. split; [assumption|]. split.
  - unfold hidden_dE_dz. rewrite Nat.add_1_r, HgWn. cbn [rbind].
    rewrite dot_Ok by (simpl; symmetry; now apply Hn1). cbn [rbind].
    rewrite Hgdf. cbn [rbind].
    rewrite (py_get_nth_error _ _ _ Hzj). cbn [rbind].
    assert (Hzs : shape zj = (shape0 batch_data, shape0 Wj)).
    { subst zj. unfold shape. simpl. now rewrite Hi0. }
    assert (Hdsh : shape (d_f zj) = shape zj)
      by apply (shape_preserving_nth _ _ _ (no_df_shape Hnet) Hdf).
    rewrite Hzs in Hdsh. unfold shape in Hdsh. injection Hdsh as Hd0 Hd1.
    unfold nd_mul. rewrite nd_zip_same by (simpl; lia). reflexivity.
  - intros Wj' HW'. replace Wj' with Wj by congruence. split; [assumption|lia].
Qed.

Lemma backward_loop_spec :
  forall k nabla_W dE_dz_next log,
    k <= length (W self) ->
    length nabla_W = length (W self) -> length log = length (W self) ->
    (k = length (W self) -> dE_dz_next = None) ->
    (k < length (W self) ->
     exists d, dE_dz_next = Some d /\ nth_error log k = Some (Some d)
               /\ shape0 d = shape0 batch_data
               /\ forall Wk, nth_error (W self) k = Some Wk -> shape1 d = shape0 Wk) ->
    (forall i, k <= i < length (W self) -> bwd nabla_W log i) ->
    exists nabla_W' log',
      backward_loop self d_goal d_f_list output_data batch_data batch_idx
        batch_size z f_z (rev (seq 0 k)) nabla_W dE_dz_next log
      = Ok (nabla_W', log')
      /\ length nabla_W' = length (W self)
      /\ forall i, i < length (W self) -> bwd nabla_W' log' i.
Proof.
  induction k as [|j IH]; intros nabla_W next log Hk Hnab Hlog Hfirst Hnext Hrec.
  - simpl. exists nabla_W, log. repeat split; auto.
    intros i Hi. apply Hrec. lia.
  - rewrite seq_S, rev_app_distr. simpl.
    destruct (Hfwd j) as (Wj & f & inp & zj & HW & Hf & Hin & Hzj & Hfzj & Hzdef & Hi0 & Hi1);
      [lia|].
    assert (Hstep : exists dE_dz,
      match next with
      | None =>
          targets <- take_rows output_data batch_idx ;;
          output_dE_dz d_goal d_f_list targets z f_z j
      | Some nx => hidden_dE_dz self d_f_list z nx j
      end = Ok dE_dz
      /\ shape0 dE_dz = shape0 batch_data
      /\ (forall Wj, nth_error (W self) j = Some Wj -> shape1 dE_dz = shape0 Wj)
      /\ (if S j =? length (W self)
          then exists targets,
                 take_rows output_data batch_idx = Ok targets
                 /\ output_dE_dz d_goal d_f_list targets z f_z j = Ok dE_dz
          else exists dn,
                 nth_error log (S j) = Some (Some dn)
                 /\ hidden_dE_dz self d_f_list z dn j = Ok dE_dz)).
    { assert (Hc : S j = length (W self) \/ S j < length (W self)) by lia.
      destruct Hc as [Hc|Hc].
      - rewrite (Hfirst Hc).
        destruct (output_dE_dz_Ok j Hc)
          as (t & out & d_f & zj' & Ht & _ & _ & _ & Hd & Hg0 & Hg1).
        eexists. rewrite Ht. cbn [rbind].
        split; [exact Hd|].
        split; [destruct (is_d_cross_entropy d_goal); simpl; assumption|].
        split; [destruct (is_d_cross_entropy d_goal); simpl; assumption|].
        apply Nat.eqb_eq in Hc. rewrite Hc. exists t. auto.
      - destruct (Hnext Hc) as (dn & -> & Hdn & Hn0 & Hn1).
        destruct (hidden_dE_dz_Ok j dn Hc Hn0 Hn1)
          as (Wn & d_f & zj' & HWn & _ & _ & Hd & Hsh).
        destruct (Hsh Wj HW) as [_ Hrows].
        eexists.
        split; [exact Hd|]. split; [simpl; assumption|].
        split; [intros Wj' HW'; simpl; replace Wj' with Wj by congruence; lia|].
        replace (S j =? length (W self)) with false
          by (symmetry; apply Nat.eqb_neq; lia).
        exists dn. auto. }
    destruct Hstep as (dE & -> & Hd0 & Hd1 & Hd). simpl.
    rewrite Hin. simpl. unfold layer_gradient.
    rewrite dot_Ok by (simpl; congruence). simpl.
    rewrite py_set_lt by lia. simpl.
    apply IH.
    + lia.
    + rewrite set_nth_length. assumption.
    + rewrite set_nth_length. assumption.
    + lia.
    + intros _. exists dE. repeat split; auto.
      apply nth_error_set_nth_eq. lia.
    + intros i Hi.
      assert (Hc : i = j \/ j < i) by lia. destruct Hc as [->|Hc].
      * exists dE, inp. repeat split; auto.
        -- apply nth_error_set_nth_eq. lia.
        -- apply nth_error_set_nth_eq. lia.
        -- destruct (S j =? length (W self)); [assumption|].
           destruct Hd as (dn & Hdn & Hh). exists dn. split; [|assumption].
           rewrite nth_error_set_nth_ne by lia. assumption.
      * apply bwd_rec_set_nth; [assumption|]. apply Hrec. lia.
Qed.

(** The backward pass succeeds and treats every layer. *)
Lemma backward_pass_spec :
  exists nabla_W log,
    backward_pass self d_goal d_f_list output_data batch_data batch_idx
      batch_size z f_z = Ok (nabla_W, log)
    /\ length nabla_W = length (W self)
    /\ forall i, i < length (W self) -> bwd nabla_W log i.
Proof.
  unfold backward_pass. apply backward_loop_spec.
  - lia.
  - apply repeat_length.
  - apply repeat_length.
  - reflexivity.
  - lia.
  - intros i Hi. lia.
Qed.

End BackwardPass.

(** ** The error terms and the gradients of a batch (C1, C2, C3) *)

Section ErrorTerms.
Context {R : Type} {SR : Scalar R} {EX : Externals R}.
Local Abbreviation matrix := (ndarray R).

Lemma column_S (j : nat) (rs : list (list R)) :
  column (S j) rs = column j (map (@tl R) rs).
Proof.
  unfold column. rewrite map_map. apply map_ext.
  intros [|a r]; destruct j; reflexivity.
Qed.

(** Dropping row 0 of the transpose is transposing without column 0. *)
Lemma drop_row0_transpose (m : matrix) :
  drop_row0 (transpose m) = transpose (drop_col0 m).
Proof.
  unfold drop_row0, transpose, drop_col0. simpl. f_equal.
  destruct (shape1 m) as [|n]; [reflexivity|].
  simpl. rewrite Nat.sub_0_r, <- seq_shift, map_map.
  apply map_ext. intros j. apply column_S.
Qed.

Lemma mul_scal_1 (m : matrix) :
  (forall x : R, rmul x r1 = x) -> mul_scal m r1 = m.
Proof.
  intros H1. destruct m as [s0 s1 rs]. unfold mul_scal, nd_map. simpl. f_equal.
  rewrite <- (map_id rs) at 2. apply map_ext. intros r.
  rewrite <- (map_id r) at 2. apply map_ext. intros x. apply H1.
Qed.

Variables (self : MLP R) (d_goal : d_goal_fn R)
  (d_f_list : list (matrix -> matrix)) (output_data batch_data : matrix)
  (batch_idx : list nat) (batch_size : nat).
Hypothesis Hnet : net_ok self d_goal d_f_list.
Hypothesis Hbatch : batch_ok self output_data batch_data batch_idx.

(** Both passes succeed on a batch the network accepts. *)
Lemma passes_spec :
  exists z f_z nabla_W dE_dz,
    forward_pass self batch_data = Ok (z, f_z)
    /\ backward_pass self d_goal d_f_list output_data batch_data batch_idx
         batch_size z f_z = Ok (nabla_W, dE_dz)
    /\ length z = length (W self) /\ length f_z = length (W self)
    /\ length nabla_W = length (W self)
    /\ (forall i, i < length (W self) -> fwd_rec self batch_data z f_z i)
    /\ (forall i, i < length (W self) ->
          bwd_rec self d_goal d_f_list output_data batch_data batch_idx
            batch_size z f_z nabla_W dE_dz i).
Proof.
  destruct (forward_pass_spec self d_goal d_f_list batch_data Hnet (bo_input Hbatch))
    as (z & f_z & Hf & Hz & Hfz & Hfwd).
  destruct (backward_pass_spec self d_goal d_f_list output_data batch_data
              batch_idx batch_size z f_z Hnet Hbatch Hz Hfz Hfwd)
    as (nabla_W & log & Hb & Hn & Hbwd).
  exists z, f_z, nabla_W, log. repeat split; auto.
Qed.

(** The backward pass leaves a gradient of the shape of the weights for
    every layer. *)
Lemma passes_nabla_ok :
  exists z f_z nabla_W dE_dz,
    forward_pass self batch_data = Ok (z, f_z)
    /\ backward_pass self d_goal d_f_list output_data batch_data batch_idx
         batch_size z f_z = Ok (nabla_W, dE_dz)
    /\ nabla_ok (W self) nabla_W.
Proof.
  destruct passes_spec as (z & f_z & nabla_W & log & Hf & Hb & Hz & Hfz & Hn & Hfwd & Hbwd).
  exists z, f_z, nabla_W, log. split; [assumption|]. split; [assumption|].
  intros i Wi HWi.
  assert (Hi : i < length (W self)) by (apply nth_error_Some; congruence).
  destruct (Hbwd i Hi) as (d & inp & _ & Hin & Hnab & _ & Hd1 & _).
  destruct (Hfwd i Hi) as (Wi' & f & inp' & zi & HW & _ & Hin' & _ & _ & _ & _ & Hi1).
  replace inp' with inp in * by congruence.
  replace Wi' with Wi in * by congruence.
  eexists. split; [exact Hnab|].
  unfold shape. simpl. rewrite (Hd1 Wi HWi), Hi1. reflexivity.
Qed.

End ErrorTerms.

Section ErrorTermTheorems.
Context {R : Type} {SR : Scalar R} {EX : Externals R}.
Local Abbreviation matrix := (ndarray R).

(** C1. On every batch the network accepts, the forward and backward
    passes succeed, and for every hidden layer [i] the error term is
    [W[i+1]] without its column 0, transposed, times the transposed error
    term of layer [i+1], transposed back and multiplied elementwise by
    [d_f_list[i](z[i])], where [z[i]] is the pre-activation the forward
    pass recorded.  Column 0 of [W[i+1]] does not occur in it. *)
Theorem C1_hidden_error_term (self : MLP R) (d_goal : d_goal_fn R)
    (d_f_list : list (matrix -> matrix)) (output_data batch_data : matrix)
    (batch_idx : list nat) (batch_size : nat) :
  net_ok self d_goal d_f_list ->
  batch_ok self output_data batch_data batch_idx ->
  exists z f_z nabla_W dE_dz,
    forward_pass self batch_data = Ok (z, f_z)
    /\ backward_pass self d_goal d_f_list output_data batch_data batch_idx
         batch_size z f_z = Ok (nabla_W, dE_dz)
    /\ forall i, S i < length (W self) ->
         exists Wn d_f zi d dn,
           nth_error (W self) (S i) = Some Wn
           /\ nth_error d_f_list i = Some d_f
           /\ nth_error z i = Some zi
           /\ nth_error dE_dz i = Some (Some d)
           /\ nth_error dE_dz (S i) = Some (Some dn)
           /\ d = zip_same rmul
                    (transpose (matmul (transpose (drop_col0 Wn)) (transpose dn)))
                    (d_f zi).
Proof.
  intros Hnet Hbatch.
  destruct (passes_spec self d_goal d_f_list output_data batch_data batch_idx
              batch_size Hnet Hbatch)
    as (z & f_z & nabla_W & log & Hf & Hb & Hz & Hfz & Hn & Hfwd & Hbwd).
  exists z, f_z, nabla_W, log. split; [assumption|]. split; [assumption|].
  intros i Hi.
  destruct (Hbwd i) as (d & inp & Hlog & _ & _ & _ & _ & Hstep); [lia|].
  replace (S i =? length (W self)) with false in Hstep
    by (symmetry; apply Nat.eqb_neq; lia).
  destruct Hstep as (dn & Hdn & Hh).
  destruct (Hbwd (S i)) as (dn' & _ & Hlog' & _ & _ & Hn0 & Hn1 & _); [lia|].
  replace dn' with dn in * by congruence.
  destruct (hidden_dE_dz_Ok self d_goal d_f_list batch_data z f_z Hnet Hz Hfz
              Hfwd i dn Hi Hn0 Hn1) as (Wn & d_f & zi & HWn & Hdf & Hzi & Hval & _).
  exists Wn, d_f, zi, d, dn. repeat split; auto.
  rewrite Hval in Hh. rewrite drop_row0_transpose in Hh. congruence.
Qed.

(** C2, as the code has it.  On every batch the network accepts, the
    output-layer error term is [d_goal(targets, output)] multiplied
    elementwise by [d_f_list[last](z[last])] when [d_goal] is not the
    function [d_cross_entropy]; when it is, the factor is the scalar
    [1.0], whatever the output activation is, and the error term is
    [d_goal(targets, output)] alone. *)
Theorem C2_output_error_term (self : MLP R) (d_goal : d_goal_fn R)
    (d_f_list : list (matrix -> matrix)) (output_data batch_data : matrix)
    (batch_idx : list nat) (batch_size : nat) :
  net_ok self d_goal d_f_list ->
  batch_ok self output_data batch_data batch_idx ->
  (forall x : R, rmul x r1 = x) ->
  exists z f_z nabla_W dE_dz targets out d_f z_last d,
    forward_pass self batch_data = Ok (z, f_z)
    /\ backward_pass self d_goal d_f_list output_data batch_data batch_idx
         batch_size z f_z = Ok (nabla_W, dE_dz)
    /\ take_rows output_data batch_idx = Ok targets
    /\ py_last f_z = Ok out
    /\ nth_error d_f_list (length (W self) - 1) = Some d_f
    /\ nth_error z (length (W self) - 1) = Some z_last
    /\ nth_error dE_dz (length (W self) - 1) = Some (Some d)
    /\ d = if is_d_cross_entropy d_goal
           then call_d_goal d_goal targets out
           else zip_same rmul (call_d_goal d_goal targets out) (d_f z_last).
Proof.
  intros Hnet Hbatch Hmul1.
  destruct (passes_spec self d_goal d_f_list output_data batch_data batch_idx
              batch_size Hnet Hbatch)
    as (z & f_z & nabla_W & log & Hf & Hb & Hz & Hfz & Hn & Hfwd & Hbwd).
  pose proof (no_layers Hnet) as HL.
  assert (Hj : S (length (W self) - 1) = length (W self)) by lia.
  set (j := length (W self) - 1) in *.
  destruct (Hbwd j) as (d & inp & Hlog & _ & _ & _ & _ & Hstep); [lia|].
  rewrite Hj, Nat.eqb_refl in Hstep. destruct Hstep as (t & Ht & Hout).
  destruct (output_dE_dz_Ok self d_goal d_f_list output_data batch_data batch_idx
              z f_z Hnet Hbatch Hz Hfz Hfwd j Hj)
    as (t' & out & d_f & zj & Ht' & Hlast & Hdf & Hzj & Hval & _).
  replace t' with t in * by congruence.
  exists z, f_z, nabla_W, log, t, out, d_f, zj, d. repeat split; auto.
  rewrite Hval in Hout. injection Hout as <-.
  destruct (is_d_cross_entropy d_goal); [|reflexivity].
  now apply mul_scal_1.
Qed.

(** C3. On every batch the network accepts, the gradient of every layer
    [i] is the transpose of (the layer's input, transposed, times the
    layer's error term), divided by [batch_size]; the input of layer 0 is
    the batch itself (rows of the bias-augmented data) and the input of
    layer [i > 0] is the recorded activation of layer [i - 1] with a
    column of ones in front; the gradient has the shape of [W[i]]. *)
Theorem C3_gradient (self : MLP R) (d_goal : d_goal_fn R)
    (d_f_list : list (matrix -> matrix)) (output_data batch_data : matrix)
    (batch_idx : list nat) (batch_size : nat) :
  net_ok self d_goal d_f_list ->
  batch_ok self output_data batch_data batch_idx ->
  exists z f_z nabla_W dE_dz,
    forward_pass self batch_data = Ok (z, f_z)
    /\ backward_pass self d_goal d_f_list output_data batch_data batch_idx
         batch_size z f_z = Ok (nabla_W, dE_dz)
    /\ length nabla_W = length (W self)
    /\ forall i, i < length (W self) ->
         exists Wi inp d grad,
           nth_error (W self) i = Some Wi
           /\ nth_error dE_dz i = Some (Some d)
           /\ match i with
              | 0 => inp = batch_data
              | S j => exists fz, nth_error f_z j = Some fz /\ inp = c_ones fz
              end
           /\ nth_error nabla_W i = Some (Some grad)
           /\ grad = div_scal (transpose (matmul (transpose inp) d))
                       (of_nat batch_size)
           /\ shape grad = shape Wi.
Proof.
  intros Hnet Hbatch.
  destruct (passes_spec self d_goal d_f_list output_data batch_data batch_idx
              batch_size Hnet Hbatch)
    as (z & f_z & nabla_W & log & Hf & Hb & Hz & Hfz & Hn & Hfwd & Hbwd).
  exists z, f_z, nabla_W, log. split; [assumption|]. split; [assumption|].
  split; [assumption|].
  intros i Hi.
  destruct (Hbwd i Hi) as (d & inp & Hlog & Hin & Hnab & Hd0 & Hd1 & _).
  destruct (Hfwd i Hi) as (Wi & f & inp' & zi & HW & _ & Hin' & _ & _ & _ & Hi0 & Hi1).
  replace inp' with inp in * by congruence.
  exists Wi, inp, d. eexists. split; [assumption|]. split; [assumption|].
  split.
  { unfold layer_input in Hin. destruct i as [|j]; simpl in Hin.
    - congruence.
    - rewrite Nat.sub_0_r in Hin. unfold py_get in Hin.
      destruct (nth_error f_z j) as [fz|]; [|discriminate].
      exists fz. split; [reflexivity|]. simpl in Hin. congruence. }
  split; [exact Hnab|]. split; [reflexivity|].
  unfold shape. simpl. rewrite (Hd1 Wi HW), Hi1. reflexivity.
Qed.

End ErrorTermTheorems.

(** ** The weight update of a layer *)

Section LayerUpdate.
Context {R : Type} {SR : Scalar R} {EX : Externals R}.
Local Abbreviation matrix := (ndarray R).

Lemma nth_error_shapes (l l' : list matrix) (i : nat) (a : matrix) :
  map shape l' = map shape l -> nth_error l i = Some a ->
  exists b, nth_error l' i = Some b /\ shape b = shape a.
Proof.
  intros Hm Hn.
  assert (H : nth_error (map shape l') i = Some (shape a)).
  { rewrite Hm, nth_error_map, Hn. reflexivity. }
  rewrite nth_error_map in H.
  destruct (nth_error l' i) as [b|]; [|discriminate].
  exists b. split; [reflexivity|]. simpl in H. congruence.
Qed.

Lemma shape_zip_same {A B C : Type} (f : A -> B -> C) (m : ndarray A) (m' : ndarray B) :
  shape (zip_same f m m') = shape m.
Proof. reflexivity. Qed.

Lemma shape_nd_map {A B : Type} (f : A -> B) (m : ndarray A) :
  shape (nd_map f m) = shape m.
Proof. reflexivity. Qed.

Lemma shape_layer_delta (h : hyper R) (gain : option matrix) (Wi last grad : matrix) :
  shape last = shape Wi ->
  (forall gi, gain = Some gi -> shape gi = shape Wi) ->
  shape (layer_delta h gain Wi last grad) = shape Wi.
Proof.
  intros Hl Hg. unfold layer_delta.
  destruct gain as [gi|].
  - rewrite shape_zip_same. unfold scal_mul. rewrite shape_nd_map. now apply Hg.
  - unfold scal_mul at 1. rewrite shape_nd_map.
    destruct (d_regularization_norm h).
    + rewrite shape_zip_same, shape_zip_same. unfold scal_mul.
      now rewrite shape_nd_map.
    + unfold add_scal. rewrite shape_nd_map, shape_zip_same. unfold scal_mul.
      now rewrite shape_nd_map.
Qed.

Lemma shape_fields (a b : matrix) :
  shape a = shape b -> shape0 a = shape0 b /\ shape1 a = shape1 b.
Proof. apply shape_eq. Qed.

Variables (h : hyper R) (st : train_state R) (nabla_W : list (option matrix))
  (i : nat) (Wi last grad : matrix).
Hypothesis Hhyper : hyper_ok h (W (net st)).
Hypothesis Hstate : state_ok h st.
Hypothesis HWi : nth_error (W (net st)) i = Some Wi.
Hypothesis Hlast : nth_error (last_delta_W st) i = Some last.
Hypothesis Hgrad : nth_error nabla_W i = Some (Some grad).
Hypothesis Hgrad_shape : shape grad = shape Wi.

Lemma last_shape : shape last = shape Wi.
Proof.
  destruct (nth_error_shapes _ _ i Wi (so_last Hstate) HWi) as (b & Hb & Hs).
  congruence.
Qed.

Lemma gain_shape (gi : matrix) :
  gain_of (nlg st) i = Some gi -> shape gi = shape Wi.
Proof.
  unfold gain_of. pose proof (so_nlg Hstate) as Hn.
  destruct (nlg st) as [g|]; [|discriminate].
  destruct Hn as [_ Hm]. intros Hgi.
  destruct (nth_error_shapes _ _ i Wi Hm HWi) as (b & Hb & Hs). congruence.
Qed.

Lemma gain_defined (g : list matrix) :
  nlg st = Some g -> exists gi, nth_error g i = Some gi /\ shape gi = shape Wi.
Proof.
  intros Hg. pose proof (so_nlg Hstate) as Hn. rewrite Hg in Hn.
  destruct Hn as [_ Hm]. apply (nth_error_shapes _ _ i Wi Hm HWi).
Qed.

Lemma regularization_penalty_Ok :
  regularization_penalty h i st
  = (st, Ok (match d_regularization_norm h with
             | None => None
             | Some d => Some (zeroed_col0 (returned_value (d Wi) Wi))
             end)).
Proof.
  unfold regularization_penalty.
  destruct (d_regularization_norm h) as [d|] eqn:Ed; [|reflexivity].
  unfold mbind at 1, get at 1. unfold mbind at 1, lift at 1.
  rewrite (py_get_nth_error _ _ _ HWi).
  destruct (ho_reg Hhyper Ed) as [Hd Hcols].
  destruct (Hd Wi) as (m & -> & Hm). cbn [returned_value].
  assert (Hc : shape1 m <> 0).
  { destruct (shape_fields _ _ Hm) as [_ ->].
    rewrite Forall_forall in Hcols. apply Hcols.
    eapply nth_error_In; eauto. }
  unfold mbind, lift, ret, zero_col0. apply Nat.eqb_neq in Hc. rewrite Hc.
  reflexivity.
Qed.

(** A derivative that returns the weight matrix itself: clearing column 0
    of the penalty clears column 0 of the weights of the layer. *)
Lemma regularization_penalty_argument (d : matrix -> returned matrix) :
  d_regularization_norm h = Some d -> d Wi = Argument -> shape1 Wi <> 0 ->
  regularization_penalty h i st
  = (set_W st (set_nth (W (net st)) i (zeroed_col0 Wi)),
     Ok (Some (zeroed_col0 Wi))).
Proof.
  intros Ed Ha Hc. unfold regularization_penalty. rewrite Ed.
  unfold mbind at 1, get at 1. unfold mbind at 1, lift at 1.
  rewrite (py_get_nth_error _ _ _ HWi), Ha.
  unfold mbind, lift, put, ret, zero_col0. apply Nat.eqb_neq in Hc. rewrite Hc.
  fold (zeroed_col0 Wi).
  rewrite py_set_lt by (apply nth_error_Some; congruence). reflexivity.
Qed.

Lemma compute_delta_W_Ok :
  compute_delta_W h st nabla_W
    (match d_regularization_norm h with
     | None => None
     | Some d => Some (zeroed_col0 (returned_value (d Wi) Wi))
     end) i
  = Ok (layer_delta h (gain_of (nlg st) i) Wi last grad).
Proof.
  unfold compute_delta_W, layer_delta.
  pose proof last_shape as Hls. apply shape_fields in Hls. destruct Hls as [Hl0 Hl1].
  pose proof (shape_fields _ _ Hgrad_shape) as [Hg0 Hg1].
  assert (Hrate :
    match nlg st with
    | None => Ok None
    | Some g => gi <- py_get g i ;; Ok (Some (scal_mul (learning_rate h) gi))
    end = Ok (option_map (scal_mul (learning_rate h)) (gain_of (nlg st) i))).
  { destruct (nlg st) as [g|] eqn:Eg; [|reflexivity].
    destruct (gain_defined g Eg) as (gi & Hgi & _).
    simpl. rewrite (py_get_nth_error _ _ _ Hgi), Hgi. reflexivity. }
  rewrite Hrate. cbn [rbind].
  rewrite (py_get_nth_error _ _ _ Hlast). cbn [rbind].
  rewrite (py_get_nth_error _ _ _ Hgrad). cbn [rbind].
  unfold nd_add. rewrite nd_zip_same by (simpl; congruence). cbn [rbind].
  set (s1 := zip_same radd (scal_mul (momentum_rate h) last) grad).
  assert (Hs2 :
    match
      match d_regularization_norm h with
      | None => None
      | Some d => Some (zeroed_col0 (returned_value (d Wi) Wi))
      end
    with
    | None => Ok (add_scal s1 r0)
    | Some p => nd_zip radd s1 (scal_mul (regularization_rate h) p)
    end
    = Ok (match d_regularization_norm h with
          | None => add_scal s1 r0
          | Some d => zip_same radd s1
                        (scal_mul (regularization_rate h)
                           (zeroed_col0 (returned_value (d Wi) Wi)))
          end)).
  { destruct (d_regularization_norm h) as [d|] eqn:Ed; [|reflexivity].
    destruct (ho_reg Hhyper Ed) as [Hd _].
    destruct (Hd Wi) as (m & -> & Hm). cbn [returned_value].
    destruct (shape_fields _ _ Hm) as [Hd0 Hd1].
    apply nd_zip_same; simpl; congruence. }
  rewrite Hs2. cbn [rbind].
  destruct (gain_of (nlg st) i) as [gi|] eqn:Eg; [|reflexivity].
  simpl. pose proof (gain_shape gi Eg) as Hgs.
  destruct (shape_fields _ _ Hgs) as [Hgs0 Hgs1].
  unfold nd_mul. apply nd_zip_same.
  - simpl. destruct (d_regularization_norm h); simpl; congruence.
  - simpl. destruct (d_regularization_norm h); simpl; congruence.
Qed.

Lemma update_layer_spec :
  update_layer h nabla_W i st
  = (updated h st i Wi last (layer_delta h (gain_of (nlg st) i) Wi last grad), Ok tt).
Proof.
  set (delta := layer_delta h (gain_of (nlg st) i) Wi last grad).
  assert (Hds : shape delta = shape Wi).
  { apply shape_layer_delta; [apply last_shape | apply gain_shape]. }
  destruct (shape_fields _ _ Hds) as [Hds0 Hds1].
  pose proof last_shape as Hls. apply shape_fields in Hls. destruct Hls as [Hl0 Hl1].
  assert (Hi : i < length (W (net st))) by (apply nth_error_Some; congruence).
  assert (Hil : i < length (last_delta_W st)) by (apply nth_error_Some; congruence).
  unfold update_layer, mbind at 1. rewrite regularization_penalty_Ok.
  unfold mbind at 1, get at 1.
  unfold mbind at 1, lift at 1. rewrite compute_delta_W_Ok. fold delta.
  unfold mbind at 1.
  assert (Hgainstep :
    update_gain h delta i st
    = (mk_state (net st) (last_delta_W st)
         (match nlg st with
          | None => None
          | Some g =>
              Some (match nth_error g i with
                    | Some gi => set_nth g i (layer_gain h gi delta last)
                    | None => g
                    end)
          end) (cost st) (cv_cost st), Ok tt)).
  { unfold update_gain, mbind at 1, get at 1.
    pose proof (so_nlg Hstate) as Hn.
    destruct (nlg st) as [g|] eqn:Eg.
    - destruct Hn as [Hsome Hm].
      destruct (nth_error_shapes _ _ i Wi Hm HWi) as (gi & Hgi & Hgs).
      unfold layer_gain.
      destruct (neural_local_gain h) as [[[[b pn] mn] mx]|]; [|congruence].
      unfold mbind, lift, put.
      rewrite (py_get_nth_error _ _ _ Hlast).
      unfold nd_mul. rewrite nd_zip_same by congruence.
      rewrite (py_get_nth_error _ _ _ Hgi), Hgi.
      rewrite py_set_lt by (apply nth_error_Some; congruence).
      unfold set_nlg. reflexivity.
    - unfold ret. destruct st. simpl in *. subst. reflexivity. }
  rewrite Hgainstep.
  unfold mbind, get, lift, put. cbn [net W].
  rewrite (py_get_nth_error _ _ _ HWi).
  unfold nd_isub. rewrite nd_zip_inplace_same by congruence.
  rewrite py_set_lt by assumption.
  unfold set_W. cbn [last_delta_W].
  rewrite py_set_lt by assumption.
  reflexivity.
Qed.

End LayerUpdate.

(** ** The weight update of all layers *)

Section UpdateLoop.
Context {R : Type} {SR : Scalar R} {EX : Externals R}.
Local Abbreviation matrix := (ndarray R).

Lemma Forall_shapes (P : nat * nat -> Prop) (l l' : list matrix) :
  map shape l' = map shape l ->
  Forall (fun w => P (shape w)) l -> Forall (fun w => P (shape w)) l'.
Proof.
  intros Hm Hl. rewrite Forall_forall in *. intros b Hb.
  apply In_nth_error in Hb. destruct Hb as (i & Hi).
  destruct (nth_error_shapes l' l i b) as (a & Ha & Hs); [congruence | assumption |].
  rewrite <- Hs. apply Hl. eapply nth_error_In; eauto.
Qed.

Lemma hyper_ok_shapes (h : hyper R) (Ws Ws' : list matrix) :
  map shape Ws' = map shape Ws -> hyper_ok h Ws -> hyper_ok h Ws'.
Proof.
  intros Hm [Hreg Hgain]. split; [|assumption].
  intros d Hd. destruct (Hreg d Hd) as [Hsp Hall]. split; [assumption|].
  apply (Forall_shapes (fun s => snd s <> 0) Ws Ws' Hm Hall).
Qed.

Lemma nabla_ok_shapes (Ws Ws' : list matrix) (nabla_W : list (option matrix)) :
  map shape Ws' = map shape Ws -> nabla_ok Ws nabla_W -> nabla_ok Ws' nabla_W.
Proof.
  intros Hm Hn i Wi' Hi.
  destruct (nth_error_shapes Ws' Ws i Wi') as (Wi & HWi & Hs);
    [congruence | assumption |].
  destruct (Hn i Wi HWi) as (grad & Hg & Hgs). exists grad. split; congruence.
Qed.

Variables (h : hyper R) (nabla_W : list (option matrix)).

Lemma updated_state_ok (st : train_state R) (i : nat) (Wi last delta : matrix) :
  hyper_ok h (W (net st)) -> state_ok h st ->
  nth_error (W (net st)) i = Some Wi ->
  nth_error (last_delta_W st) i = Some last ->
  shape delta = shape Wi ->
  W_shapes (updated h st i Wi last delta) = W_shapes st
  /\ state_ok h (updated h st i Wi last delta).
Proof.
  intros Hh [Hl Hn] HWi Hlast Hd.
  assert (HW : W_shapes (updated h st i Wi last delta) = W_shapes st).
  { unfold W_shapes, updated. cbn [net W]. now apply set_nth_shapes with (w := Wi). }
  split; [assumption|]. unfold W_shapes in HW. split.
  - rewrite HW. unfold updated. cbn [last_delta_W].
    rewrite <- Hl. apply set_nth_shapes with (w := last); [assumption|].
    destruct (nth_error_shapes _ _ i Wi Hl HWi) as (b & Hb & Hs). congruence.
  - rewrite HW. unfold updated at 1. cbn [nlg].
    destruct (nlg st) as [g|]; [|assumption].
    destruct Hn as [Hsome Hm]. split; [assumption|].
    destruct (nth_error g i) as [gi|] eqn:Eg; [|assumption].
    rewrite <- Hm. apply set_nth_shapes with (w := gi); [assumption|].
    unfold layer_gain.
    destruct (neural_local_gain h) as [[[[b pn] mn] mx]|]; [|reflexivity].
    apply (ho_gain Hh).
Qed.

Lemma update_loop_spec :
  forall cnt k st,
    k + cnt = length (W (net st)) ->
    hyper_ok h (W (net st)) -> state_ok h st ->
    nabla_ok (W (net st)) nabla_W ->
    exists st',
      for_each (seq k cnt) (update_layer h nabla_W) st = (st', Ok tt)
      /\ state_ok h st' /\ W_shapes st' = W_shapes st
      /\ f_list (net st') = f_list (net st)
      /\ cost st' = cost st /\ cv_cost st' = cv_cost st
      /\ (forall i, i < k ->
            nth_error (W (net st')) i = nth_error (W (net st)) i
            /\ nth_error (last_delta_W st') i = nth_error (last_delta_W st) i)
      /\ (forall i Wi last grad,
            k <= i ->
            nth_error (W (net st)) i = Some Wi ->
            nth_error (last_delta_W st) i = Some last ->
            nth_error nabla_W i = Some (Some grad) ->
            let delta := layer_delta h (gain_of (nlg st) i) Wi last grad in
            nth_error (W (net st')) i = Some (zip_same rsub Wi delta)
            /\ nth_error (last_delta_W st') i = Some delta).
Proof.
  induction cnt as [|cnt IH]; intros k st Hk Hh Hs Hn.
  - simpl. exists st. split; [reflexivity|]. split; [assumption|].
    do 4 (split; [reflexivity|]). split; [auto|].
    intros i Wi last grad Hi HWi. exfalso.
    assert (i < length (W (net st))) by (apply nth_error_Some; congruence). lia.
  - destruct (py_get_lt (W (net st)) k) as (Wk & _ & HWk); [lia|].
    destruct (nth_error_shapes _ _ k Wk (so_last Hs) HWk) as (lastk & Hlk & Hlks).
    destruct (Hn k Wk HWk) as (gradk & Hgk & Hgks).
    pose proof (update_layer_spec h st nabla_W k Wk lastk gradk Hh Hs HWk Hlk Hgk Hgks)
      as Hstep.
    set (dk := layer_delta h (gain_of (nlg st) k) Wk lastk gradk) in *.
    assert (Hdk : shape dk = shape Wk).
    { apply shape_layer_delta; [assumption|].
      intros gi Hgi. eapply gain_shape; eauto. }
    destruct (updated_state_ok st k Wk lastk dk Hh Hs HWk Hlk Hdk) as [HW1 Hs1].
    set (st1 := updated h st k Wk lastk dk) in *.
    assert (HW1' : map shape (W (net st1)) = map shape (W (net st))) by exact HW1.
    destruct (IH (S k) st1) as (st' & Hrun & Hs' & HW' & Hf' & Hc' & Hcv' & Hlow & Hhigh).
    { rewrite <- (length_map shape), HW1', length_map. lia. }
    { apply (hyper_ok_shapes h _ _ HW1' Hh). }
    { assumption. }
    { apply (nabla_ok_shapes _ _ nabla_W HW1' Hn). }
    exists st'. simpl. unfold mbind. rewrite Hstep. rewrite Hrun.
    split; [reflexivity|]. split; [assumption|].
    split; [congruence|]. split; [rewrite Hf'; reflexivity|].
    split; [rewrite Hc'; reflexivity|]. split; [rewrite Hcv'; reflexivity|].
    assert (Hi_k : k < length (W (net st))) by (apply nth_error_Some; congruence).
    assert (Hl_k : k < length (last_delta_W st)) by (apply nth_error_Some; congruence).
    split.
    + intros i Hi. destruct (Hlow i) as [Ha Hb]; [lia|]. rewrite Ha, Hb.
      unfold st1, updated. cbn [net W last_delta_W].
      rewrite !nth_error_set_nth_ne by lia. auto.
    + intros i Wi last grad Hi HWi Hlast Hgrad.
      assert (Hc : i = k \/ S k <= i) by lia. destruct Hc as [->|Hc].
      * destruct (Hlow k) as [Ha Hb]; [lia|]. rewrite Ha, Hb.
        unfold st1, updated. cbn [net W last_delta_W].
        rewrite !nth_error_set_nth_eq by assumption.
        assert (Wi = Wk) by congruence. assert (last = lastk) by congruence.
        assert (grad = gradk) by congruence. subst. auto.
      * assert (Hg1 : gain_of (nlg st1) i = gain_of (nlg st) i).
        { unfold st1, updated, gain_of. cbn [nlg].
          destruct (nlg st) as [g|]; [|reflexivity].
          destruct (nth_error g k); [|reflexivity].
          apply nth_error_set_nth_ne. lia. }
        specialize (Hhigh i Wi last grad Hc). cbv zeta in Hhigh.
        rewrite Hg1 in Hhigh.
        apply Hhigh.
        -- unfold st1, updated. cbn [net W].
           rewrite nth_error_set_nth_ne by lia. assumption.
        -- unfold st1, updated. cbn [last_delta_W].
           rewrite nth_error_set_nth_ne by lia. assumption.
        -- assumption.
Qed.

End UpdateLoop.

(** ** One batch *)

Section Batch.
Context {R : Type} {SR : Scalar R} {EX : Externals R}.
Local Abbreviation matrix := (ndarray R).

Lemma Forall_firstn' {A : Type} (P : A -> Prop) (n : nat) (l : list A) :
  Forall P l -> Forall P (firstn n l).
Proof.
  intros H. revert n. induction H as [|a l Ha Hl IH]; intros [|n]; simpl; auto.
Qed.

Lemma Forall_skipn' {A : Type} (P : A -> Prop) (n : nat) (l : list A) :
  Forall P l -> Forall P (skipn n l).
Proof.
  intros H. revert n. induction H as [|a l Ha Hl IH]; intros [|n]; simpl; auto.
Qed.

Lemma Forall_py_slice {A : Type} (P : A -> Prop) (a b : nat) (l : list A) :
  Forall P l -> Forall P (py_slice l a b).
Proof. intros H. unfold py_slice. now apply Forall_firstn', Forall_skipn'. Qed.

Variables (h : hyper R) (d_f_list : list (matrix -> matrix))
  (input_data output_data : matrix) (batch_size : nat)
  (idx_data : list nat) (i_in_batch : nat) (st : train_state R).
Hypothesis Hnet : net_ok (net st) (d_goal h) d_f_list.
Hypothesis Hhyper : hyper_ok h (W (net st)).
Hypothesis Hstate : state_ok h st.
Hypothesis Hdata : data_ok (net st) input_data output_data.
Hypothesis Hidx : Forall (fun i => i < shape0 input_data) idx_data.

Local Abbreviation batch_idx :=
  (py_slice idx_data i_in_batch (i_in_batch + batch_size)).

Lemma batch_data_Ok :
  exists batch_data,
    take_rows input_data batch_idx = Ok batch_data
    /\ batch_ok (net st) output_data batch_data batch_idx.
Proof.
  destruct (take_rows_Ok input_data batch_idx) as (b & Hb & Hb0 & Hb1).
  { now apply Forall_py_slice. }
  exists b. split; [assumption|]. split.
  - intros w0 Hw0. rewrite Hb1. now apply (do_input Hdata).
  - rewrite (do_rows Hdata). now apply Forall_py_slice.
  - congruence.
  - apply (do_output Hdata).
Qed.

(** A batch succeeds; it leaves the shapes, the activation functions and
    the cost histories alone, and updates every layer by [layer_delta]
    of the gradient the backward pass computed. *)
Lemma train_batch_spec :
  exists st' batch_data z f_z nabla_W dE_dz,
    take_rows input_data batch_idx = Ok batch_data
    /\ forward_pass (net st) batch_data = Ok (z, f_z)
    /\ backward_pass (net st) (d_goal h) d_f_list output_data batch_data
         batch_idx batch_size z f_z = Ok (nabla_W, dE_dz)
    /\ train_batch h d_f_list input_data output_data batch_size idx_data
         i_in_batch st = (st', Ok tt)
    /\ state_ok h st' /\ W_shapes st' = W_shapes st
    /\ f_list (net st') = f_list (net st)
    /\ cost st' = cost st /\ cv_cost st' = cv_cost st
    /\ nabla_ok (W (net st)) nabla_W
    /\ (forall l Wl last grad,
          nth_error (W (net st)) l = Some Wl ->
          nth_error (last_delta_W st) l = Some last ->
          nth_error nabla_W l = Some (Some grad) ->
          nth_error (W (net st')) l
          = Some (zip_same rsub Wl (layer_delta h (gain_of (nlg st) l) Wl last grad))
          /\ nth_error (last_delta_W st') l
             = Some (layer_delta h (gain_of (nlg st) l) Wl last grad)).
Proof.
  destruct batch_data_Ok as (batch_data & Hb & Hbok).
  destruct (passes_nabla_ok (net st) (d_goal h) d_f_list output_data batch_data
              batch_idx batch_size Hnet Hbok)
    as (z & f_z & nabla_W & log & Hf & Hbw & Hnab).
  destruct (update_loop_spec h nabla_W (length (W (net st))) 0 st)
    as (st' & Hrun & Hs' & HW' & Hf' & Hc' & Hcv' & _ & Hhigh); auto.
  exists st', batch_data, z, f_z, nabla_W, log.
  split; [assumption|]. split; [assumption|]. split; [assumption|].
  split.
  { unfold train_batch, mbind, lift, get. rewrite Hb, Hf, Hbw. exact Hrun. }
  repeat (split; [assumption|]).
  intros l Wl last grad HWl Hlast Hg. apply Hhigh; auto. lia.
Qed.

End Batch.

(** ** The weight update rule (C4) *)

Section WeightUpdate.
Context {R : Type} {SR : Scalar R} {EX : Externals R}.
Local Abbreviation matrix := (ndarray R).

Lemma add_scal_0 (m : matrix) :
  (forall x : R, radd x r0 = x) -> add_scal m r0 = m.
Proof.
  intros H0. destruct m as [s0 s1 rs]. unfold add_scal, nd_map. simpl. f_equal.
  rewrite <- (map_id rs) at 2. apply map_ext. intros r.
  rewrite <- (map_id r) at 2. apply map_ext. intros x. apply H0.
Qed.

Lemma layer_delta_claimed (h : hyper R) (gain : option matrix)
    (Wi last grad : matrix) :
  (forall x : R, radd x r0 = x) ->
  layer_delta h gain Wi last grad = claimed_delta h gain Wi last grad.
Proof.
  intros H0. unfold layer_delta, claimed_delta.
  destruct (d_regularization_norm h); [reflexivity|].
  now rewrite add_scal_0.
Qed.

(** C4. On every batch of a run whose state and data fit the network
    and whose penalty derivative, when there is one, returns a new array
    ([hyper_ok]), the batch succeeds and every layer [l] is updated by
    [delta = rate * (momentum_rate * last_delta + gradient
                     + regularization_rate * regularization_gradient)]:
    [rate] is [learning_rate], multiplied elementwise by the layer's gain
    matrix when adaptive gain is on; the regularization gradient is
    [d_regularization_norm(W[l])] with its column 0 set to zero, and the
    term is absent without [d_regularization_norm]; [gradient] is the
    one the backward pass of the batch computed.  The new weights are
    [W[l] - delta] and [delta] is the new [last_delta_W[l]].  A penalty
    derivative that returns the array it was given is outside this
    statement: the program then clears column 0 of the weights
    themselves. *)
Theorem C4_weight_update (h : hyper R) (d_f_list : list (matrix -> matrix))
    (input_data output_data : matrix) (batch_size : nat)
    (idx_data : list nat) (i_in_batch : nat) (st : train_state R) :
  (forall x : R, radd x r0 = x) ->
  net_ok (net st) (d_goal h) d_f_list ->
  hyper_ok h (W (net st)) ->
  state_ok h st ->
  data_ok (net st) input_data output_data ->
  Forall (fun i => i < shape0 input_data) idx_data ->
  let batch_idx := py_slice idx_data i_in_batch (i_in_batch + batch_size) in
  exists st' batch_data z f_z nabla_W dE_dz,
    take_rows input_data batch_idx = Ok batch_data
    /\ forward_pass (net st) batch_data = Ok (z, f_z)
    /\ backward_pass (net st) (d_goal h) d_f_list output_data batch_data
         batch_idx batch_size z f_z = Ok (nabla_W, dE_dz)
    /\ train_batch h d_f_list input_data output_data batch_size idx_data
         i_in_batch st = (st', Ok tt)
    /\ forall l, l < length (W (net st)) ->
         exists Wl last grad,
           nth_error (W (net st)) l = Some Wl
           /\ nth_error (last_delta_W st) l = Some last
           /\ nth_error nabla_W l = Some (Some grad)
           /\ nth_error (W (net st')) l
              = Some (zip_same rsub Wl
                        (claimed_delta h (gain_of (nlg st) l) Wl last grad))
           /\ nth_error (last_delta_W st') l
              = Some (claimed_delta h (gain_of (nlg st) l) Wl last grad).
Proof.
  intros H0 Hnet Hhyper Hstate Hdata Hidx batch_idx.
  destruct (train_batch_spec h d_f_list input_data output_data batch_size
              idx_data i_in_batch st Hnet Hhyper Hstate Hdata Hidx)
    as (st' & batch_data & z & f_z & nabla_W & log & Hb & Hf & Hbw & Hrun
        & _ & _ & _ & _ & _ & Hnab & Hupd).
  exists st', batch_data, z, f_z, nabla_W, log.
  repeat (split; [assumption|]).
  intros l Hl.
  destruct (py_get_lt (W (net st)) l Hl) as (Wl & _ & HWl).
  destruct (nth_error_shapes _ _ l Wl (so_last Hstate) HWl) as (last & Hlast & _).
  destruct (Hnab l Wl HWl) as (grad & Hgrad & _).
  exists Wl, last, grad. repeat (split; [assumption|]).
  rewrite <- (layer_delta_claimed h _ Wl last grad H0).
  now apply Hupd.
Qed.

End WeightUpdate.

(** ** Inference *)

Section ComputeOutput.
Context {R : Type} {SR : Scalar R} {EX : Externals R}.
Local Abbreviation matrix := (ndarray R).

Variables (self : MLP R) (d_goal : d_goal_fn R)
  (d_f_list : list (matrix -> matrix)).
Hypothesis Hnet : net_ok self d_goal d_f_list.

Lemma compute_loop_Ok :
  forall cnt k data,
    k + cnt = length (W self) ->
    (forall w, nth_error (W self) k = Some w -> shape1 data = shape1 w) ->
    exists out,
      compute_loop self (seq k cnt) data = Ok out
      /\ shape0 out = shape0 data.
Proof.
  induction cnt as [|cnt IH]; intros k data Hk Hw.
  - simpl. exists data. auto.
  - simpl.
    destruct (py_get_lt (f_list self) k) as (f & -> & Hf);
      [rewrite (no_f_len Hnet); lia|]. cbn [rbind].
    destruct (py_get_lt (W self) k) as (Wk & -> & HWk); [lia|]. cbn [rbind].
    rewrite dot_Ok by (simpl; auto). cbn [rbind].
    set (zk := matmul data (transpose Wk)).
    assert (Hfs : shape (f zk) = shape zk)
      by apply (shape_preserving_nth _ _ _ (no_f_shape Hnet) Hf).
    apply shape_eq in Hfs. destruct Hfs as [Hfs0 Hfs1]. simpl in Hfs0, Hfs1.
    destruct (IH (S k)
                (if negb (k =? length (W self) - 1) then c_ones (f zk) else f zk))
      as (out & Hout & Hs0).
    + lia.
    + intros w Hw'.
      assert (Hlt : S k < length (W self)) by (apply nth_error_Some; congruence).
      replace (k =? length (W self) - 1) with false
        by (symmetry; apply Nat.eqb_neq; lia).
      simpl. rewrite Hfs1. now rewrite (no_chained Hnet k Hw' HWk).
    + exists out. split; [assumption|]. rewrite Hs0.
      destruct (negb (k =? length (W self) - 1)); simpl; congruence.
Qed.

(** Inference succeeds on data of the width of [W[0]] and returns one
    row per example. *)
Lemma compute_output_Ok (data : matrix) :
  (forall w0, nth_error (W self) 0 = Some w0 -> shape1 data = shape1 w0) ->
  exists out,
    compute_output self data false = Ok out /\ shape0 out = shape0 data.
Proof.
  intros Hw. unfold compute_output.
  destruct (py_get_lt (W self) 0) as (W0 & -> & HW0);
    [pose proof (no_layers Hnet); lia|]. cbn [rbind].
  rewrite (Hw W0 HW0), Nat.eqb_refl. simpl.
  apply compute_loop_Ok; [lia|]. intros w Hw0. rewrite (Hw W0 HW0). congruence.
Qed.

End ComputeOutput.

(** ** Transport of the conditions of a run along equal shapes *)

Section Transport.
Context {R : Type} {SR : Scalar R} {EX : Externals R}.
Local Abbreviation matrix := (ndarray R).

Lemma chained_shapes (Ws Ws' : list matrix) :
  map shape Ws' = map shape Ws -> chained Ws -> chained Ws'.
Proof.
  intros Hm Hc i w w' Hw Hw'.
  destruct (nth_error_shapes Ws' Ws (S i) w) as (a & Ha & Hsa);
    [congruence | assumption |].
  destruct (nth_error_shapes Ws' Ws i w') as (b & Hb & Hsb);
    [congruence | assumption |].
  apply shape_eq in Hsa, Hsb. destruct Hsa as [_ Hsa], Hsb as [Hsb _].
  rewrite <- Hsa, <- Hsb. now apply (Hc i).
Qed.

Lemma length_shapes (Ws Ws' : list matrix) :
  map shape Ws' = map shape Ws -> length Ws' = length Ws.
Proof.
  intros Hm. rewrite <- (length_map shape Ws'), Hm. apply length_map.
Qed.

Lemma net_ok_shapes (self self' : MLP R) (d_goal : d_goal_fn R)
    (d_f_list : list (matrix -> matrix)) :
  map shape (W self') = map shape (W self) ->
  f_list self' = f_list self ->
  net_ok self d_goal d_f_list -> net_ok self' d_goal d_f_list.
Proof.
  intros Hm Hf [H1 H2 H3 H4 H5 H6 H7].
  pose proof (length_shapes _ _ Hm) as Hlen.
  split; try congruence; try assumption.
  now apply (chained_shapes (W self)).
Qed.

Lemma data_ok_shapes (self self' : MLP R) (input_data output_data : matrix) :
  map shape (W self') = map shape (W self) ->
  data_ok self input_data output_data -> data_ok self' input_data output_data.
Proof.
  intros Hm [H1 H2 H3].
  pose proof (length_shapes _ _ Hm) as Hlen.
  split; [| |assumption].
  - intros w0 Hw0.
    destruct (nth_error_shapes (W self') (W self) 0 w0) as (a & Ha & Hsa);
      [congruence | assumption |].
    apply shape_eq in Hsa. destruct Hsa as [_ Hsa]. rewrite <- Hsa. now apply H1.
  - intros w Hw. rewrite Hlen in Hw.
    destruct (nth_error_shapes (W self') (W self) (length (W self) - 1) w) as (a & Ha & Hsa);
      [congruence | exact Hw |].
    apply shape_eq in Hsa. destruct Hsa as [Hsa _]. rewrite <- Hsa. now apply H2.
Qed.

Lemma run_ok_shapes (h : hyper R) (d_f_list : list (matrix -> matrix))
    (input_data output_data : matrix) (st st' : train_state R) :
  W_shapes st' = W_shapes st ->
  f_list (net st') = f_list (net st) ->
  state_ok h st' ->
  run_ok h d_f_list input_data output_data st ->
  run_ok h d_f_list input_data output_data st'.
Proof.
  intros HW Hf Hs [H1 H2 H3 H4]. split.
  - now apply (net_ok_shapes (net st)).
  - now apply (hyper_ok_shapes h (W (net st))).
  - assumption.
  - now apply (data_ok_shapes (net st)).
Qed.

Lemma cv_ok_shapes (self self' : MLP R) (cv : option (matrix * matrix)) :
  map shape (W self') = map shape (W self) -> cv_ok self cv -> cv_ok self' cv.
Proof.
  intros Hm. unfold cv_ok. destruct cv as [[cv_in cv_out]|]; [|auto].
  intros H w0 Hw0.
  destruct (nth_error_shapes (W self') (W self) 0 w0) as (a & Ha & Hsa);
    [congruence | assumption |].
  apply shape_eq in Hsa. destruct Hsa as [_ Hsa]. rewrite <- Hsa. now apply H.
Qed.

End Transport.

(** ** One epoch *)

Section Epoch.
Context {R : Type} {SR : Scalar R} {EX : Externals R}.
Local Abbreviation matrix := (ndarray R).

Lemma py_min_nonempty (l : list R) : l <> [] -> exists m, py_min l = Ok m.
Proof. destruct l; [congruence|]. intros _. eexists. reflexivity. Qed.

Lemma py_last2_two {A : Type} (l : list A) :
  1 < length l -> exists a, py_last2 l = Ok a.
Proof.
  intros H. unfold py_last2.
  rewrite <- length_rev in H.
  destruct (rev l) as [|x [|y t]]; simpl in H; try lia.
  eexists. reflexivity.
Qed.

(** The stopping test is defined on the histories an epoch leaves. *)
Lemma stop_check_Ok (h : hyper R) (do_cv : bool) (n_iter : nat)
    (cost cv_cost : list R) :
  cost <> [] -> (do_cv = true -> cv_cost <> []) ->
  exists b, stop_check h do_cv n_iter cost cv_cost = Ok b.
Proof.
  intros Hc Hcv. unfold stop_check.
  destruct (Z.of_nat n_iter >? n_iter_stop_skip h)%Z; [|eexists; reflexivity].
  assert (Hne : (if do_cv then cv_cost else cost) <> []).
  { destruct do_cv; auto. }
  unfold threshold_test.
  destruct (py_last_nonempty _ Hne) as (c & ->).
  destruct (py_min_nonempty _ Hne) as (m & ->). cbn [rbind].
  destruct (rltb m _); [eexists; reflexivity|].
  destruct (py_last_nonempty _ Hc) as (c1 & Hc1). rewrite Hc1. cbn [rbind].
  destruct (rleb c1 _); [eexists; reflexivity|].
  assert (Hb3 : exists b3,
    (if 0 <? length cv_cost
     then cv <- py_last cv_cost ;; Ok (rleb cv (min_cv_cost h))
     else Ok false) = Ok b3).
  { destruct (0 <? length cv_cost) eqn:E; [|eexists; reflexivity].
    destruct (py_last_nonempty cv_cost) as (cv & ->).
    - intros ->. simpl in E. discriminate.
    - eexists. reflexivity. }
  destruct Hb3 as (b3 & ->). cbn [rbind].
  destruct b3; [eexists; reflexivity|].
  destruct (1 <? length cost) eqn:E; [|eexists; reflexivity].
  apply Nat.ltb_lt in E. destruct (py_last2_two cost E) as (c2 & ->).
  eexists. reflexivity.
Qed.

Variables (h : hyper R) (d_f_list : list (matrix -> matrix))
  (input_data output_data : matrix) (batch_size : nat)
  (cv : option (matrix * matrix)) (cv_goal : matrix -> matrix -> list R)
  (shuffle : nat -> list nat -> list nat).
Hypothesis Hbs : batch_size <> 0.
Hypothesis Hshuffle : shuffle_ok shuffle.

Local Abbreviation ok := (run_ok h d_f_list input_data output_data).

(** All the batches of an epoch succeed. *)
Lemma batches_spec (idx_data : list nat) :
  Forall (fun i => i < shape0 input_data) idx_data ->
  forall starts st,
    ok st ->
    exists st',
      for_each starts
        (train_batch h d_f_list input_data output_data batch_size idx_data) st
      = (st', Ok tt)
      /\ ok st' /\ W_shapes st' = W_shapes st
      /\ f_list (net st') = f_list (net st)
      /\ cost st' = cost st /\ cv_cost st' = cv_cost st.
Proof.
  intros Hidx. induction starts as [|i starts IH]; intros st Hok.
  - exists st. simpl. split; [reflexivity|]. split; [assumption|].
    do 3 (split; [reflexivity|]). reflexivity.
  - destruct (train_batch_spec h d_f_list input_data output_data batch_size
                idx_data i st (ro_net Hok) (ro_hyper Hok) (ro_state Hok)
                (ro_data Hok) Hidx)
      as (st1 & _ & _ & _ & _ & _ & _ & _ & _ & Hrun & Hs1 & HW1 & Hf1 & Hc1 & Hcv1 & _).
    assert (Hok1 : ok st1) by now apply (run_ok_shapes h d_f_list _ _ st).
    destruct (IH st1 Hok1) as (st' & Hrun' & Hok' & HW' & Hf' & Hc' & Hcv').
    exists st'. simpl. unfold mbind. rewrite Hrun, Hrun'.
    split; [reflexivity|]. split; [assumption|].
    repeat split; congruence.
Qed.

Lemma epoch_cost_Ok (g : matrix -> matrix -> list R) (self : MLP R)
    (data targets : matrix) :
  net_ok self (d_goal h) d_f_list ->
  (forall w0, nth_error (W self) 0 = Some w0 -> shape1 data = shape1 w0) ->
  exists out,
    compute_output self data false = Ok out
    /\ shape0 out = shape0 data
    /\ epoch_cost g h self data targets
       = Ok (rdiv (np_sum (map (fun x => radd x (reg_term h (W self)))
                             (g targets out)))
               (of_nat (shape0 data))).
Proof.
  intros Hnet Hw.
  destruct (compute_output_Ok self (d_goal h) d_f_list Hnet data Hw)
    as (out & Hout & Hs).
  exists out. split; [assumption|]. split; [assumption|].
  unfold epoch_cost. rewrite Hout. reflexivity.
Qed.

Lemma shuffled_in_range (n_iter : nat) :
  Forall (fun i => i < shape0 input_data)
    (shuffle n_iter (seq 0 (shape0 input_data))).
Proof.
  apply Forall_forall. intros i Hi.
  apply (Permutation_in i (Permutation_sym (Hshuffle n_iter _))) in Hi.
  apply in_seq in Hi. lia.
Qed.

(** An epoch succeeds: it runs its batches, appends one training cost
    (and one cross-validation cost when tracked) and evaluates the
    stopping test. *)
Lemma epoch_spec (n_iter : nat) (st : train_state R) :
  ok st -> cv_ok (net st) cv ->
  exists st' b out,
    epoch h d_f_list input_data output_data batch_size cv cv_goal shuffle
      n_iter st = (st', Ok b)
    /\ ok st' /\ W_shapes st' = W_shapes st
    /\ f_list (net st') = f_list (net st)
    /\ compute_output (net st') input_data false = Ok out
    /\ shape0 out = shape0 input_data
    /\ cost st'
       = cost st
         ++ [rdiv (np_sum (map (fun x => radd x (reg_term h (W (net st'))))
                             (goal h output_data out)))
               (of_nat (shape0 input_data))]
    /\ length (cv_cost st')
       = length (cv_cost st) + match cv with Some _ => 1 | None => 0 end
    /\ stop_check h (match cv with Some _ => true | None => false end)
         n_iter (cost st') (cv_cost st') = Ok b.
Proof.
  intros Hok Hcv. unfold epoch.
  set (idx_data := shuffle n_iter (seq 0 (shape0 input_data))).
  unfold py_range_step.
  pose proof Hbs as Hbs'. apply Nat.eqb_neq in Hbs'. rewrite Hbs'.
  set (starts := map (fun k => k * batch_size) _).
  unfold mbind at 1, lift at 1.
  destruct (batches_spec idx_data (shuffled_in_range n_iter) starts st Hok)
    as (s1 & Hrun & Hok1 & HW1 & Hf1 & Hc1 & Hcv1).
  unfold mbind at 1. rewrite Hrun.
  unfold mbind at 1, get at 1.
  destruct (epoch_cost_Ok (goal h) (net s1) input_data output_data
              (ro_net Hok1) (do_input (ro_data Hok1)))
    as (out & Hout & Hs0 & Hcost).
  unfold mbind at 1, lift at 1. rewrite Hcost.
  unfold mbind at 1, put at 1.
  set (c := rdiv _ _).
  set (s2 := set_cost s1 (cost s1 ++ [c])).
  assert (Hcv1' : cv_ok (net s1) cv) by now apply (cv_ok_shapes (net st)).
  assert (Hcvstep : exists s3,
    match cv with
    | Some (cv_in, cv_out) =>
        st0 <~ get ;;
        c0 <~ lift (epoch_cost cv_goal h (net st0) cv_in cv_out) ;;
        put (set_cv_cost st0 (cv_cost st0 ++ [c0]))
    | None => ret tt
    end s2 = (s3, Ok tt)
    /\ net s3 = net s1 /\ last_delta_W s3 = last_delta_W s1 /\ nlg s3 = nlg s1
    /\ cost s3 = cost s1 ++ [c]
    /\ length (cv_cost s3)
       = length (cv_cost s1) + match cv with Some _ => 1 | None => 0 end
    /\ (match cv with Some _ => true | None => false end = true ->
        cv_cost s3 <> [])).
  { destruct cv as [[cv_in cv_out]|].
    - destruct (epoch_cost_Ok cv_goal (net s1) cv_in cv_out (ro_net Hok1) Hcv1')
        as (cvout & _ & _ & Hcvcost).
      unfold mbind, get, lift, put.
      change (net s2) with (net s1).
      rewrite Hcvcost. eexists. split; [reflexivity|].
      unfold set_cv_cost, s2, set_cost. cbn.
      do 4 (split; [reflexivity|]).
      split; [rewrite length_app; reflexivity|].
      intros _ E. apply app_eq_nil in E. destruct E; discriminate.
    - exists s2. unfold ret, s2, set_cost. cbn.
      do 5 (split; [reflexivity|]).
      split; [lia | discriminate]. }
  destruct Hcvstep as (s3 & Hstep & Hn3 & Hl3 & Hg3 & Hc3 & Hlen3 & Hne3).
  unfold mbind at 1. rewrite Hstep.
  unfold mbind, get, lift.
  destruct (stop_check_Ok h (match cv with Some _ => true | None => false end)
              n_iter (cost s3) (cv_cost s3)) as (b & Hb).
  { rewrite Hc3. intros E. apply app_eq_nil in E. destruct E; discriminate. }
  { exact Hne3. }
  exists s3, b, out. rewrite Hb.
  split; [reflexivity|].
  assert (HW3 : W_shapes s3 = W_shapes st).
  { unfold W_shapes. rewrite Hn3. exact HW1. }
  assert (Hf3 : f_list (net s3) = f_list (net st)) by (rewrite Hn3; exact Hf1).
  split.
  { apply (run_ok_shapes h d_f_list _ _ st); auto.
    destruct (ro_state Hok1) as [Ha Hb']. split; rewrite Hn3.
    - now rewrite Hl3.
    - now rewrite Hg3. }
  split; [assumption|]. split; [assumption|].
  rewrite Hn3. split; [assumption|]. split; [assumption|].
  split; [rewrite Hc3, Hc1; reflexivity|].
  split; [rewrite Hlen3, Hcv1; reflexivity|].
  reflexivity.
Qed.

End Epoch.

(** ** A whole run (C8) *)

Section Run.
Context {R : Type} {SR : Scalar R} {EX : Externals R}.
Local Abbreviation matrix := (ndarray R).

Variables (h : hyper R) (d_f_list : list (matrix -> matrix))
  (input_data output_data : matrix) (batch_size : nat)
  (cv : option (matrix * matrix)) (cv_goal : matrix -> matrix -> list R)
  (shuffle : nat -> list nat -> list nat).
Hypothesis Hbs : batch_size <> 0.
Hypothesis Hshuffle : shuffle_ok shuffle.

Local Abbreviation ok := (run_ok h d_f_list input_data output_data).
Local Abbreviation body :=
  (epoch h d_f_list input_data output_data batch_size cv cv_goal shuffle).

(** The loop over the epochs succeeds; it runs [m] epochs, at least one
    when there is one to run, and each appends one cost. *)
Lemma epochs_spec :
  forall cnt k st,
    ok st -> cv_ok (net st) cv ->
    exists st' m,
      for_break (seq k cnt) body st = (st', Ok tt)
      /\ ok st' /\ W_shapes st' = W_shapes st
      /\ m <= cnt /\ (cnt <> 0 -> 1 <= m)
      /\ length (cost st') = length (cost st) + m
      /\ length (cv_cost st')
         = length (cv_cost st) + match cv with Some _ => m | None => 0 end.
Proof.
  induction cnt as [|cnt IH]; intros k st Hok Hcv.
  - exists st, 0. simpl. split; [reflexivity|]. split; [assumption|].
    split; [reflexivity|]. split; [lia|]. split; [congruence|].
    split; [lia|]. destruct cv; lia.
  - destruct (epoch_spec h d_f_list input_data output_data batch_size cv cv_goal
                shuffle Hbs Hshuffle k st Hok Hcv)
      as (s1 & b & out & Hrun & Hok1 & HW1 & Hf1 & _ & _ & Hc1 & Hcv1 & _).
    assert (Hlen1 : length (cost s1) = length (cost st) + 1).
    { rewrite Hc1, length_app. reflexivity. }
    simpl. unfold mbind. rewrite Hrun. destruct b.
    + exists s1, 1. unfold ret. split; [reflexivity|]. split; [assumption|].
      split; [assumption|]. split; [lia|]. split; [lia|].
      split; [assumption|]. rewrite Hcv1. destruct cv; reflexivity.
    + assert (Hcv' : cv_ok (net s1) cv) by now apply (cv_ok_shapes (net st)).
      destruct (IH (S k) s1 Hok1 Hcv')
        as (st' & m & Hrun' & Hok' & HW' & Hm & _ & Hc' & Hcv2).
      exists st', (S m). split; [assumption|]. split; [assumption|].
      split; [congruence|]. split; [lia|]. split; [lia|].
      split; [lia|]. rewrite Hcv2, Hcv1. destruct cv; lia.
Qed.

End Run.

Section TrainBackpropSpec.
Context {R : Type} {SR : Scalar R} {EX : Externals R}.
Local Abbreviation matrix := (ndarray R).

Lemma train_backprop_unfold (self : MLP R) (input_data output_data : matrix)
    (h : hyper R) (shuffle : nat -> list nat -> list nat) :
  train_backprop self input_data output_data h shuffle
  = match for_break (seq 0 (max_iter h))
            (epoch h (used_d_f_list self h) (used_input h input_data)
               output_data (used_batch_size h input_data) (used_cv h)
               (used_cv_goal h) shuffle)
            (initial_state self h) with
    | (st, Ok _) =>
        (net st,
         Ok (match used_cv h with
             | Some _ => Cost_and_cv (cost st) (cv_cost st)
             | None => Cost_only (cost st)
             end))
    | (st, Raise e) => (net st, Raise e)
    end.
Proof. reflexivity. Qed.

Lemma initial_state_ok (self : MLP R) (h : hyper R) :
  state_ok h (initial_state self h).
Proof.
  split; unfold initial_state; cbn [last_delta_W nlg net].
  - rewrite map_map. apply map_ext. reflexivity.
  - destruct (neural_local_gain h); [|reflexivity].
    split; [discriminate|]. rewrite map_map. apply map_ext. reflexivity.
Qed.

Lemma initial_run_ok (self : MLP R) (input_data output_data : matrix)
    (h : hyper R) (shuffle : nat -> list nat -> list nat) :
  call_ok self input_data output_data h shuffle ->
  run_ok h (used_d_f_list self h) (used_input h input_data) output_data
    (initial_state self h).
Proof.
  intros [H1 H2 H3 H4 H5 H6]. split; try assumption.
  apply initial_state_ok.
Qed.

(** C8. A call whose arguments fit the network returns normally,
    whether it stops early or not.  It runs at most [max_iter] epochs,
    every epoch appends exactly one training cost, and the returned
    training-cost history has at most [max_iter] entries and at least one
    when [max_iter >= 1].  With both [cv_input_data] and [cv_output_data]
    it returns the pair of histories, of equal lengths; otherwise the
    training-cost history alone. *)
Theorem C8_cost_history (self : MLP R) (input_data output_data : matrix)
    (h : hyper R) (shuffle : nat -> list nat -> list nat) :
  call_ok self input_data output_data h shuffle ->
  (forall n st,
      run_ok h (used_d_f_list self h) (used_input h input_data) output_data st ->
      cv_ok (net st) (used_cv h) ->
      exists st' b,
        epoch h (used_d_f_list self h) (used_input h input_data) output_data
          (used_batch_size h input_data) (used_cv h) (used_cv_goal h) shuffle
          n st = (st', Ok b)
        /\ length (cost st') = S (length (cost st)))
  /\ exists self' r,
       train_backprop self input_data output_data h shuffle = (self', Ok r)
       /\ match cv_input_data h, cv_output_data h with
          | Some _, Some _ =>
              exists c cvc, r = Cost_and_cv c cvc
                            /\ length cvc = length c
                            /\ length c <= max_iter h
                            /\ (1 <= max_iter h -> 1 <= length c)
          | _, _ =>
              exists c, r = Cost_only c
                        /\ length c <= max_iter h
                        /\ (1 <= max_iter h -> 1 <= length c)
          end.
Proof.
  intros Hcall. split.
  { intros n st Hok Hcv.
    destruct (epoch_spec h _ _ output_data _ (used_cv h) (used_cv_goal h) shuffle
                (co_batch Hcall) (co_shuffle Hcall) n st Hok Hcv)
      as (s1 & b & out & Hrun & _ & _ & _ & _ & _ & Hc1 & _).
    exists s1, b. split; [assumption|].
    rewrite Hc1, length_app. simpl. lia. }
  rewrite train_backprop_unfold.
  destruct (epochs_spec h _ _ output_data _ (used_cv h) (used_cv_goal h) shuffle
              (co_batch Hcall) (co_shuffle Hcall) (max_iter h) 0
              (initial_state self h) (initial_run_ok _ _ _ _ _ Hcall)
              (co_cv Hcall))
    as (st' & m & Hrun & _ & _ & Hm & Hm1 & Hc & Hcv).
  rewrite Hrun. eexists. eexists. split; [reflexivity|].
  cbn [initial_state cost cv_cost length] in Hc, Hcv. simpl in Hc, Hcv.
  unfold used_cv in *.
  destruct (cv_input_data h) as [cv_in|], (cv_output_data h) as [cv_out|].
  - exists (cost st'), (cv_cost st'). split; [reflexivity|]. lia.
  - exists (cost st'). split; [reflexivity|]. lia.
  - exists (cost st'). split; [reflexivity|]. lia.
  - exists (cost st'). split; [reflexivity|]. lia.
Qed.

End TrainBackpropSpec.

(** ** The stopping criteria (C6) *)

Section Stopping.
Context {R : Type} {SR : Scalar R} {EX : Externals R}.
Local Abbreviation matrix := (ndarray R).

Lemma length_pos_nonempty {A : Type} (l : list A) :
  (0 <? length l) = true <-> l <> [].
Proof.
  destruct l; simpl; split; intros H; try congruence; try discriminate.
  reflexivity.
Qed.

(** What the stopping test answers. *)
Lemma stop_check_spec (h : hyper R) (do_cv : bool) (n_iter : nat)
    (cost cv_cost : list R) :
  cost <> [] -> (do_cv = true <-> cv_cost <> []) ->
  exists b c m last_cost,
    stop_check h do_cv n_iter cost cv_cost = Ok b
    /\ py_last (if do_cv then cv_cost else cost) = Ok c
    /\ py_min (if do_cv then cv_cost else cost) = Ok m
    /\ py_last cost = Ok last_cost
    /\ (b = true <->
        (Z.of_nat n_iter > n_iter_stop_skip h)%Z
        /\ (rltb m (rmul (rsub r1 (stop_threshold h)) c) = true
            \/ rleb last_cost (min_train_cost h) = true
            \/ (do_cv = true
                /\ exists cv, py_last cv_cost = Ok cv
                              /\ rleb cv (min_cv_cost h) = true)
            \/ (exists prev, py_last2 cost = Ok prev
                             /\ rltb (rabs (rsub last_cost prev)) (tolerance h)
                                = true))).
Proof.
  intros Hc Hcv.
  assert (Hne : (if do_cv then cv_cost else cost) <> []).
  { destruct do_cv; [now apply Hcv|assumption]. }
  destruct (py_last_nonempty _ Hne) as (c & Hlast).
  destruct (py_min_nonempty _ Hne) as (m & Hmin).
  destruct (py_last_nonempty _ Hc) as (c1 & Hc1).
  unfold stop_check, threshold_test. rewrite Hlast, Hmin, Hc1. cbn [rbind].
  destruct (Z.of_nat n_iter >? n_iter_stop_skip h)%Z eqn:Eskip.
  2:{ exists false, c, m, c1. repeat (split; [reflexivity|]).
      split; [discriminate|]. intros [Hgt _].
      apply Z.gt_lt in Hgt. apply Z.gtb_lt in Hgt. congruence. }
  assert (Hgt : (Z.of_nat n_iter > n_iter_stop_skip h)%Z).
  { apply Z.lt_gt. now apply Z.gtb_lt. }
  destruct (rltb m (rmul (rsub r1 (stop_threshold h)) c)) eqn:E1.
  { exists true, c, m, c1. repeat (split; [reflexivity|]). split; auto. }
  destruct (rleb c1 (min_train_cost h)) eqn:E2.
  { exists true, c, m, c1. repeat (split; [reflexivity|]). split; auto. }
  destruct (0 <? length cv_cost) eqn:E3.
  - assert (Hdo : do_cv = true) by (apply Hcv; now apply length_pos_nonempty).
    destruct (py_last_nonempty cv_cost) as (cvl & Hcvl);
      [now apply length_pos_nonempty|].
    rewrite Hcvl. cbn [rbind].
    destruct (rleb cvl (min_cv_cost h)) eqn:E4.
    { exists true, c, m, c1. repeat (split; [reflexivity|]). split; [|auto].
      intros _. split; [assumption|]. right. right. left.
      split; [assumption|]. exists cvl. auto. }
    destruct (1 <? length cost) eqn:E5.
    + apply Nat.ltb_lt in E5. destruct (py_last2_two cost E5) as (c2 & Hc2).
      rewrite Hc2. cbn [rbind].
      eexists. exists c, m, c1. repeat (split; [reflexivity|]). split.
      * intros Hb. split; [assumption|]. do 3 right. exists c2. auto.
      * intros [_ [H|[H|[H|H]]]]; try congruence.
        -- destruct H as (_ & cv' & Hcv' & Hle). congruence.
        -- destruct H as (prev & Hp & Hlt). congruence.
    + exists false, c, m, c1. repeat (split; [reflexivity|]).
      split; [discriminate|].
      intros [_ [H|[H|[H|H]]]]; try congruence.
      * destruct H as (_ & cv' & Hcv' & Hle). congruence.
      * destruct H as (prev & Hp & _). apply Nat.ltb_ge in E5.
        unfold py_last2 in Hp. rewrite <- length_rev in E5.
        destruct (rev cost) as [|x [|y t]]; simpl in *; try discriminate; lia.
  - assert (Hdo : do_cv = false).
    { destruct do_cv; [|reflexivity].
      destruct Hcv as [Hcv _]. specialize (Hcv eq_refl).
      apply length_pos_nonempty in Hcv. congruence. }
    cbn [rbind].
    destruct (1 <? length cost) eqn:E5.
    + apply Nat.ltb_lt in E5. destruct (py_last2_two cost E5) as (c2 & Hc2).
      rewrite Hc2. cbn [rbind].
      eexists. exists c, m, c1. repeat (split; [reflexivity|]). split.
      * intros Hb. split; [assumption|]. do 3 right. exists c2. auto.
      * intros [_ [H|[H|[H|H]]]]; try congruence.
        -- destruct H as (Hd & _). congruence.
        -- destruct H as (prev & Hp & Hlt). congruence.
    + exists false, c, m, c1. repeat (split; [reflexivity|]).
      split; [discriminate|].
      intros [_ [H|[H|[H|H]]]]; try congruence.
      * destruct H as (Hd & _). congruence.
      * destruct H as (prev & Hp & _). apply Nat.ltb_ge in E5.
        unfold py_last2 in Hp. rewrite <- length_rev in E5.
        destruct (rev cost) as [|x [|y t]]; simpl in *; try discriminate; lia.
Qed.

(** C6. Every epoch of a run ends with the stopping test, evaluated on
    the histories the epoch has just extended, and the loop leaves after
    the epoch exactly when the test answers [true].  It answers [true] only
    when [n_iter > n_iter_stop_skip], and then exactly when one of these
    holds: [(1 - stop_threshold) * last > min] on the cross-validation
    costs if cross-validation is tracked and on the training costs
    otherwise; the last training cost is [<= min_train_cost];
    cross-validation is tracked and its last cost is [<= min_cv_cost];
    there are two training costs and the absolute value of the difference
    of the last two is [< tolerance]. *)
Theorem C6_stopping_criteria (h : hyper R) (d_f_list : list (matrix -> matrix))
    (input_data output_data : matrix) (batch_size : nat)
    (cv : option (matrix * matrix)) (cv_goal : matrix -> matrix -> list R)
    (shuffle : nat -> list nat -> list nat) (n_iter : nat)
    (st : train_state R) :
  batch_size <> 0 -> shuffle_ok shuffle ->
  run_ok h d_f_list input_data output_data st ->
  cv_ok (net st) cv ->
  (cv = None -> cv_cost st = []) ->
  let body := epoch h d_f_list input_data output_data batch_size cv cv_goal
                shuffle in
  let do_cv := match cv with Some _ => true | None => false end in
  exists st' b c m last_cost,
    body n_iter st = (st', Ok b)
    /\ (forall rest,
          for_break (n_iter :: rest) body st
          = if b then (st', Ok tt) else for_break rest body st')
    /\ py_last (if do_cv then cv_cost st' else cost st') = Ok c
    /\ py_min (if do_cv then cv_cost st' else cost st') = Ok m
    /\ py_last (cost st') = Ok last_cost
    /\ (b = true <->
        (Z.of_nat n_iter > n_iter_stop_skip h)%Z
        /\ (rltb m (rmul (rsub r1 (stop_threshold h)) c) = true
            \/ rleb last_cost (min_train_cost h) = true
            \/ (do_cv = true
                /\ exists cvl, py_last (cv_cost st') = Ok cvl
                               /\ rleb cvl (min_cv_cost h) = true)
            \/ (exists prev, py_last2 (cost st') = Ok prev
                             /\ rltb (rabs (rsub last_cost prev)) (tolerance h)
                                = true))).
Proof.
  intros Hbs Hsh Hok Hcv Hnocv body do_cv.
  destruct (epoch_spec h d_f_list input_data output_data batch_size cv cv_goal
              shuffle Hbs Hsh n_iter st Hok Hcv)
    as (st' & b & out & Hrun & _ & _ & _ & _ & _ & Hc & Hlen & Hstop).
  destruct (stop_check_spec h do_cv n_iter (cost st') (cv_cost st'))
    as (b' & c & m & lc & Hb' & Hlast & Hmin & Hlc & Hiff).
  { rewrite Hc. intros E. apply app_eq_nil in E. destruct E; discriminate. }
  { unfold do_cv. destruct cv as [p|].
    - split; [|reflexivity]. intros _ E. rewrite E in Hlen. simpl in Hlen. lia.
    - split; [discriminate|]. intros Hne. exfalso. apply Hne.
      rewrite (Hnocv eq_refl) in Hlen. simpl in Hlen.
      destruct (cv_cost st'); [reflexivity|discriminate]. }
  fold do_cv in Hstop. rewrite Hstop in Hb'. injection Hb' as <-.
  exists st', b, c, m, lc. split; [exact Hrun|]. split.
  { intros rest. simpl. unfold mbind. unfold body. rewrite Hrun.
    destruct b; reflexivity. }
  repeat (split; [assumption|]). exact Hiff.
Qed.

End Stopping.

(** ** Inputs of the wrong width (C7) *)

Section DimensionMismatch.
Context {R : Type} {SR : Scalar R} {EX : Externals R}.
Local Abbreviation matrix := (ndarray R).

Lemma compute_output_mismatch (self : MLP R) (W0 data : matrix) (add_bias : bool) :
  nth_error (W self) 0 = Some W0 ->
  shape1 (if add_bias then c_ones data else data) <> shape1 W0 ->
  compute_output self data add_bias = Raise (PyException msg_dim).
Proof.
  intros HW0 Hne. unfold compute_output.
  rewrite (py_get_nth_error _ _ _ HW0). cbn [rbind].
  apply Nat.eqb_neq in Hne. rewrite Hne. reflexivity.
Qed.

(** The forward pass of training has no check of its own: on a batch of
    the wrong width its first matrix product fails. *)
Lemma forward_pass_mismatch (self : MLP R) (W0 batch_data : matrix) :
  nth_error (W self) 0 = Some W0 ->
  shape1 batch_data <> shape1 W0 ->
  forward_pass self batch_data = Raise ValueError.
Proof.
  intros HW0 Hne. unfold forward_pass.
  assert (HL : 0 < length (W self)) by (apply nth_error_Some; congruence).
  destruct (length (W self)) as [|n] eqn:E; [lia|].
  simpl. rewrite (py_get_nth_error _ _ _ HW0). cbn [rbind].
  rewrite dot_mismatch by (simpl; assumption). reflexivity.
Qed.

Lemma py_range_step_first (n step : nat) :
  n <> 0 -> step <> 0 ->
  exists rest, py_range_step n step = Ok (0 :: rest).
Proof.
  intros Hn Hs. unfold py_range_step.
  apply Nat.eqb_neq in Hs. rewrite Hs. apply Nat.eqb_neq in Hs.
  assert (Hq : 1 <= (n + step - 1) / step).
  { apply Nat.div_le_lower_bound; lia. }
  destruct ((n + step - 1) / step) as [|q]; [lia|].
  simpl. eexists. reflexivity.
Qed.

Lemma train_backprop_mismatch (self : MLP R) (W0 input_data output_data : matrix)
    (h : hyper R) (shuffle : nat -> list nat -> list nat) :
  nth_error (W self) 0 = Some W0 ->
  shape1 (used_input h input_data) <> shape1 W0 ->
  max_iter h <> 0 -> shape0 input_data <> 0 ->
  used_batch_size h input_data <> 0 ->
  shuffle_ok shuffle ->
  train_backprop self input_data output_data h shuffle = (self, Raise ValueError).
Proof.
  intros HW0 Hne Hmax Hrows Hbs Hsh.
  rewrite train_backprop_unfold.
  destruct (max_iter h) as [|n]; [congruence|].
  cbn [seq for_break]. unfold mbind at 1. unfold epoch at 1.
  set (X := used_input h input_data) in *.
  assert (HX0 : shape0 X = shape0 input_data).
  { unfold X, used_input. destruct (add_bias h); reflexivity. }
  set (idx_data := shuffle 0 (seq 0 (shape0 X))).
  assert (Hlen : length idx_data = shape0 X).
  { unfold idx_data. rewrite <- (Permutation_length (Hsh 0 _)). apply length_seq. }
  destruct (py_range_step_first (length idx_data) (used_batch_size h input_data))
    as (rest & Hrange); [lia | assumption |].
  rewrite Hrange. unfold mbind at 1, lift at 1.
  cbn [for_each]. unfold mbind at 1. unfold mbind at 1.
  unfold train_batch at 1.
  destruct (take_rows_Ok X
              (py_slice idx_data 0 (0 + used_batch_size h input_data)))
    as (batch & Hb & _ & Hb1).
  { apply Forall_py_slice. apply Forall_forall. intros i Hi.
    apply (Permutation_in i (Permutation_sym (Hsh 0 _))) in Hi.
    apply in_seq in Hi. lia. }
  unfold mbind at 1, lift at 1. rewrite Hb.
  unfold mbind at 1, get at 1.
  unfold mbind at 1, lift at 1. cbn [initial_state net].
  rewrite (forward_pass_mismatch self W0 batch HW0) by congruence.
  reflexivity.
Qed.

Lemma train_backprop_no_epoch (self : MLP R) (input_data output_data : matrix)
    (h : hyper R) (shuffle : nat -> list nat -> list nat) :
  max_iter h = 0 ->
  train_backprop self input_data output_data h shuffle
  = (self, Ok (match used_cv h with
               | Some _ => Cost_and_cv [] []
               | None => Cost_only []
               end)).
Proof.
  intros Hmax. rewrite train_backprop_unfold, Hmax. reflexivity.
Qed.

(** C7, as the code has it.  [compute_output] raises its dimension
    exception, before any layer is computed and whatever the activation
    functions and the other weights are, whenever the input (with its
    bias column when one is added) has not the width of [W[0]].
    [train_backprop] has no such check: when it runs at least one epoch
    on a non-empty training set, inputs of the wrong width make the first
    matrix product of the first batch fail with numpy's [ValueError], and
    the network is returned as it was given; when [max_iter] is 0 it
    returns normally. *)
Theorem C7_dimension_mismatch (self : MLP R) (W0 : matrix) :
  nth_error (W self) 0 = Some W0 ->
  (forall (data : matrix) (add_bias : bool),
      shape1 (if add_bias then c_ones data else data) <> shape1 W0 ->
      compute_output self data add_bias = Raise (PyException msg_dim))
  /\ (forall input_data output_data h shuffle,
        shape1 (used_input h input_data) <> shape1 W0 ->
        max_iter h <> 0 -> shape0 input_data <> 0 ->
        used_batch_size h input_data <> 0 ->
        shuffle_ok shuffle ->
        train_backprop self input_data output_data h shuffle
        = (self, Raise ValueError))
  /\ (forall input_data output_data h shuffle,
        max_iter h = 0 ->
        exists r, train_backprop self input_data output_data h shuffle
                  = (self, Ok r)).
Proof.
  intros HW0. split; [|split].
  - intros data add_bias Hne. now apply (compute_output_mismatch self W0).
  - intros. now apply (train_backprop_mismatch self W0).
  - intros input_data output_data h shuffle Hmax.
    rewrite (train_backprop_no_epoch _ _ _ _ _ Hmax). eexists. reflexivity.
Qed.

End DimensionMismatch.

(** ** The cost of an epoch (C5) *)

Section EpochCost.
Context {R : Type} {SR : Scalar R} {EX : Externals R}.
Local Abbreviation matrix := (ndarray R).

Hypothesis HA : exact_arith.

Lemma fold_radd_acc (l : list R) (a b : R) :
  fold_left radd l (radd a b) = radd (fold_left radd l a) b.
Proof.
  revert a. induction l as [|x l IH]; intros a; simpl; [reflexivity|].
  rewrite <- (ea_add_assoc HA a b x), (ea_add_comm HA b x), (ea_add_assoc HA a x b).
  apply IH.
Qed.

Lemma np_sum_add_const (l : list R) (r a : R) :
  fold_left radd (map (fun x => radd x r) l) a
  = radd (fold_left radd l a) (rmul (of_nat (length l)) r).
Proof.
  revert a. induction l as [|x l IH]; intros a; simpl.
  - now rewrite (ea_of_nat_0 HA), (ea_mul_0_l HA), (ea_add_0_r HA).
  - rewrite (ea_add_assoc HA a x r), fold_radd_acc, IH.
    rewrite (ea_of_nat_S HA), (ea_mul_add_r HA), (ea_mul_1_l HA).
    rewrite (ea_add_assoc HA). reflexivity.
Qed.

Lemma map_add_0 (l : list R) : map (fun x => radd x r0) l = l.
Proof.
  rewrite <- (map_id l) at 2. apply map_ext. intros x. apply (ea_add_0_r HA).
Qed.

(** The cost line 197-200 computes is the mean of the goal plus the
    penalty, not divided by the number of examples. *)
Lemma cost_formula (h : hyper R) (Ws : list matrix) (per_example : list R) :
  per_example <> [] ->
  rdiv (np_sum (map (fun x => radd x (reg_term h Ws)) per_example))
    (of_nat (length per_example))
  = claimed_cost h Ws per_example.
Proof.
  intros Hne. unfold claimed_cost, reg_term, mean.
  destruct (regularization_norm h) as [rn|].
  - unfold np_sum at 1. rewrite np_sum_add_const, (ea_div_add HA).
    f_equal. apply (ea_div_cancel HA). destruct per_example; simpl; congruence.
  - now rewrite map_add_0.
Qed.

(** C5. Every epoch of a run on a non-empty training set appends to the
    training-cost history the mean over the examples of
    [goal(targets, output of the network on the whole training set)],
    plus, when [regularization_norm] is given, the sum over the layers of
    [regularization_norm(W[i])], added once and not divided by the number
    of examples; the network is the one the batches of the epoch leave. *)
Theorem C5_epoch_cost (h : hyper R) (d_f_list : list (matrix -> matrix))
    (input_data output_data : matrix) (batch_size : nat)
    (cv : option (matrix * matrix)) (cv_goal : matrix -> matrix -> list R)
    (shuffle : nat -> list nat -> list nat) (n_iter : nat)
    (st : train_state R) :
  batch_size <> 0 -> shuffle_ok shuffle ->
  run_ok h d_f_list input_data output_data st ->
  cv_ok (net st) cv ->
  shape0 input_data <> 0 ->
  (forall t o, length (goal h t o) = shape0 o) ->
  exists st' b out,
    epoch h d_f_list input_data output_data batch_size cv cv_goal shuffle
      n_iter st = (st', Ok b)
    /\ compute_output (net st') input_data false = Ok out
    /\ length (goal h output_data out) = shape0 input_data
    /\ cost st'
       = cost st ++ [claimed_cost h (W (net st')) (goal h output_data out)].
Proof.
  intros Hbs Hsh Hok Hcv Hrows Hgoal.
  destruct (epoch_spec h d_f_list input_data output_data batch_size cv cv_goal
              shuffle Hbs Hsh n_iter st Hok Hcv)
    as (st' & b & out & Hrun & _ & _ & _ & Hout & Hs0 & Hc & _).
  exists st', b, out. split; [assumption|]. split; [assumption|].
  assert (Hlen : length (goal h output_data out) = shape0 input_data).
  { rewrite Hgoal. assumption. }
  split; [assumption|].
  rewrite Hc, <- Hlen. rewrite cost_formula; [reflexivity|].
  intros E. rewrite E in Hlen. simpl in Hlen. congruence.
Qed.

End EpochCost.

(** ** The last batch of an epoch (C10) *)

Section LastBatch.
Context {R : Type} {SR : Scalar R} {EX : Externals R}.
Local Abbreviation matrix := (ndarray R).

Lemma range_step_last (n step : nat) :
  step <> 0 -> n mod step <> 0 ->
  py_range_step n step
  = Ok (map (fun k => k * step) (seq 0 (n / step)) ++ [n / step * step]).
Proof.
  intros Hs Hm. unfold py_range_step.
  pose proof Hs as Hs'. apply Nat.eqb_neq in Hs'. rewrite Hs'.
  assert (Hq : (n + step - 1) / step = S (n / step)).
  { symmetry. apply (Nat.div_unique _ _ _ (n mod step - 1)).
    - pose proof (Nat.mod_upper_bound n step Hs). lia.
    - pose proof (Nat.div_mod_eq n step). lia. }
  rewrite Hq, seq_S, map_app. reflexivity.
Qed.

Lemma last_slice_length {A : Type} (l : list A) (step : nat) :
  step <> 0 ->
  length (py_slice l (length l / step * step) (length l / step * step + step))
  = length l mod step.
Proof.
  intros Hs. unfold py_slice.
  rewrite length_firstn, length_skipn.
  pose proof (Nat.div_mod_eq (length l) step).
  pose proof (Nat.mod_upper_bound (length l) step Hs). lia.
Qed.

Lemma div_scal_scale (HA : exact_arith) (g : matrix) (m b : nat) :
  m <> 0 ->
  div_scal g (of_nat b)
  = scal_mul (rdiv (of_nat m) (of_nat b)) (div_scal g (of_nat m)).
Proof.
  intros Hm. unfold div_scal, scal_mul, nd_map. simpl. f_equal.
  rewrite map_map. apply map_ext. intros r.
  rewrite map_map. apply map_ext. intros x.
  now apply (ea_div_scale HA).
Qed.

(** C10. When the number of examples is not a multiple of [batch_size],
    the last batch of an epoch is the slice starting at the last multiple
    of [batch_size]; it has [n mod batch_size] examples, fewer than
    [batch_size].  On that batch the gradient of every layer is still
    divided by [batch_size], so that it is the gradient divided by the
    number of examples of the batch (the average over the batch),
    multiplied by [(examples in the batch) / batch_size].  This is a
    statement on the gradient: the update of the batch adds the momentum
    and penalty terms to it, which are not scaled. *)
Theorem C10_last_batch_scaling (idx_data : list nat) (batch_size : nat)
    (self : MLP R) (d_goal : d_goal_fn R) (d_f_list : list (matrix -> matrix))
    (output_data batch_data : matrix) :
  exact_arith ->
  batch_size <> 0 ->
  length idx_data mod batch_size <> 0 ->
  let n := length idx_data in
  let i_last := n / batch_size * batch_size in
  let batch_idx := py_slice idx_data i_last (i_last + batch_size) in
  net_ok self d_goal d_f_list ->
  batch_ok self output_data batch_data batch_idx ->
  (exists starts, py_range_step n batch_size = Ok (starts ++ [i_last]))
  /\ length batch_idx = n mod batch_size
  /\ shape0 batch_data = n mod batch_size
  /\ n mod batch_size < batch_size
  /\ exists z f_z nabla_W dE_dz,
       forward_pass self batch_data = Ok (z, f_z)
       /\ backward_pass self d_goal d_f_list output_data batch_data batch_idx
            batch_size z f_z = Ok (nabla_W, dE_dz)
       /\ forall i, i < length (W self) ->
            exists inp d grad,
              layer_input batch_data f_z i = Ok inp
              /\ nth_error dE_dz i = Some (Some d)
              /\ nth_error nabla_W i = Some (Some grad)
              /\ grad = div_scal (transpose (matmul (transpose inp) d))
                          (of_nat batch_size)
              /\ grad = scal_mul
                          (rdiv (of_nat (shape0 batch_data)) (of_nat batch_size))
                          (div_scal (transpose (matmul (transpose inp) d))
                             (of_nat (shape0 batch_data))).
Proof.
  intros HA Hbs Hmod n i_last batch_idx Hnet Hbatch.
  assert (Hlen : length batch_idx = n mod batch_size)
    by apply (last_slice_length idx_data batch_size Hbs).
  assert (Hrows : shape0 batch_data = n mod batch_size).
  { rewrite <- (bo_rows Hbatch). exact Hlen. }
  split.
  { eexists. apply (range_step_last n batch_size Hbs Hmod). }
  split; [assumption|]. split; [assumption|].
  split; [now apply Nat.mod_upper_bound|].
  destruct (passes_spec self d_goal d_f_list output_data batch_data batch_idx
              batch_size Hnet Hbatch)
    as (z & f_z & nabla_W & log & Hf & Hb & _ & _ & _ & _ & Hbwd).
  exists z, f_z, nabla_W, log. split; [assumption|]. split; [assumption|].
  intros i Hi.
  destruct (Hbwd i Hi) as (d & inp & Hlog & Hin & Hnab & _).
  exists inp, d. eexists. split; [assumption|]. split; [assumption|].
  split; [exact Hnab|]. split; [reflexivity|].
  apply (div_scal_scale HA). rewrite Hrows. exact Hmod.
Qed.

End LastBatch.

(** ** The outcome of [__init__] *)

Section InitOutcome.
Context {R : Type} {SR : Scalar R} {EX : Externals R}.
Local Abbreviation matrix := (ndarray R).

Variables (d : nat) (ls : list nat) (rng : nat -> nat -> list R).

(** The loop of [__init__] stops at the first layer for which [rng]
    returns another count of numbers than it was asked for. *)
Lemma init_loop_result :
  forall cnt k acc,
    k + cnt = length ls ->
    (init_loop d ls rng (seq k cnt) acc
     = Ok (acc ++ map (init_layer d ls rng) (seq k cnt))
     /\ forall i, k <= i < k + cnt ->
                  length (rng i (layer_size d ls i)) = layer_size d ls i)
    \/ (init_loop d ls rng (seq k cnt) acc = Raise ValueError
        /\ exists i, k <= i < k + cnt
                     /\ length (rng i (layer_size d ls i)) <> layer_size d ls i).
Proof.
  induction cnt as [|cnt IH]; intros k acc Hk.
  - left. simpl. rewrite app_nil_r. split; [reflexivity|]. intros i Hi. lia.
  - cbn [seq init_loop].
    destruct (py_get_lt ls k) as (neurons & -> & Hn); [lia|]. cbn [rbind].
    assert (Hneu : nth k ls 0 = neurons) by now apply nth_error_nth.
    assert (Hprev : (if k =? 0 then Ok d else py_get ls (k - 1))
                    = Ok (if k =? 0 then d else nth (k - 1) ls 0)).
    { destruct (k =? 0) eqn:E; [reflexivity|].
      apply Nat.eqb_neq in E.
      destruct (py_get_lt ls (k - 1)) as (p & -> & Hp); [lia|].
      now rewrite (nth_error_nth _ _ 0 Hp). }
    rewrite Hprev. cbn [rbind]. unfold reshape.
    assert (Hsize : neurons * (1 + (if k =? 0 then d else nth (k - 1) ls 0))
                    = layer_size d ls k).
    { unfold layer_size. now rewrite Hneu. }
    rewrite Hsize.
    destruct (length (rng k (layer_size d ls k)) =? layer_size d ls k) eqn:E.
    + apply Nat.eqb_eq in E. cbn [rbind].
      destruct (IH (S k)
                  (acc ++ [mk_nd neurons
                             (1 + (if k =? 0 then d else nth (k - 1) ls 0))
                             (chunks neurons
                                (1 + (if k =? 0 then d else nth (k - 1) ls 0))
                                (rng k (layer_size d ls k)))]))
        as [[Hrun Hall]|[Hrun (i & Hi & Hbad)]]; [lia| |].
      * left. split.
        { rewrite Hrun, <- app_assoc. cbn [map app].
          unfold init_layer at 2. rewrite Hneu.
          unfold layer_size. rewrite Hneu. reflexivity. }
        intros i Hi. destruct (Nat.eq_dec i k) as [->|Hne]; [exact E|].
        apply Hall. lia.
      * right. split; [exact Hrun|]. exists i. split; [lia|exact Hbad].
    + apply Nat.eqb_neq in E. right. split; [reflexivity|].
      exists k. split; [lia|exact E].
Qed.

Lemma map_const_repeat {A B : Type} (b : B) (l : list A) :
  map (fun _ => b) l = repeat b (length l).
Proof. induction l as [|a t IH]; simpl; [reflexivity|]. now rewrite IH. Qed.

Lemma concat_chunks (n c : nat) (l : list R) :
  length l = n * c -> concat (chunks n c l) = l.
Proof.
  revert l. induction n as [|n IH]; intros l Hl; simpl.
  - destruct l; [reflexivity|discriminate].
  - rewrite IH.
    + apply firstn_skipn.
    + rewrite length_skipn. simpl in Hl. lia.
Qed.

(** X1. [__init__] fails in two ways only.  It raises its own exception
    exactly when activation functions are given and are not as many as
    the layers, whatever [rng] does; otherwise it raises numpy's
    [ValueError] (from [reshape]) exactly when, for some layer, [rng]
    returns another count of numbers than the [neurons * dimension] it
    was asked for. *)
Theorem init_raises (af : option (list (matrix -> matrix))) (e : pyexn) :
  init d ls af rng = Raise e <->
  (e = PyException msg_init
   /\ exists fs, af = Some fs /\ length fs <> length ls)
  \/ (e = ValueError
      /\ (forall fs, af = Some fs -> length fs = length ls)
      /\ exists i, i < length ls
                   /\ length (rng i (layer_size d ls i)) <> layer_size d ls i).
Proof.
  unfold init.
  destruct (init_loop_result (length ls) 0 [] eq_refl)
    as [[Hrun Hall]|[Hrun (i & Hi & Hbad)]]; rewrite Hrun; cbn [rbind].
  - destruct af as [fs|].
    + destruct (length fs =? length ls) eqn:E; cbn [negb].
      * apply Nat.eqb_eq in E. split; [discriminate|].
        intros [(_ & fs' & [= <-] & Hne)|(_ & _ & i & Hi & Hbad)].
        { contradiction. }
        { exfalso. apply Hbad, Hall. lia. }
      * apply Nat.eqb_neq in E. split.
        { intros [= <-]. left. split; [reflexivity|]. now exists fs. }
        { intros [(-> & _)|(_ & Hlen & _)]; [reflexivity|].
          exfalso. apply E. now apply Hlen. }
    + split; [discriminate|].
      intros [(_ & fs' & Hfs & _)|(_ & _ & i & Hi & Hbad)]; [discriminate|].
      exfalso. apply Hbad, Hall. lia.
  - destruct af as [fs|].
    + destruct (length fs =? length ls) eqn:E; cbn [negb].
      * apply Nat.eqb_eq in E. split.
        { intros [= <-]. right. split; [reflexivity|]. split.
          - now intros fs' [= <-].
          - exists i. split; [lia|exact Hbad]. }
        { intros [(_ & fs' & [= <-] & Hne)|(-> & _)]; [contradiction|reflexivity]. }
      * apply Nat.eqb_neq in E. split.
        { intros [= <-]. left. split; [reflexivity|]. now exists fs. }
        { intros [(-> & _)|(_ & Hlen & _)]; [reflexivity|].
          exfalso. apply E. now apply Hlen. }
    + split.
      * intros [= <-]. right. split; [reflexivity|]. split; [discriminate|].
        exists i. split; [lia|exact Hbad].
      * intros [(_ & fs' & Hfs & _)|(-> & _)]; [discriminate|reflexivity].
Qed.

(** What a successful [__init__] has built. *)
Lemma init_Ok_inv (af : option (list (matrix -> matrix))) (self : MLP R) :
  init d ls af rng = Ok self ->
  W self = map (init_layer d ls rng) (seq 0 (length ls))
  /\ f_list self = match af with
                   | None => repeat sigmoid (length ls)
                   | Some fs => fs
                   end
  /\ length (f_list self) = length ls
  /\ forall i, i < length ls ->
               length (rng i (layer_size d ls i)) = layer_size d ls i.
Proof.
  unfold init.
  destruct (init_loop_result (length ls) 0 [] eq_refl)
    as [[Hrun Hall]|[Hrun _]]; rewrite Hrun; cbn [rbind].
  - destruct af as [fs|].
    + destruct (length fs =? length ls) eqn:E; cbn [negb]; [|discriminate].
      apply Nat.eqb_eq in E. intros [= <-]. cbn [W f_list app].
      repeat split; auto. intros i Hi. apply Hall. lia.
    + intros [= <-]. cbn [W f_list app negb].
      rewrite map_const_repeat, length_seq, repeat_length.
      repeat split; auto. intros i Hi. apply Hall. lia.
  - destruct af as [fs|]; [destruct (negb _)|]; discriminate.
Qed.

(** X2. A network [__init__] returns has the activation functions it was
    given, or [sigmoid] at every layer when it was given none, one per
    layer; and layer [i] holds, row after row, exactly the numbers the
    [i]-th call of [rng] returned. *)
Theorem init_contents (af : option (list (matrix -> matrix))) (self : MLP R) :
  init d ls af rng = Ok self ->
  f_list self = match af with
                | None => repeat sigmoid (length ls)
                | Some fs => fs
                end
  /\ length (f_list self) = length (W self)
  /\ forall i w, nth_error (W self) i = Some w ->
       wf_nd w
       /\ concat (rows w) = rng i (shape0 w * shape1 w).
Proof.
  intros Hinit. destruct (init_Ok_inv af self Hinit) as (HW & Hf & Hlen & Hrng).
  split; [exact Hf|]. split.
  { now rewrite HW, length_map, length_seq. }
  intros i w Hw. rewrite HW in Hw.
  apply init_layer_nth in Hw. destruct Hw as [Hi ->].
  specialize (Hrng i Hi). unfold layer_size in Hrng.
  unfold init_layer. cbn [rows shape0 shape1]. split.
  - now apply wf_chunks.
  - now apply concat_chunks.
Qed.

End InitOutcome.

(** ** The output of [compute_output] *)

Section Inference.
Context {R : Type} {SR : Scalar R} {EX : Externals R}.
Local Abbreviation matrix := (ndarray R).

(** The loop of [compute_output] from layer [k] on, for activation
    functions that keep the shape of their argument: the output has one
    row per example and one column per neuron of the last layer. *)
Lemma compute_loop_shape (self : MLP R) :
  length (f_list self) = length (W self) ->
  Forall shape_preserving (f_list self) ->
  chained (W self) ->
  forall cnt k data,
    k + cnt = length (W self) -> cnt <> 0 ->
    (forall w, nth_error (W self) k = Some w -> shape1 data = shape1 w) ->
    exists out,
      compute_loop self (seq k cnt) data = Ok out
      /\ shape0 out = shape0 data
      /\ forall wl, nth_error (W self) (length (W self) - 1) = Some wl ->
                    shape1 out = shape0 wl.
Proof.
  intros Hlen Hsp Hch.
  induction cnt as [|cnt IH]; intros k data Hk Hcnt Hw; [congruence|].
  cbn [seq compute_loop].
  destruct (py_get_lt (f_list self) k) as (f & -> & Hf); [lia|]. cbn [rbind].
  destruct (py_get_lt (W self) k) as (Wk & -> & HWk); [lia|]. cbn [rbind].
  rewrite dot_Ok by (simpl; auto). cbn [rbind].
  set (zk := matmul data (transpose Wk)).
  assert (Hfs : shape (f zk) = shape zk)
    by apply (shape_preserving_nth _ _ _ Hsp Hf).
  apply shape_eq in Hfs. destruct Hfs as [Hfs0 Hfs1]. simpl in Hfs0, Hfs1.
  destruct cnt as [|cnt].
  - assert (Hk' : k = length (W self) - 1) by lia.
    rewrite <- Hk', Nat.eqb_refl. cbn [negb seq compute_loop].
    exists (f zk). split; [reflexivity|]. split; [exact Hfs0|].
    intros wl Hwl. rewrite HWk in Hwl. injection Hwl as <-. exact Hfs1.
  - replace (k =? length (W self) - 1) with false
      by (symmetry; apply Nat.eqb_neq; lia).
    cbn [negb].
    destruct (IH (S k) (c_ones (f zk))) as (out & Hout & Hs0 & Hs1);
      [lia | discriminate | |].
    + intros w Hw'. simpl. rewrite Hfs1. now rewrite (Hch k w Wk Hw' HWk).
    + exists out. split; [exact Hout|]. split; [|exact Hs1].
      rewrite Hs0. simpl. exact Hfs0.
Qed.

(** X3. On a network whose activation functions keep shapes and whose
    layers are chained, [compute_output] succeeds on every input of the
    width of [W[0]] (bias column included) and returns an array with one
    row per example and one column per neuron of the last layer. *)
Theorem compute_output_shape (self : MLP R) (data : matrix) (add_bias : bool)
    (w0 wl : matrix) :
  length (f_list self) = length (W self) ->
  Forall shape_preserving (f_list self) ->
  chained (W self) ->
  nth_error (W self) 0 = Some w0 ->
  nth_error (W self) (length (W self) - 1) = Some wl ->
  shape1 (if add_bias then c_ones data else data) = shape1 w0 ->
  exists out,
    compute_output self data add_bias = Ok out
    /\ shape out = (shape0 data, shape0 wl).
Proof.
  intros Hlen Hsp Hch Hw0 Hwl Hwidth. unfold compute_output.
  rewrite (py_get_nth_error _ _ _ Hw0). cbn [rbind].
  rewrite Hwidth, Nat.eqb_refl. cbn [negb].
  assert (HL : 0 < length (W self)) by (apply nth_error_Some; congruence).
  destruct (compute_loop_shape self Hlen Hsp Hch (length (W self)) 0
              (if add_bias then c_ones data else data))
    as (out & Hout & Hs0 & Hs1); [lia | lia | |].
  - intros w Hw. congruence.
  - exists out. split; [exact Hout|]. unfold shape. f_equal.
    + rewrite Hs0. destruct add_bias; reflexivity.
    + now apply Hs1.
Qed.

(** The two forward loops of the class compute the same values: from
    any layer on, [compute_output]'s loop returns the last activation
    that the loop of the training pass records. *)
Lemma compute_loop_forward_loop (self : MLP R) :
  length (W self) <= length (f_list self) ->
  forall cnt k z f_z data,
    k + cnt = length (W self) ->
    (cnt = 0 -> py_last f_z = Ok data) ->
    compute_loop self (seq k cnt) data
    = (zf <- forward_loop self (seq k cnt) z f_z data ;; py_last (snd zf)).
Proof.
  intros Hlen.
  induction cnt as [|cnt IH]; intros k z f_z data Hk Hlast.
  - cbn [seq compute_loop forward_loop rbind snd]. symmetry. now apply Hlast.
  - cbn [seq compute_loop forward_loop].
    destruct (py_get_lt (f_list self) k) as (f & -> & Hf); [lia|].
    destruct (py_get_lt (W self) k) as (Wk & -> & HWk); [lia|]. cbn [rbind].
    destruct (dot data (transpose Wk)) as [zk|e]; cbn [rbind]; [|reflexivity].
    rewrite py_last_app. cbn [rbind].
    apply IH; [lia|]. intros ->.
    replace (k =? length (W self) - 1) with true
      by (symmetry; apply Nat.eqb_eq; lia).
    cbn [negb]. apply py_last_app.
Qed.

(** X4. Inference and training agree: on a network with an activation
    function for every layer and on data of the width of [W[0]],
    [compute_output] without bias column returns what the forward pass of
    [train_backprop] records as the last layer's activation [f_z[-1]],
    and raises what the forward pass raises. *)
Theorem compute_output_forward_pass (self : MLP R) (data : matrix) :
  length (W self) <= length (f_list self) ->
  (forall w0, nth_error (W self) 0 = Some w0 -> shape1 data = shape1 w0) ->
  compute_output self data false
  = (zf <- forward_pass self data ;; py_last (snd zf)).
Proof.
  intros Hlen Hwidth. unfold compute_output, forward_pass, py_get at 1.
  destruct (nth_error (W self) 0) as [w0|] eqn:E0; cbn [rbind].
  - rewrite (Hwidth w0 eq_refl), Nat.eqb_refl. cbn [negb].
    apply compute_loop_forward_loop; [exact Hlen | lia |].
    intros H0. apply length_zero_iff_nil in H0. rewrite H0 in E0. discriminate.
  - apply nth_error_None in E0.
    assert (H0 : length (W self) = 0) by lia. rewrite H0. reflexivity.
Qed.

(** X5. The forward pass of a batch.  On a network with layers, whose
    activation functions keep shapes and whose layers are chained, and on
    a batch of the width of [W[0]], the forward pass succeeds and records
    one [z] and one [f_z] per layer: [z[i]] is the product of the layer's
    input with the transposed weights [W[i]], the input being the batch
    for layer 0 and [f_z[i-1]] with a column of ones in front for the
    others; [f_z[i]] is [f_list[i](z[i])]; both have one row per example
    of the batch and one column per neuron of the layer. *)
Theorem forward_pass_records (self : MLP R) (batch_data : matrix) :
  W self <> [] ->
  length (f_list self) = length (W self) ->
  Forall shape_preserving (f_list self) ->
  chained (W self) ->
  (forall w0, nth_error (W self) 0 = Some w0 -> shape1 batch_data = shape1 w0) ->
  exists z f_z,
    forward_pass self batch_data = Ok (z, f_z)
    /\ length z = length (W self)
    /\ length f_z = length (W self)
    /\ forall i Wi f,
         nth_error (W self) i = Some Wi ->
         nth_error (f_list self) i = Some f ->
         exists inp zi,
           (if i =? 0 then inp = batch_data
            else exists prev, nth_error f_z (i - 1) = Some prev
                              /\ inp = c_ones prev)
           /\ nth_error z i = Some zi
           /\ zi = matmul inp (transpose Wi)
           /\ nth_error f_z i = Some (f zi)
           /\ shape zi = (shape0 batch_data, shape0 Wi)
           /\ shape (f zi) = (shape0 batch_data, shape0 Wi).
Proof.
  intros Hne Hlen Hsp Hch Hwidth.
  assert (Hnet : net_ok self (D_fun (fun _ o => o)) (f_list self)).
  { split; auto.
    - intros H0. apply length_zero_iff_nil in H0. contradiction. }
  destruct (forward_pass_spec self _ _ batch_data Hnet Hwidth)
    as (z & f_z & Hrun & Hz & Hfz & Hrec).
  exists z, f_z. split; [exact Hrun|]. split; [exact Hz|]. split; [exact Hfz|].
  intros i Wi f HWi Hf.
  assert (Hi : i < length (W self)) by (apply nth_error_Some; congruence).
  destruct (Hrec i Hi)
    as (Wi' & f' & inp & zi & HWi' & Hf' & Hin & Hzi & Hfzi & Heq & Hs0 & Hs1).
  assert (Wi' = Wi) by congruence. assert (f' = f) by congruence. subst Wi' f'.
  exists inp, zi.
  assert (Hshape : shape zi = (shape0 batch_data, shape0 Wi)).
  { rewrite Heq. unfold shape. simpl. now rewrite Hs0. }
  split.
  { unfold layer_input in Hin. destruct (i =? 0); [congruence|].
    unfold py_get in Hin. destruct (nth_error f_z (i - 1)) as [prev|];
      [|discriminate].
    exists prev. split; [reflexivity|]. simpl in Hin. congruence. }
  split; [exact Hzi|]. split; [exact Heq|]. split; [exact Hfzi|].
  split; [exact Hshape|].
  rewrite <- Hshape. apply (shape_preserving_nth _ _ _ Hsp Hf).
Qed.

End Inference.

(** ** Evaluating a network as constructed *)

Section Construction.
Context {R : Type} {SR : Scalar R} {EX : Externals R}.
Local Abbreviation matrix := (ndarray R).

Lemma init_chained (d : nat) (ls : list nat) (rng : nat -> nat -> list R) :
  chained (map (init_layer d ls rng) (seq 0 (length ls))).
Proof.
  intros i w w' H1 H2. apply init_layer_nth in H1, H2.
  destruct H1 as [_ ->], H2 as [_ ->]. simpl.
  rewrite ?Nat.sub_0_r. reflexivity.
Qed.

Lemma nth_error_init_layer (d : nat) (ls : list nat) (rng : nat -> nat -> list R)
    (i : nat) :
  i < length ls ->
  nth_error (map (init_layer d ls rng) (seq 0 (length ls))) i
  = Some (init_layer d ls rng i).
Proof.
  intros Hi. rewrite nth_error_map, nth_error_seq.
  apply Nat.ltb_lt in Hi. rewrite Hi. reflexivity.
Qed.

Lemma nth_pred_length_last {A : Type} (l : list A) (a : A) :
  nth (length l - 1) l a = last l a.
Proof.
  induction l as [|x t IH]; [reflexivity|].
  destruct t as [|y t]; [reflexivity|].
  change (last (x :: y :: t) a) with (last (y :: t) a). rewrite <- IH.
  cbn [length]. rewrite !Nat.sub_succ, !Nat.sub_0_r. reflexivity.
Qed.

(** X6. A network that [__init__] has built for [input_dimension]
    features can be evaluated at once: with activation functions that
    keep shapes, [compute_output] (adding the bias column itself) succeeds
    on every array of [input_dimension] columns and returns one row per
    example and as many columns as the last entry of [layers_structure]. *)
Theorem init_compute_output (input_dimension : nat) (layers_structure : list nat)
    (activation_functions : option (list (matrix -> matrix)))
    (rng : nat -> nat -> list R) (self : MLP R) (data : matrix) :
  init input_dimension layers_structure activation_functions rng = Ok self ->
  layers_structure <> [] ->
  Forall shape_preserving (f_list self) ->
  shape1 data = input_dimension ->
  exists out,
    compute_output self data true = Ok out
    /\ shape out = (shape0 data, last layers_structure 0).
Proof.
  intros Hinit Hne Hsp Hwidth.
  destruct (init_Ok_inv _ _ _ _ _ Hinit) as (HW & _ & Hlen & _).
  assert (HL : 0 < length layers_structure).
  { destruct layers_structure; [congruence|simpl; lia]. }
  assert (HWlen : length (W self) = length layers_structure).
  { now rewrite HW, length_map, length_seq. }
  unfold compute_output.
  assert (H0 : nth_error (W self) 0
               = Some (init_layer input_dimension layers_structure rng 0)).
  { rewrite HW. now apply nth_error_init_layer. }
  rewrite (py_get_nth_error _ _ _ H0). cbn [rbind].
  assert (Hw0 : (shape1 (c_ones data)
                 =? shape1 (init_layer input_dimension layers_structure rng 0))
                = true).
  { apply Nat.eqb_eq. simpl. now rewrite Hwidth. }
  rewrite Hw0. cbn [negb].
  destruct (compute_loop_shape self) with (cnt := length (W self)) (k := 0)
    (data := c_ones data) as (out & Hout & Hs0 & Hs1).
  - congruence.
  - exact Hsp.
  - rewrite HW. apply init_chained.
  - reflexivity.
  - lia.
  - intros w Hw. rewrite H0 in Hw. injection Hw as <-. simpl. now rewrite Hwidth.
  - exists out. split; [exact Hout|]. unfold shape. f_equal; [exact Hs0|].
    rewrite (Hs1 (init_layer input_dimension layers_structure rng
                    (length layers_structure - 1))).
    + cbn [init_layer shape0]. apply nth_pred_length_last.
    + rewrite HWlen, HW. apply nth_error_init_layer. lia.
Qed.

End Construction.

(** ** The batches of an epoch *)

Section Batches.
Context {R : Type} {SR : Scalar R} {EX : Externals R}.
Local Abbreviation matrix := (ndarray R).

Lemma py_slice_skipn {A : Type} (l : list A) (step a b : nat) :
  py_slice l (step + a) (step + b) = py_slice (skipn step l) a b.
Proof.
  unfold py_slice. rewrite skipn_skipn.
  replace (step + b - (step + a)) with (b - a) by lia.
  now rewrite (Nat.add_comm a step).
Qed.

(** Consecutive slices of width [step] put together give the list
    back. *)
Lemma concat_slices {A : Type} (step : nat) :
  forall q (l : list A),
    length l <= q * step ->
    concat (map (fun i => py_slice l i (i + step))
              (map (fun k => k * step) (seq 0 q))) = l.
Proof.
  induction q as [|q IH]; intros l Hl.
  - simpl in *. destruct l; [reflexivity|simpl in Hl; lia].
  - cbn [seq map concat]. rewrite <- seq_shift, !map_map.
    rewrite (map_ext _ (fun k => py_slice (skipn step l) (k * step) (k * step + step))).
    + rewrite <- (map_map (fun k => k * step)
                    (fun i => py_slice (skipn step l) i (i + step))).
      rewrite IH by (rewrite length_skipn; simpl in Hl; lia).
      unfold py_slice. simpl. rewrite Nat.sub_0_r. apply firstn_skipn.
    + intros k. cbn [Nat.mul]. rewrite <- Nat.add_assoc. apply py_slice_skipn.
Qed.

Lemma ceil_div_bound (n step : nat) :
  step <> 0 -> n <= (n + step - 1) / step * step.
Proof.
  intros Hs. pose proof (Nat.div_mod_eq (n + step - 1) step) as H.
  pose proof (Nat.mod_upper_bound (n + step - 1) step Hs). nia.
Qed.

Lemma ceil_div_last (n step k : nat) :
  step <> 0 -> k < (n + step - 1) / step -> k * step < n.
Proof.
  intros Hs Hk.
  assert (H : S k * step <= n + step - 1).
  { apply Nat.le_trans with ((n + step - 1) / step * step).
    - apply Nat.mul_le_mono_r. lia.
    - rewrite Nat.mul_comm. apply Nat.Div0.mul_div_le. }
  simpl in H. lia.
Qed.

(** X7. The batches of an epoch are consecutive slices of the shuffled
    index list: put together in order they give that list back, so that
    every example of the training set is in exactly one batch of the
    epoch; there are [ceil(n / batch_size)] batches, none is empty and
    none has more than [batch_size] examples. *)
Theorem epoch_batches_partition (shuffle : nat -> list nat -> list nat)
    (n_iter n batch_size : nat) :
  batch_size <> 0 -> shuffle_ok shuffle ->
  let idx_data := shuffle n_iter (seq 0 n) in
  exists idx_batch,
    py_range_step (length idx_data) batch_size = Ok idx_batch
    /\ length idx_batch = (n + batch_size - 1) / batch_size
    /\ concat (batch_indices idx_data batch_size idx_batch) = idx_data
    /\ Permutation (seq 0 n) (concat (batch_indices idx_data batch_size idx_batch))
    /\ Forall (fun b => 1 <= length b <= batch_size)
         (batch_indices idx_data batch_size idx_batch).
Proof.
  intros Hbs Hsh idx_data.
  assert (Hlen : length idx_data = n).
  { unfold idx_data. rewrite <- (Permutation_length (Hsh n_iter _)).
    apply length_seq. }
  unfold py_range_step. pose proof Hbs as Hbs'.
  apply Nat.eqb_neq in Hbs'. rewrite Hbs', Hlen.
  eexists. split; [reflexivity|].
  assert (Hcat : concat (batch_indices idx_data batch_size
                           (map (fun k => k * batch_size)
                              (seq 0 ((n + batch_size - 1) / batch_size))))
                 = idx_data).
  { unfold batch_indices. apply concat_slices.
    rewrite Hlen. now apply ceil_div_bound. }
  split; [now rewrite length_map, length_seq|].
  split; [exact Hcat|]. split; [rewrite Hcat; apply Hsh|].
  unfold batch_indices. rewrite Forall_map, Forall_map.
  apply Forall_forall. intros k Hk. apply in_seq in Hk.
  unfold py_slice. rewrite length_firstn, length_skipn, Hlen.
  assert (k * batch_size < n) by (apply ceil_div_last; [assumption|lia]).
  lia.
Qed.

(** X8. Full-batch learning is the default: without [batch_size], and on
    a training set that is not empty, an epoch has one batch, and it is
    made of all the examples, in the shuffled order. *)
Theorem full_batch_default (h : hyper R) (input_data : matrix)
    (shuffle : nat -> list nat -> list nat) (n_iter : nat) :
  batch_size h = None -> shape0 input_data <> 0 -> shuffle_ok shuffle ->
  let idx_data := shuffle n_iter (seq 0 (shape0 (used_input h input_data))) in
  py_range_step (length idx_data) (used_batch_size h input_data) = Ok [0]
  /\ batch_indices idx_data (used_batch_size h input_data) [0] = [idx_data]
  /\ Permutation (seq 0 (shape0 input_data)) idx_data.
Proof.
  intros Hnone Hrows Hsh idx_data.
  assert (Hn : shape0 (used_input h input_data) = shape0 input_data).
  { unfold used_input. destruct (add_bias h); reflexivity. }
  assert (Hlen : length idx_data = shape0 input_data).
  { unfold idx_data. rewrite <- (Permutation_length (Hsh n_iter _)).
    rewrite length_seq. exact Hn. }
  assert (Hb : used_batch_size h input_data = shape0 input_data).
  { unfold used_batch_size. rewrite Hnone. exact Hn. }
  rewrite Hb, Hlen. split; [|split].
  - unfold py_range_step. apply Nat.eqb_neq in Hrows. rewrite Hrows.
    apply Nat.eqb_neq in Hrows.
    replace ((shape0 input_data + shape0 input_data - 1) / shape0 input_data)
      with 1; [reflexivity|].
    apply (Nat.div_unique _ _ _ (shape0 input_data - 1)); lia.
  - unfold batch_indices, py_slice. cbn [map skipn]. f_equal.
    rewrite <- Hlen. replace (0 + length idx_data - 0) with (length idx_data) by lia.
    apply firstn_all.
  - unfold idx_data. rewrite Hn. apply Hsh.
Qed.

(** X9. A batch size of zero is refused by [range] at the first epoch:
    [train_backprop] raises [ValueError] and leaves the network as it
    was.  This is also what happens without [batch_size] on a training
    set with no example. *)
Theorem zero_batch_size (self : MLP R) (input_data output_data : matrix)
    (h : hyper R) (shuffle : nat -> list nat -> list nat) :
  max_iter h <> 0 ->
  used_batch_size h input_data = 0 ->
  train_backprop self input_data output_data h shuffle
  = (self, Raise ValueError).
Proof.
  intros Hmax Hzero. rewrite train_backprop_unfold.
  destruct (max_iter h) as [|n]; [congruence|].
  cbn [seq for_break]. unfold mbind at 1, epoch at 1.
  rewrite Hzero. unfold py_range_step. cbn [Nat.eqb].
  unfold mbind, lift. reflexivity.
Qed.

End Batches.

(** ** The histories of a run *)

Section Histories.
Context {R : Type} {SR : Scalar R} {EX : Externals R}.
Local Abbreviation matrix := (ndarray R).

(** What the update of a layer leaves alone: everything that does not
    depend on the weights, the previous updates and the gains. *)
Lemma update_layer_frame {X : Type} (F : train_state R -> X) :
  (forall st w, F (set_W st w) = F st) ->
  (forall st d, F (set_last_delta_W st d) = F st) ->
  (forall st g, F (set_nlg st g) = F st) ->
  forall h nabla_W i st, F (fst (update_layer h nabla_W i st)) = F st.
Proof.
  intros FW FL FG h nabla_W i. unfold update_layer.
  apply mbind_frame.
  { intros st. unfold regularization_penalty.
    destruct (d_regularization_norm h) as [d|]; [|reflexivity].
    revert st. apply mbind_get_frame. intros st.
    apply mbind_lift_frame. intros Wi _.
    destruct (d Wi) as [m|].
    - apply mbind_lift_frame. intros p _. reflexivity.
    - apply mbind_lift_frame. intros p _.
      apply mbind_lift_frame. intros W' _.
      unfold mbind, put, ret. simpl. apply FW. }
  intros pen. apply mbind_get_frame. intros st.
  apply mbind_lift_frame. intros delta_W _.
  revert st. apply mbind_frame.
  { intros st. unfold update_gain. revert st. apply mbind_get_frame. intros st.
    destruct (nlg st) as [g|]; [|reflexivity].
    destruct (neural_local_gain h) as [[[[b pn] mn] mx]|]; [|reflexivity].
    apply mbind_lift_frame. intros last _.
    apply mbind_lift_frame. intros p _.
    apply mbind_lift_frame. intros gi _.
    apply mbind_lift_frame. intros g' _. unfold put. simpl. apply FG. }
  intros _. apply mbind_get_frame. intros st.
  apply mbind_lift_frame. intros Wi _.
  apply mbind_lift_frame. intros Wi' _.
  apply mbind_lift_frame. intros W' _.
  unfold mbind at 1, put at 1. rewrite <- (FW st W').
  generalize (set_W st W'). apply mbind_get_frame. intros s.
  apply mbind_lift_frame. intros last' _. unfold put. simpl. apply FL.
Qed.

(** The loop over the epochs has returned: the last epoch it ran has
    returned. *)
Lemma for_break_last {A : Type} (P : train_state R -> Prop)
    (body : A -> M R bool) :
  (forall a s s' b, body a s = (s', Ok b) -> P s') ->
  forall l s s', l <> [] -> for_break l body s = (s', Ok tt) -> P s'.
Proof.
  intros Hb. induction l as [|a t IH]; intros s s' Hne Hrun; [congruence|].
  cbn [for_break] in Hrun. unfold mbind in Hrun.
  destruct (body a s) as [s1 [b|e]] eqn:E; [|discriminate].
  destruct b.
  - unfold ret in Hrun. injection Hrun as <-. eapply Hb; eauto.
  - destruct t as [|a' t'].
    + cbn in Hrun. unfold ret in Hrun. injection Hrun as <-. eapply Hb; eauto.
    + eapply IH; [discriminate|exact Hrun].
Qed.

(** An epoch that has returned: the costs it has appended are those of
    the network it leaves, and its answer is that of the stopping test. *)
Lemma epoch_inv (h : hyper R) (d_f_list : list (matrix -> matrix))
    (input_data output_data : matrix) (batch_size : nat)
    (cv : option (matrix * matrix)) (cv_goal : matrix -> matrix -> list R)
    (shuffle : nat -> list nat -> list nat) (n_iter : nat)
    (st st' : train_state R) (b : bool) :
  epoch h d_f_list input_data output_data batch_size cv cv_goal shuffle n_iter st
  = (st', Ok b) ->
  exists c,
    epoch_cost (goal h) h (net st') input_data output_data = Ok c
    /\ cost st' = cost st ++ [c]
    /\ match cv with
       | Some (cv_in, cv_out) =>
           exists c', epoch_cost cv_goal h (net st') cv_in cv_out = Ok c'
                      /\ cv_cost st' = cv_cost st ++ [c']
       | None => cv_cost st' = cv_cost st
       end
    /\ stop_check h (match cv with Some _ => true | None => false end) n_iter
         (cost st') (cv_cost st') = Ok b.
Proof.
  unfold epoch.
  destruct (py_range_step _ batch_size) as [idx_batch|e];
    [|unfold mbind, lift; discriminate].
  unfold mbind at 1, lift at 1. unfold mbind at 1.
  match goal with
  | |- context [for_each ?l ?body st] =>
      pose proof (for_each_frame _ (@cost R) l body
                    (fun a s => train_batch_frame _ (@cost R)
                                  (update_layer_frame (@cost R)
                                     (fun _ _ => eq_refl) (fun _ _ => eq_refl)
                                     (fun _ _ => eq_refl))
                                  _ _ _ _ _ _ a s) st) as Hc;
      pose proof (for_each_frame _ (@cv_cost R) l body
                    (fun a s => train_batch_frame _ (@cv_cost R)
                                  (update_layer_frame (@cv_cost R)
                                     (fun _ _ => eq_refl) (fun _ _ => eq_refl)
                                     (fun _ _ => eq_refl))
                                  _ _ _ _ _ _ a s) st) as Hcv;
      destruct (for_each l body st) as [s1 [u|e]]; [|discriminate]
  end.
  cbn [fst] in Hc, Hcv.
  unfold mbind at 1, get at 1. unfold mbind at 1, lift at 1.
  destruct (epoch_cost (goal h) h (net s1) input_data output_data) as [c|e] eqn:Ec;
    [|discriminate].
  unfold mbind at 1, put at 1.
  destruct cv as [[cv_in cv_out]|].
  - unfold mbind at 1. unfold mbind at 1, get at 1. unfold mbind at 1, lift at 1.
    cbn [set_cost net].
    destruct (epoch_cost cv_goal h (net s1) cv_in cv_out) as [c'|e] eqn:Ec';
      [|discriminate].
    unfold put at 1. unfold mbind, get, lift. cbn [set_cv_cost set_cost cost cv_cost].
    intros [= <- Hb]. cbn [net cost cv_cost]. exists c.
    split; [exact Ec|]. split; [now rewrite Hc|].
    split; [|exact Hb]. exists c'. split; [exact Ec'|]. now rewrite Hcv.
  - unfold mbind, ret, get, lift. cbn [set_cost cost cv_cost].
    intros [= <- Hb]. cbn [net cost cv_cost]. exists c.
    split; [exact Ec|]. split; [now rewrite Hc|]. split; [exact Hcv|exact Hb].
Qed.

Lemma stop_check_true_skip (h : hyper R) (do_cv : bool) (n_iter : nat)
    (c cv : list R) :
  stop_check h do_cv n_iter c cv = Ok true ->
  (Z.of_nat n_iter > n_iter_stop_skip h)%Z.
Proof.
  unfold stop_check.
  destruct (Z.of_nat n_iter >? n_iter_stop_skip h)%Z eqn:E; [|discriminate].
  intros _. apply Z.gtb_lt in E. lia.
Qed.

(** The loop over the epochs has returned after [m] of them: it has run
    them all, or it has left after an epoch past [n_iter_stop_skip]. *)
Lemma for_break_count (h : hyper R) (body : nat -> M R bool) :
  (forall n s s' b, body n s = (s', Ok b) ->
                    length (cost s') = S (length (cost s))
                    /\ (b = true -> (Z.of_nat n > n_iter_stop_skip h)%Z)) ->
  forall cnt k s s',
    for_break (seq k cnt) body s = (s', Ok tt) ->
    exists m,
      length (cost s') = length (cost s) + m
      /\ (m = cnt \/ (1 <= m <= cnt
                      /\ (Z.of_nat (k + m - 1) > n_iter_stop_skip h)%Z)).
Proof.
  intros Hb. induction cnt as [|cnt IH]; intros k s s' Hrun.
  - cbn in Hrun. unfold ret in Hrun. injection Hrun as <-.
    exists 0. split; [lia|]. now left.
  - cbn [seq for_break] in Hrun. unfold mbind in Hrun.
    destruct (body k s) as [s1 [b|e]] eqn:E; [|discriminate].
    destruct (Hb k s s1 b E) as [Hlen Hskip].
    destruct b.
    + unfold ret in Hrun. injection Hrun as <-. exists 1. split; [lia|].
      destruct cnt as [|cnt]; [now left|]. right. split; [lia|].
      replace (k + 1 - 1) with k by lia. now apply Hskip.
    + destruct (IH (S k) s1 s' Hrun) as (m & Hm & Hcase).
      exists (S m). split; [lia|].
      destruct Hcase as [->|[Hle Hgt]]; [now left|]. right. split; [lia|].
      replace (k + S m - 1) with (S k + m - 1) by lia. exact Hgt.
Qed.

(** X10. A call whose arguments fit the network returns, and it never
    stops early during the epochs [0 .. n_iter_stop_skip]: the
    training-cost history it returns has [max_iter] entries, or more than
    [n_iter_stop_skip + 1]; so at least
    [min(max_iter, n_iter_stop_skip + 2)] epochs are run. *)
Theorem no_early_stop_before_skip (self : MLP R) (input_data output_data : matrix)
    (h : hyper R) (shuffle : nat -> list nat -> list nat) :
  call_ok self input_data output_data h shuffle ->
  exists self' r,
    train_backprop self input_data output_data h shuffle = (self', Ok r)
    /\ (length (train_cost r) = max_iter h
        \/ (Z.of_nat (length (train_cost r)) > n_iter_stop_skip h + 1)%Z)
    /\ (Z.min (Z.of_nat (max_iter h)) (n_iter_stop_skip h + 2)
        <= Z.of_nat (length (train_cost r)))%Z.
Proof.
  intros Hcall. rewrite train_backprop_unfold.
  destruct (epochs_spec h _ _ output_data _ (used_cv h) (used_cv_goal h) shuffle
              (co_batch Hcall) (co_shuffle Hcall) (max_iter h) 0
              (initial_state self h) (initial_run_ok _ _ _ _ _ Hcall)
              (co_cv Hcall))
    as (st' & m0 & Hrun & _).
  rewrite Hrun.
  destruct (for_break_count h
              (epoch h (used_d_f_list self h) (used_input h input_data)
                 output_data (used_batch_size h input_data) (used_cv h)
                 (used_cv_goal h) shuffle))
    with (cnt := max_iter h) (k := 0)
    (s := initial_state self h) (s' := st') as (m & Hm & Hcase).
  { intros n s s1 b E. apply epoch_inv in E.
    destruct E as (c & _ & Hc & _ & Hstop). split.
    - rewrite Hc, length_app. simpl. lia.
    - intros ->. now apply stop_check_true_skip in Hstop. }
  { exact Hrun. }
  cbn [initial_state cost length] in Hm.
  eexists. eexists. split; [reflexivity|].
  assert (Hlen : length (train_cost
                           match used_cv h with
                           | Some _ => Cost_and_cv (cost st') (cv_cost st')
                           | None => Cost_only (cost st')
                           end) = m).
  { destruct (used_cv h); simpl; lia. }
  rewrite Hlen. split.
  - destruct Hcase as [->|[Hle Hgt]]; [now left|right; lia].
  - destruct Hcase as [->|[Hle Hgt]]; lia.
Qed.

(** X11. When a run of at least one epoch returns, the last training
    cost of the history is the cost of the network as the run leaves it:
    no weight is changed after the last cost is computed.  The same holds
    of the last cross-validation cost when cross-validation is tracked. *)
Theorem last_cost_of_returned_network (self self' : MLP R)
    (input_data output_data : matrix) (h : hyper R)
    (shuffle : nat -> list nat -> list nat) (r : train_result R) :
  max_iter h <> 0 ->
  train_backprop self input_data output_data h shuffle = (self', Ok r) ->
  py_last (train_cost r)
  = epoch_cost (goal h) h self' (used_input h input_data) output_data
  /\ match used_cv h with
     | Some (cv_in, cv_out) =>
         exists cvc, train_cv_cost r = Some cvc
                     /\ py_last cvc
                        = epoch_cost (used_cv_goal h) h self' cv_in cv_out
     | None => train_cv_cost r = None
     end.
Proof.
  intros Hmax. rewrite train_backprop_unfold.
  destruct (for_break _ _ _) as [st [u|e]] eqn:Hrun; [|discriminate].
  destruct u. intros [= <- <-].
  apply for_break_last
    with (P := fun s =>
                 py_last (cost s)
                 = epoch_cost (goal h) h (net s) (used_input h input_data)
                     output_data
                 /\ match used_cv h with
                    | Some (cv_in, cv_out) =>
                        py_last (cv_cost s)
                        = epoch_cost (used_cv_goal h) h (net s) cv_in cv_out
                    | None => True
                    end) in Hrun.
  - destruct Hrun as [Hc Hcv]. split.
    + destruct (used_cv h); exact Hc.
    + destruct (used_cv h) as [[cv_in cv_out]|]; [|reflexivity].
      eexists. split; [reflexivity|exact Hcv].
  - intros n s s' b E. apply epoch_inv in E.
    destruct E as (c & Hc & Hcost & Hcv & _). split.
    + rewrite Hcost, Hc. apply py_last_app.
    + destruct (used_cv h) as [[cv_in cv_out]|]; [|exact I].
      destruct Hcv as (c' & Hc' & Hcvc). rewrite Hcvc, Hc'. apply py_last_app.
  - destruct (max_iter h); [congruence|discriminate].
Qed.

(** X12. Training changes the entries of the weight matrices and
    nothing else of the network: whether [train_backprop] returns or
    raises, the network it leaves has the activation functions and the
    number of layers it had. *)
Theorem train_backprop_keeps_architecture (self : MLP R)
    (input_data output_data : matrix) (h : hyper R)
    (shuffle : nat -> list nat -> list nat) :
  let self' := fst (train_backprop self input_data output_data h shuffle) in
  f_list self' = f_list self
  /\ length (W self') = length (W self).
Proof.
  intros self'.
  assert (Hf : f_list self' = f_list self).
  { apply (train_backprop_frame _ (fun st => f_list (net st)))
      with (G := fun m : MLP R => f_list m).
    - intros. apply (update_layer_frame (fun st => f_list (net st))); reflexivity.
    - reflexivity.
    - reflexivity.
    - reflexivity. }
  assert (Hs : map shape (W self') = map shape (W self)).
  { apply (train_backprop_frame _ W_shapes) with (G := fun m => map shape (W m)).
    - intros. apply update_layer_shapes.
    - reflexivity.
    - reflexivity.
    - reflexivity. }
  split; [exact Hf|].
  rewrite <- (length_map shape (W self')), Hs. apply length_map.
Qed.

End Histories.

(** ** The text of a network; networks without layers *)

Section Printing.
Context {R : Type} {SR : Scalar R} {EX : Externals R}.
Local Abbreviation matrix := (ndarray R).

Lemma map_nth_seq' {A : Type} (l : list A) (a : A) :
  map (fun i => nth i l a) (seq 0 (length l)) = l.
Proof.
  induction l as [|x t IH]; [reflexivity|].
  cbn [length seq map nth]. f_equal.
  rewrite <- seq_shift, map_map. exact IH.
Qed.

Lemma string_append_assoc (a b c : string) :
  String.append (String.append a b) c = String.append a (String.append b c).
Proof. induction a as [|x a IH]; simpl; [reflexivity|]. now rewrite IH. Qed.

(** [__str__] reads the shapes of the weight matrices only. *)
Lemma str_shapes (self self' : MLP R) :
  map shape (W self') = map shape (W self) ->
  __str__ self' = __str__ self.
Proof.
  intros Hs. unfold __str__, py_get.
  assert (H0 : forall f : nat * nat -> string,
             map (fun m => f (shape m)) (W self')
             = map (fun m => f (shape m)) (W self)).
  { intros f. rewrite <- !(map_map shape f). now rewrite Hs. }
  assert (Hhd : option_map shape (nth_error (W self') 0)
                = option_map shape (nth_error (W self) 0)).
  { rewrite <- !nth_error_map. now rewrite Hs. }
  pose proof (H0 (fun p => str_int (Z.of_nat (fst p)))) as Hrows.
  cbn [shape fst] in Hrows.
  destruct (nth_error (W self') 0) as [w'|], (nth_error (W self) 0) as [w|];
    cbn [option_map] in Hhd; try discriminate; [|reflexivity].
  injection Hhd as _ H1. cbn [rbind]. now rewrite H1, Hrows.
Qed.

(** X13. The text of a network that [__init__] has built names its
    architecture: [MLP: ] followed by [input_dimension] and by the
    entries of [layers_structure], in decimal, separated by arrows. *)
Theorem str_of_constructed (input_dimension : nat) (layers_structure : list nat)
    (activation_functions : option (list (matrix -> matrix)))
    (rng : nat -> nat -> list R) (self : MLP R) :
  init input_dimension layers_structure activation_functions rng = Ok self ->
  layers_structure <> [] ->
  __str__ self
  = Ok (String.append "MLP: "
          (String.concat " -> "
             (map (fun n => str_int (Z.of_nat n))
                (input_dimension :: layers_structure)))).
Proof.
  intros Hinit Hne.
  destruct (init_Ok_inv _ _ _ _ _ Hinit) as (HW & _).
  assert (HL : 0 < length layers_structure).
  { destruct layers_structure; [congruence|simpl; lia]. }
  assert (H0 : nth_error (W self) 0
               = Some (init_layer input_dimension layers_structure rng 0)).
  { rewrite HW. now apply nth_error_init_layer. }
  assert (Hrows : map (fun m : matrix => str_int (Z.of_nat (shape0 m))) (W self)
                  = map (fun n => str_int (Z.of_nat n)) layers_structure).
  { rewrite HW, map_map. cbn [init_layer shape0].
    rewrite <- (map_map (fun i => nth i layers_structure 0)
                  (fun n => str_int (Z.of_nat n))).
    now rewrite map_nth_seq'. }
  unfold __str__. rewrite (py_get_nth_error _ _ _ H0), Hrows. cbn [rbind].
  cbn [init_layer shape1 Nat.eqb].
  replace (Z.of_nat (1 + input_dimension) - 1)%Z with (Z.of_nat input_dimension)
    by lia.
  f_equal. rewrite !string_append_assoc.
  destruct layers_structure as [|n0 ls]; [congruence|]. reflexivity.
Qed.

(** X14. Training does not change the text of a network: whether
    [train_backprop] returns or raises, [__str__] of the network it
    leaves is [__str__] of the network it was given. *)
Theorem str_after_training (self : MLP R) (input_data output_data : matrix)
    (h : hyper R) (shuffle : nat -> list nat -> list nat) :
  __str__ (fst (train_backprop self input_data output_data h shuffle))
  = __str__ self.
Proof.
  apply str_shapes.
  apply (train_backprop_frame _ W_shapes) with (G := fun m => map shape (W m)).
  - intros. apply update_layer_shapes.
  - reflexivity.
  - reflexivity.
  - reflexivity.
Qed.

(** On a network without layers every batch of an epoch goes through
    and changes nothing. *)
Lemma empty_batches (h : hyper R) (d_f_list : list (matrix -> matrix))
    (input_data output_data : matrix) (batch_size : nat) (idx_data : list nat) :
  Forall (fun i => i < shape0 input_data) idx_data ->
  forall starts st,
    W (net st) = [] ->
    for_each starts
      (train_batch h d_f_list input_data output_data batch_size idx_data) st
    = (st, Ok tt).
Proof.
  intros Hidx. induction starts as [|i starts IH]; intros st HW; [reflexivity|].
  cbn [for_each]. unfold mbind at 1, train_batch at 1.
  destruct (take_rows_Ok input_data (py_slice idx_data i (i + batch_size)))
    as (batch & Hb & _); [now apply Forall_py_slice|].
  unfold mbind at 1, lift at 1. rewrite Hb.
  unfold mbind at 1, get at 1. unfold forward_pass, backward_pass.
  rewrite HW. cbn [length seq rev forward_loop backward_loop repeat for_each].
  unfold mbind at 1, lift at 1. unfold mbind at 1, lift at 1. unfold ret at 1.
  now apply IH.
Qed.

(** X15. A network without layers can be neither printed, nor
    evaluated, nor trained: [__str__] and [compute_output] raise
    [IndexError] at [W[0]], and [train_backprop], when it has an epoch to
    run, goes through the batches without any effect and raises
    [IndexError] when it computes the first cost. *)
Theorem empty_network (self : MLP R) :
  W self = [] ->
  __str__ self = Raise IndexError
  /\ (forall data add_bias, compute_output self data add_bias = Raise IndexError)
  /\ (forall input_data output_data h shuffle,
        max_iter h <> 0 -> used_batch_size h input_data <> 0 ->
        shuffle_ok shuffle ->
        train_backprop self input_data output_data h shuffle
        = (self, Raise IndexError)).
Proof.
  intros HW. split; [|split].
  - unfold __str__. now rewrite HW.
  - intros data add_bias. unfold compute_output. now rewrite HW.
  - intros input_data output_data h shuffle Hmax Hbs Hsh.
    rewrite train_backprop_unfold.
    destruct (max_iter h) as [|n]; [congruence|].
    cbn [seq for_break]. unfold mbind at 1, epoch at 1.
    unfold py_range_step. apply Nat.eqb_neq in Hbs. rewrite Hbs.
    unfold mbind at 1, lift at 1. unfold mbind at 1.
    rewrite empty_batches.
    + unfold mbind at 1, get at 1. unfold mbind at 1, lift at 1.
      unfold epoch_cost, compute_output. cbn [initial_state net].
      rewrite HW. reflexivity.
    + apply Forall_forall. intros i Hi.
      apply (Permutation_in i (Permutation_sym (Hsh 0 _))) in Hi.
      apply in_seq in Hi. lia.
    + cbn [initial_state net]. exact HW.
Qed.

End Printing.

(** ** A penalty derivative that returns its argument *)

Section Aliasing.
Context {R : Type} {SR : Scalar R} {EX : Externals R}.
Local Abbreviation matrix := (ndarray R).

Lemma zeroed_col0_idem (m : matrix) : zeroed_col0 (zeroed_col0 m) = zeroed_col0 m.
Proof.
  unfold zeroed_col0. cbn [shape0 shape1 rows]. f_equal.
  rewrite map_map. apply map_ext. intros [|x t]; reflexivity.
Qed.

(** X16. When [d_regularization_norm] returns the very array it is given
    (as a function returning its argument does), clearing column 0 of
    the penalty clears column 0 of the layer's weights: the layer is
    updated to [W[l]] with its bias column set to zero, minus [delta],
    instead of [W[l] - delta]. *)
Theorem aliased_penalty_clears_bias (h : hyper R) (st : train_state R)
    (nabla_W : list (option matrix)) (i : nat) (Wi last grad : matrix)
    (d : matrix -> returned matrix) :
  d_regularization_norm h = Some d -> d Wi = Argument ->
  state_ok h st ->
  (forall g c b p mn mx, shape (neuron_local_gain_update g c b p mn mx) = shape g) ->
  Forall (fun w : matrix => shape1 w <> 0) (W (net st)) ->
  nth_error (W (net st)) i = Some Wi ->
  nth_error (last_delta_W st) i = Some last ->
  nth_error nabla_W i = Some (Some grad) ->
  shape grad = shape Wi ->
  let delta := layer_delta h (gain_of (nlg st) i) Wi last grad in
  exists st',
    update_layer h nabla_W i st = (st', Ok tt)
    /\ nth_error (W (net st')) i = Some (zip_same rsub (zeroed_col0 Wi) delta)
    /\ nth_error (last_delta_W st') i = Some delta.
Proof.
  intros Ed Ha Hstate Hgain Hcols HWi Hlast Hgrad Hgs delta.
  assert (Hi : i < length (W (net st))) by (apply nth_error_Some; congruence).
  assert (Hil : i < length (last_delta_W st)) by (apply nth_error_Some; congruence).
  assert (Hc : shape1 Wi <> 0).
  { rewrite Forall_forall in Hcols. apply Hcols. eapply nth_error_In; eauto. }
  set (Wz := zeroed_col0 Wi).
  set (st1 := set_W st (set_nth (W (net st)) i Wz)).
  set (h' := with_d_regularization_norm h (Some fresh_copy)).
  assert (HW1 : map shape (W (net st1)) = map shape (W (net st))).
  { unfold st1. cbn [set_W net W]. now apply set_nth_shapes with (w := Wi). }
  assert (Hh' : hyper_ok h' (W (net st1))).
  { split.
    - intros d' [= <-]. split.
      + intros w. exists w. split; reflexivity.
      + apply (Forall_shapes (fun s => snd s <> 0) _ _ HW1). exact Hcols.
    - exact Hgain. }
  assert (Hs1 : state_ok h' st1).
  { destruct Hstate as [Hl Hn]. split.
    - rewrite HW1. exact Hl.
    - rewrite HW1. exact Hn. }
  assert (HZ : nth_error (W (net st1)) i = Some Wz).
  { unfold st1. cbn [set_W net W]. now apply nth_error_set_nth_eq. }
  pose proof (update_layer_spec h' st1 nabla_W i Wz last grad Hh' Hs1 HZ Hlast Hgrad
                Hgs) as Hstep.
  assert (Hsame : update_layer h nabla_W i st = update_layer h' nabla_W i st1).
  { unfold update_layer, mbind at 1.
    rewrite (regularization_penalty_argument h st i Wi HWi d Ed Ha Hc).
    symmetry. unfold mbind at 1.
    rewrite (regularization_penalty_Ok h' st1 i Wz Hh' HZ).
    cbn [h' with_d_regularization_norm d_regularization_norm fresh_copy returned_value].
    unfold Wz. rewrite zeroed_col0_idem. reflexivity. }
  assert (Hdelta : layer_delta h' (gain_of (nlg st1) i) Wz last grad = delta).
  { unfold delta, layer_delta.
    cbn [h' with_d_regularization_norm d_regularization_norm fresh_copy returned_value
         momentum_rate regularization_rate learning_rate st1 set_W nlg].
    rewrite Ed, Ha. cbn [returned_value]. unfold Wz.
    now rewrite zeroed_col0_idem. }
  rewrite Hdelta in Hstep.
  eexists. split; [rewrite Hsame; exact Hstep|].
  unfold updated. cbn [net W last_delta_W st1 set_W]. split.
  - rewrite nth_error_set_nth_eq; [reflexivity|]. now rewrite set_nth_length.
  - now rewrite nth_error_set_nth_eq.
Qed.

End Aliasing.

(** ** The adaptive gains *)

Section Gains.
Context {R : Type} {SR : Scalar R} {EX : Externals R}.
Local Abbreviation matrix := (ndarray R).

Variables (h : hyper R) (nabla_W : list (option matrix)).

(** The gains the update loop leaves: the layers below [k] keep theirs;
    every other layer gets the gain [layer_gain] computes from the
    layer's update and its previous update. *)
Lemma update_loop_gain :
  forall cnt k st,
    k + cnt = length (W (net st)) ->
    hyper_ok h (W (net st)) -> state_ok h st ->
    nabla_ok (W (net st)) nabla_W ->
    exists st',
      for_each (seq k cnt) (update_layer h nabla_W) st = (st', Ok tt)
      /\ match nlg st with
         | None => nlg st' = None
         | Some g =>
             exists g',
               nlg st' = Some g'
               /\ length g' = length g
               /\ (forall i, i < k -> nth_error g' i = nth_error g i)
               /\ (forall i Wi last grad gi,
                     k <= i ->
                     nth_error (W (net st)) i = Some Wi ->
                     nth_error (last_delta_W st) i = Some last ->
                     nth_error nabla_W i = Some (Some grad) ->
                     nth_error g i = Some gi ->
                     nth_error g' i
                     = Some (layer_gain h gi
                               (layer_delta h (Some gi) Wi last grad) last))
         end.
Proof.
  induction cnt as [|cnt IH]; intros k st Hk Hh Hs Hn.
  - exists st. split; [reflexivity|].
    destruct (nlg st) as [g|] eqn:Eg; [|reflexivity].
    exists g. split; [reflexivity|]. split; [reflexivity|]. split; [auto|].
    intros i Wi last grad gi Hi HWi. exfalso.
    assert (i < length (W (net st))) by (apply nth_error_Some; congruence). lia.
  - destruct (py_get_lt (W (net st)) k) as (Wk & _ & HWk); [lia|].
    destruct (nth_error_shapes _ _ k Wk (so_last Hs) HWk) as (lastk & Hlk & Hlks).
    destruct (Hn k Wk HWk) as (gradk & Hgk & Hgks).
    pose proof (update_layer_spec h st nabla_W k Wk lastk gradk Hh Hs HWk Hlk Hgk Hgks)
      as Hstep.
    set (dk := layer_delta h (gain_of (nlg st) k) Wk lastk gradk) in *.
    assert (Hdk : shape dk = shape Wk).
    { apply shape_layer_delta; [assumption|].
      intros gi Hgi. eapply gain_shape; eauto. }
    destruct (updated_state_ok h st k Wk lastk dk Hh Hs HWk Hlk Hdk) as [HW1 Hs1].
    set (st1 := updated h st k Wk lastk dk) in *.
    assert (HW1' : map shape (W (net st1)) = map shape (W (net st))) by exact HW1.
    destruct (IH (S k) st1) as (st' & Hrun & Hg').
    { rewrite <- (length_map shape), HW1', length_map. lia. }
    { apply (hyper_ok_shapes h _ _ HW1' Hh). }
    { assumption. }
    { apply (nabla_ok_shapes _ _ nabla_W HW1' Hn). }
    exists st'. cbn [seq for_each]. unfold mbind. rewrite Hstep, Hrun.
    split; [reflexivity|].
    assert (Hnlg1 : nlg st1
                    = match nlg st with
                      | None => None
                      | Some g =>
                          Some (match nth_error g k with
                                | Some gi => set_nth g k (layer_gain h gi dk lastk)
                                | None => g
                                end)
                      end) by reflexivity.
    destruct (nlg st) as [g|] eqn:Eg.
    + destruct (gain_defined h st k Wk Hs HWk g Eg) as (gk & Hgik & _).
      rewrite Hgik in Hnlg1. rewrite Hnlg1 in Hg'.
      destruct Hg' as (g' & Hg'eq & Hlen & Hlow & Hhigh).
      exists g'. split; [exact Hg'eq|].
      split; [now rewrite Hlen, set_nth_length|].
      assert (Hkg : k < length g) by (apply nth_error_Some; congruence).
      split.
      * intros i Hi. rewrite Hlow by lia. apply nth_error_set_nth_ne. lia.
      * intros i Wi last grad gi Hi HWi Hlast Hgrad Hgi.
        assert (Hc : i = k \/ S k <= i) by lia. destruct Hc as [->|Hc].
        -- rewrite Hlow by lia. rewrite nth_error_set_nth_eq by assumption.
           assert (Wi = Wk) by congruence. assert (last = lastk) by congruence.
           assert (grad = gradk) by congruence. assert (gi = gk) by congruence.
           subst. unfold dk, gain_of. rewrite Hgik. reflexivity.
        -- apply Hhigh; [assumption| | | assumption|].
           ++ unfold st1, updated. cbn [net W].
              rewrite nth_error_set_nth_ne by lia. assumption.
           ++ unfold st1, updated. cbn [last_delta_W].
              rewrite nth_error_set_nth_ne by lia. assumption.
           ++ rewrite nth_error_set_nth_ne by lia. assumption.
    + rewrite Hnlg1 in Hg'. exact Hg'.
Qed.

End Gains.

Section GainTheorem.
Context {R : Type} {SR : Scalar R} {EX : Externals R}.
Local Abbreviation matrix := (ndarray R).

(** X17. The adaptive gains.  Without [neural_local_gain] no gain is
    kept.  With it, the weight update of a batch replaces the gain
    matrix of every layer by
    [neuron_local_gain_update(gain, delta_W * last_delta_W >= 0, bonus,
    penalty, min, max)], where [delta_W] is the update of the layer in
    this batch, computed with the gain as it was before, and
    [last_delta_W] is the update of the batch before. *)
Theorem adaptive_gain_update (h : hyper R) (nabla_W : list (option matrix))
    (st : train_state R) :
  hyper_ok h (W (net st)) -> state_ok h st ->
  nabla_ok (W (net st)) nabla_W ->
  exists st',
    for_each (seq 0 (length (W (net st)))) (update_layer h nabla_W) st
    = (st', Ok tt)
    /\ match nlg st with
       | None => neural_local_gain h = None /\ nlg st' = None
       | Some g =>
           exists g' nlg_bonus nlg_penalty nlg_min nlg_max,
             neural_local_gain h = Some (nlg_bonus, nlg_penalty, nlg_min, nlg_max)
             /\ nlg st' = Some g'
             /\ length g' = length g
             /\ forall l Wl last grad gl,
                  nth_error (W (net st)) l = Some Wl ->
                  nth_error (last_delta_W st) l = Some last ->
                  nth_error nabla_W l = Some (Some grad) ->
                  nth_error g l = Some gl ->
                  let delta_W := layer_delta h (Some gl) Wl last grad in
                  nth_error g' l
                  = Some (neuron_local_gain_update gl
                            (nd_ge0 (zip_same rmul delta_W last))
                            nlg_bonus nlg_penalty nlg_min nlg_max)
       end.
Proof.
  intros Hh Hs Hn.
  destruct (update_loop_gain h nabla_W (length (W (net st))) 0 st eq_refl Hh Hs Hn)
    as (st' & Hrun & Hg).
  exists st'. split; [exact Hrun|].
  pose proof (so_nlg Hs) as Hnl.
  destruct (nlg st) as [g|].
  - destruct Hnl as [Hsome _].
    destruct Hg as (g' & Hg' & Hlen & _ & Hhigh).
    destruct (neural_local_gain h) as [[[[b pn] mn] mx]|] eqn:En; [|congruence].
    exists g', b, pn, mn, mx. split; [reflexivity|]. split; [exact Hg'|].
    split; [exact Hlen|].
    intros l Wl last grad gl HWl Hlast Hgrad Hgl delta_W.
    rewrite (Hhigh l Wl last grad gl (Nat.le_0_l l) HWl Hlast Hgrad Hgl).
    unfold layer_gain. rewrite En. reflexivity.
  - split; [exact Hnl|exact Hg].
Qed.

End GainTheorem.

(** * The statements on the sample *)

Module SampleFacts.
Import QArith Qcanon.
Import Sample.

Lemma q_succ (n : nat) : q (Z.of_nat (S n)) = (q (Z.of_nat n) + q 1)%Qc.
Proof.
  apply Qc_is_canon. unfold q, Qcplus. cbn [this Q2Qc]. rewrite !Qred_correct.
  rewrite Nat2Z.inj_succ. unfold Z.succ. rewrite inject_Z_plus. reflexivity.
Qed.

Lemma q_nonzero (n : nat) : n <> 0%nat -> q (Z.of_nat n) <> 0%Qc.
Proof.
  intros H E. apply (f_equal this) in E. unfold q in E. cbn [this Q2Qc] in E.
  assert (H0 : (Qred (inject_Z (Z.of_nat n)) == 0)%Q) by (rewrite E; reflexivity).
  rewrite Qred_correct in H0. unfold Qeq in H0. simpl in H0. lia.
Qed.

Lemma mul_1_r (x : Qc) : rmul x r1 = x.
Proof. apply Qcmult_1_r. Qed.

Lemma add_0_r (x : Qc) : radd x r0 = x.
Proof. apply Qcplus_0_r. Qed.

Lemma Qc_exact_arith : exact_arith (R := Qc).
Proof.
  split; simpl; intros.
  - apply Qcplus_0_r.
  - apply Qcplus_comm.
  - apply Qcplus_assoc.
  - apply Qcmult_0_l.
  - apply Qcmult_1_l.
  - apply Qcmult_plus_distr_l.
  - reflexivity.
  - apply q_succ.
  - unfold Qcdiv. apply Qcmult_plus_distr_l.
  - pose proof (q_nonzero n H). field. assumption.
  - pose proof (q_nonzero m H) as Hm.
    destruct b as [|b].
    + change (q (Z.of_nat 0)) with 0%Qc. unfold Qcdiv.
      change (/ 0)%Qc with 0%Qc. ring.
    + pose proof (q_nonzero (S b) (Nat.neq_succ_0 b)) as Hb.
      field. split; assumption.
Qed.


Lemma sample_chained : chained [W0; W1].
Proof.
  intros i w w' H H'. destruct i as [|[|i]]; simpl in *; try discriminate.
  injection H as <-. injection H' as <-. reflexivity.
Qed.

Lemma sample_net_ok : net_ok network (D_fun residual) derivatives.
Proof.
  split; try reflexivity.
  - discriminate.
  - repeat constructor.
  - repeat constructor.
  - exact sample_chained.
Qed.

Lemma sample_net_ok_ce : net_ok network_halved D_cross_entropy derivatives_halved.
Proof.
  split; try reflexivity.
  - discriminate.
  - repeat constructor.
  - repeat constructor.
  - exact sample_chained.
Qed.

Lemma sample_batch_ok (self : MLP Qc) (b : ndarray Qc) (idx : list nat) :
  W self = [W0; W1] -> shape1 b = 3%nat -> length idx = shape0 b ->
  Forall (fun i => (i < 3)%nat) idx ->
  batch_ok self Y b idx.
Proof.
  intros HW Hb Hlen Hidx. split; rewrite ?HW.
  - intros w0 [= <-]. exact Hb.
  - exact Hidx.
  - exact Hlen.
  - intros w [= <-]. reflexivity.
Qed.

Lemma sample_hyper_ok (h : hyper Qc) :
  (forall d, d_regularization_norm h = Some d -> d = d_l2) ->
  hyper_ok h [W0; W1].
Proof.
  intros Hd. split.
  - intros d E. rewrite (Hd d E). split.
    + intros w. eexists. split; reflexivity.
    + repeat constructor; discriminate.
  - intros. reflexivity.
Qed.

Lemma sample_call_ok (h : hyper Qc) :
  (forall d, d_regularization_norm h = Some d -> d = d_l2) ->
  d_goal h = D_fun residual -> d_f_list h = Some derivatives ->
  add_bias h = true -> batch_size h = Some 2%nat ->
  cv_input_data h = None ->
  call_ok network X Y h no_shuffle.
Proof.
  intros Hd Hg Hdf Hb Hbs Hcv. split.
  - unfold used_d_f_list. rewrite Hg, Hdf. exact sample_net_ok.
  - now apply sample_hyper_ok.
  - unfold used_input. rewrite Hb. split.
    + intros w0 [= <-]. reflexivity.
    + intros w [= <-]. reflexivity.
    + reflexivity.
  - unfold used_batch_size. rewrite Hbs. discriminate.
  - intros n l. apply Permutation_refl.
  - unfold used_cv. rewrite Hcv. exact I.
Qed.

Lemma sample_goal_length (t o : ndarray Qc) : length (sq_err t o) = shape0 o.
Proof. unfold sq_err. now rewrite length_map, length_seq. Qed.

Lemma no_shuffle_ok : shuffle_ok no_shuffle.
Proof. intros n l. apply Permutation_refl. Qed.

Lemma sample_call_full : call_ok network X Y hyper_full no_shuffle.
Proof.
  apply sample_call_ok; try reflexivity. intros d [= <-]. reflexivity.
Qed.

Lemma sample_call_plain : call_ok network X Y hyper_plain no_shuffle.
Proof. apply sample_call_ok; try reflexivity. discriminate. Qed.

End SampleFacts.

Import SampleFacts.

(** ** The operations on small arrays *)

Example c_ones_example :
  c_ones (Sample.mat 2 2 [[1; 2]; [3; 4]]%Z)
  = Sample.mat 2 3 [[1; 1; 2]; [1; 3; 4]]%Z.
Proof. reflexivity. Qed.

Example transpose_example :
  transpose (Sample.mat 2 3 [[1; 2; 3]; [4; 5; 6]]%Z)
  = Sample.mat 3 2 [[1; 4]; [2; 5]; [3; 6]]%Z.
Proof. reflexivity. Qed.

Example dot_example :
  dot (Sample.mat 2 2 [[1; 2]; [3; 4]]%Z) (Sample.mat 2 1 [[1]; [1]]%Z)
  = Ok (Sample.mat 2 1 [[3]; [7]]%Z).
Proof. vm_compute. reflexivity. Qed.

Example dot_misaligned_example :
  dot (Sample.mat 2 2 [[1; 2]; [3; 4]]%Z) (Sample.mat 1 2 [[1; 1]]%Z)
  = Raise ValueError.
Proof. reflexivity. Qed.

Example broadcast_example :
  nd_mul (Sample.mat 2 2 [[1; 2]; [3; 4]]%Z) (Sample.mat 1 2 [[10; 100]]%Z)
  = Ok (Sample.mat 2 2 [[10; 200]; [30; 400]]%Z).
Proof. vm_compute. reflexivity. Qed.

Example take_rows_example :
  take_rows Sample.X [2; 0] = Ok (Sample.mat 2 2 [[1; 1]; [1; 0]]%Z).
Proof. reflexivity. Qed.

Example take_rows_out_of_range_example :
  take_rows Sample.X [3] = Raise IndexError.
Proof. reflexivity. Qed.

Example py_range_step_example : py_range_step 5 2 = Ok [0; 2; 4].
Proof. reflexivity. Qed.

Example py_range_step_zero_example : py_range_step 5 0 = Raise ValueError.
Proof. reflexivity. Qed.

Example py_slice_example : py_slice [10; 11; 12; 13; 14] 4 6 = [14].
Proof. reflexivity. Qed.

Example zero_col0_example :
  zero_col0 (Sample.mat 2 2 [[1; 2]; [3; 4]]%Z)
  = Ok (Sample.mat 2 2 [[0; 2]; [0; 4]]%Z).
Proof. reflexivity. Qed.

Example py_min_example :
  py_min [Sample.q 3; Sample.q 1; Sample.q 2] = Ok (Sample.q 1).
Proof. reflexivity. Qed.

Example compute_output_example :
  compute_output Sample.network Sample.X true
  = Ok (Sample.mat 3 1 [[5]; [4]; [7]]%Z).
Proof. vm_compute. reflexivity. Qed.

Example batch01_example : take_rows (c_ones Sample.X) [0; 1] = Ok Sample.batch01.
Proof. reflexivity. Qed.

Example batch2_example : take_rows (c_ones Sample.X) [2] = Ok Sample.batch2.
Proof. reflexivity. Qed.

(** ** The statements of the specification on the sample *)

(** C1 on the first batch of the sample. *)
Lemma C1_hidden_error_term_witness :
  net_ok Sample.network (D_fun Sample.residual) Sample.derivatives
  /\ batch_ok Sample.network Sample.Y Sample.batch01 [0; 1]
  /\ exists z f_z nabla_W dE_dz Wn d_f zi d dn,
       forward_pass Sample.network Sample.batch01 = Ok (z, f_z)
       /\ backward_pass Sample.network (D_fun Sample.residual) Sample.derivatives
            Sample.Y Sample.batch01 [0; 1] 2 z f_z = Ok (nabla_W, dE_dz)
       /\ nth_error (W Sample.network) 1 = Some Wn
       /\ nth_error Sample.derivatives 0 = Some d_f
       /\ nth_error z 0 = Some zi
       /\ nth_error dE_dz 0 = Some (Some d)
       /\ nth_error dE_dz 1 = Some (Some dn)
       /\ d = zip_same rmul
                (transpose (matmul (transpose (drop_col0 Wn)) (transpose dn)))
                (d_f zi).
Proof.
  assert (Hb : batch_ok Sample.network Sample.Y Sample.batch01 [0; 1]).
  { apply sample_batch_ok; try reflexivity. repeat constructor. }
  split; [exact sample_net_ok|]. split; [exact Hb|].
  destruct (C1_hidden_error_term Sample.network (D_fun Sample.residual)
              Sample.derivatives Sample.Y Sample.batch01 [0; 1] 2
              sample_net_ok Hb) as (z & f_z & nabla_W & dE & Hf & Hbw & Hh).
  destruct (Hh 0) as (Wn & d_f & zi & d & dn & H1 & H2 & H3 & H4 & H5 & H6).
  { simpl. lia. }
  exists z, f_z, nabla_W, dE, Wn, d_f, zi, d, dn. repeat split; assumption.
Defined.

(** C2 on the sample with the cross-entropy derivative. *)
Lemma C2_output_error_term_witness :
  (forall x : Qcanon.Qc, rmul x r1 = x)
  /\ net_ok Sample.network_halved D_cross_entropy Sample.derivatives_halved
  /\ batch_ok Sample.network_halved Sample.Y Sample.batch01 [0; 1]
  /\ exists z f_z nabla_W dE_dz targets out d,
       forward_pass Sample.network_halved Sample.batch01 = Ok (z, f_z)
       /\ backward_pass Sample.network_halved D_cross_entropy
            Sample.derivatives_halved Sample.Y Sample.batch01 [0; 1] 2 z f_z
          = Ok (nabla_W, dE_dz)
       /\ take_rows Sample.Y [0; 1] = Ok targets
       /\ py_last f_z = Ok out
       /\ nth_error dE_dz 1 = Some (Some d)
       /\ d = d_cross_entropy targets out.
Proof.
  assert (Hb : batch_ok Sample.network_halved Sample.Y Sample.batch01 [0; 1]).
  { apply sample_batch_ok; try reflexivity. repeat constructor. }
  split; [exact mul_1_r|]. split; [exact sample_net_ok_ce|]. split; [exact Hb|].
  destruct (C2_output_error_term Sample.network_halved D_cross_entropy
              Sample.derivatives_halved Sample.Y Sample.batch01 [0; 1] 2
              sample_net_ok_ce Hb mul_1_r)
    as (z & f_z & nabla_W & dE & t & out & d_f & zl & d
        & Hf & Hbw & Ht & Hl & _ & _ & Hd & Hval).
  exists z, f_z, nabla_W, dE, t, out, d. repeat split; assumption.
Defined.

(** C3 on the first batch of the sample. *)
Lemma C3_gradient_witness :
  net_ok Sample.network (D_fun Sample.residual) Sample.derivatives
  /\ batch_ok Sample.network Sample.Y Sample.batch01 [0; 1]
  /\ exists z f_z nabla_W dE_dz d grad,
       forward_pass Sample.network Sample.batch01 = Ok (z, f_z)
       /\ backward_pass Sample.network (D_fun Sample.residual) Sample.derivatives
            Sample.Y Sample.batch01 [0; 1] 2 z f_z = Ok (nabla_W, dE_dz)
       /\ nth_error dE_dz 0 = Some (Some d)
       /\ nth_error nabla_W 0 = Some (Some grad)
       /\ grad = div_scal (transpose (matmul (transpose Sample.batch01) d))
                   (of_nat 2)
       /\ shape grad = shape Sample.W0.
Proof.
  assert (Hb : batch_ok Sample.network Sample.Y Sample.batch01 [0; 1]).
  { apply sample_batch_ok; try reflexivity. repeat constructor. }
  split; [exact sample_net_ok|]. split; [exact Hb|].
  destruct (C3_gradient Sample.network (D_fun Sample.residual)
              Sample.derivatives Sample.Y Sample.batch01 [0; 1] 2
              sample_net_ok Hb) as (z & f_z & nabla_W & dE & Hf & Hbw & _ & Hg).
  destruct (Hg 0) as (Wi & inp & d & grad & HW & Hd & Hin & Hn & Hgr & Hs).
  { simpl. lia. }
  injection HW as <-. subst inp.
  exists z, f_z, nabla_W, dE, d, grad. repeat split; assumption.
Defined.

(** C4 on the first batch of the sample, with regularization and adaptive
    gain. *)
Lemma C4_weight_update_witness :
  (forall x : Qcanon.Qc, radd x r0 = x)
  /\ call_ok Sample.network Sample.X Sample.Y Sample.hyper_full Sample.no_shuffle
  /\ Forall (fun i => i < 3) [0; 1; 2]
  /\ exists st' Wl last grad,
       train_batch Sample.hyper_full Sample.derivatives (c_ones Sample.X) Sample.Y
         2 [0; 1; 2] 0 (initial_state Sample.network Sample.hyper_full)
       = (st', Ok tt)
       /\ nth_error (W Sample.network) 0 = Some Wl
       /\ nth_error (W (net st')) 0
          = Some (zip_same rsub Wl
                    (claimed_delta Sample.hyper_full
                       (gain_of (nlg (initial_state Sample.network Sample.hyper_full)) 0)
                       Wl last grad))
       /\ nth_error (last_delta_W st') 0
          = Some (claimed_delta Sample.hyper_full
                    (gain_of (nlg (initial_state Sample.network Sample.hyper_full)) 0)
                    Wl last grad).
Proof.
  assert (Hidx : Forall (fun i => i < 3) [0; 1; 2]) by (repeat constructor).
  pose proof (initial_run_ok _ _ _ _ _ sample_call_full) as Hok.
  split; [exact add_0_r|]. split; [exact sample_call_full|]. split; [exact Hidx|].
  destruct (C4_weight_update Sample.hyper_full Sample.derivatives
              (c_ones Sample.X) Sample.Y 2 [0; 1; 2] 0
              (initial_state Sample.network Sample.hyper_full)
              add_0_r (ro_net Hok) (ro_hyper Hok) (ro_state Hok) (ro_data Hok) Hidx)
    as (st' & b & z & f_z & nabla_W & dE & _ & _ & _ & Hrun & Hl).
  destruct (Hl 0) as (Wl & last & grad & HW & _ & _ & HW' & Hlast').
  { simpl. lia. }
  exists st', Wl, last, grad. repeat split; assumption.
Defined.

(** C5 on the first epoch of the sample. *)
Lemma C5_epoch_cost_witness :
  exact_arith (R := Qcanon.Qc)
  /\ call_ok Sample.network Sample.X Sample.Y Sample.hyper_full Sample.no_shuffle
  /\ exists st' b out,
       epoch Sample.hyper_full Sample.derivatives (c_ones Sample.X) Sample.Y 2
         None Sample.sq_err Sample.no_shuffle 0
         (initial_state Sample.network Sample.hyper_full) = (st', Ok b)
       /\ compute_output (net st') (c_ones Sample.X) false = Ok out
       /\ cost st'
          = [claimed_cost Sample.hyper_full (W (net st')) (Sample.sq_err Sample.Y out)].
Proof.
  pose proof (initial_run_ok _ _ _ _ _ sample_call_full) as Hok.
  split; [exact Qc_exact_arith|]. split; [exact sample_call_full|].
  destruct (C5_epoch_cost Qc_exact_arith Sample.hyper_full Sample.derivatives
              (c_ones Sample.X) Sample.Y 2 None Sample.sq_err Sample.no_shuffle 0
              (initial_state Sample.network Sample.hyper_full))
    as (st' & b & out & Hrun & Hout & _ & Hc).
  - discriminate.
  - exact no_shuffle_ok.
  - exact Hok.
  - exact I.
  - discriminate.
  - exact sample_goal_length.
  - exists st', b, out. repeat split; assumption.
Defined.

(** C6 on the first epoch of the sample. *)
Lemma C6_stopping_criteria_witness :
  call_ok Sample.network Sample.X Sample.Y Sample.hyper_plain Sample.no_shuffle
  /\ exists st' b,
       epoch Sample.hyper_plain Sample.derivatives (c_ones Sample.X) Sample.Y 2
         None Sample.sq_err Sample.no_shuffle 0
         (initial_state Sample.network Sample.hyper_plain) = (st', Ok b)
       /\ (b = true -> (Z.of_nat 0 > n_iter_stop_skip Sample.hyper_plain)%Z).
Proof.
  pose proof (initial_run_ok _ _ _ _ _ sample_call_plain) as Hok.
  split; [exact sample_call_plain|].
  destruct (C6_stopping_criteria Sample.hyper_plain Sample.derivatives
              (c_ones Sample.X) Sample.Y 2 None Sample.sq_err Sample.no_shuffle 0
              (initial_state Sample.network Sample.hyper_plain))
    as (st' & b & c & m & lc & Hrun & _ & _ & _ & _ & Hiff).
  - discriminate.
  - exact no_shuffle_ok.
  - exact Hok.
  - exact I.
  - reflexivity.
  - exists st', b. split; [exact Hrun|]. intros Hb. apply Hiff in Hb. apply Hb.
Defined.

(** C7 on the sample with inputs of one feature instead of two. *)
Lemma C7_dimension_mismatch_witness :
  nth_error (W Sample.network) 0 = Some Sample.W0
  /\ compute_output Sample.network Sample.X_narrow true
     = Raise (PyException msg_dim)
  /\ train_backprop Sample.network Sample.X_narrow Sample.Y Sample.hyper_plain
       Sample.no_shuffle
     = (Sample.network, Raise ValueError).
Proof.
  destruct (C7_dimension_mismatch Sample.network Sample.W0 eq_refl)
    as (Hinf & Htrain & _).
  split; [reflexivity|]. split.
  - apply Hinf. discriminate.
  - apply Htrain.
    + discriminate.
    + discriminate.
    + discriminate.
    + discriminate.
    + exact no_shuffle_ok.
Defined.

(** C8 on a run of two epochs of the sample. *)
Lemma C8_cost_history_witness :
  call_ok Sample.network Sample.X Sample.Y Sample.hyper_plain Sample.no_shuffle
  /\ exists self' c,
       train_backprop Sample.network Sample.X Sample.Y Sample.hyper_plain
         Sample.no_shuffle = (self', Ok (Cost_only c))
       /\ 1 <= length c <= 2.
Proof.
  split; [exact sample_call_plain|].
  destruct (C8_cost_history Sample.network Sample.X Sample.Y Sample.hyper_plain
              Sample.no_shuffle sample_call_plain)
    as (_ & self' & r & Hrun & c & -> & Hle & Hge).
  exists self', c. split; [exact Hrun|]. split; [apply Hge; simpl; lia | exact Hle].
Defined.

(** C9 on the construction of the sample's architecture. *)
Lemma C9_weight_shape_invariant_witness :
  [2; 1] <> []
  /\ exists self : MLP Qcanon.Qc,
       init 2 [2; 1] None (fun _ n => repeat (Sample.q 0) n) = Ok self
       /\ map shape (W self) = [(2, 3); (1, 3)].
Proof.
  split; [discriminate|].
  destruct (C9_weight_shape_invariant 2 [2; 1] None
              (fun _ n => repeat (Sample.q 0) n))
    as (self & Hinit & Hlen & _).
  - discriminate.
  - intros i n. apply repeat_length.
  - discriminate.
  - exists self. split; [exact Hinit|].
    vm_compute in Hinit. injection Hinit as <-. reflexivity.
Defined.

(** C10 on the sample: three examples in batches of two. *)
Lemma C10_last_batch_scaling_witness :
  exact_arith (R := Qcanon.Qc)
  /\ length [0; 1; 2] mod 2 <> 0
  /\ py_slice [0; 1; 2] 2 4 = [2]
  /\ exists z f_z nabla_W dE_dz d grad,
       forward_pass Sample.network Sample.batch2 = Ok (z, f_z)
       /\ backward_pass Sample.network (D_fun Sample.residual) Sample.derivatives
            Sample.Y Sample.batch2 [2] 2 z f_z = Ok (nabla_W, dE_dz)
       /\ nth_error dE_dz 0 = Some (Some d)
       /\ nth_error nabla_W 0 = Some (Some grad)
       /\ grad = scal_mul (rdiv (of_nat 1) (of_nat 2))
                   (div_scal (transpose (matmul (transpose Sample.batch2) d))
                      (of_nat 1)).
Proof.
  assert (Hb : batch_ok Sample.network Sample.Y Sample.batch2 [2]).
  { apply sample_batch_ok; try reflexivity. repeat constructor. }
  split; [exact Qc_exact_arith|]. split; [discriminate|]. split; [reflexivity|].
  destruct (C10_last_batch_scaling [0; 1; 2] 2 Sample.network
              (D_fun Sample.residual) Sample.derivatives Sample.Y Sample.batch2
              Qc_exact_arith)
    as (_ & _ & _ & _ & z & f_z & nabla_W & dE & Hf & Hbw & Hg).
  - discriminate.
  - discriminate.
  - exact sample_net_ok.
  - exact Hb.
  - destruct (Hg 0) as (inp & d & grad & Hin & Hd & Hn & _ & Hscale).
    { simpl. lia. }
    injection Hin as <-.
    exists z, f_z, nabla_W, dE, d, grad. repeat split; assumption.
Defined.

(** ** Inputs on which statements of the specification fail *)

(** With the cross-entropy derivative and a halving output activation,
    which does not match it, the code leaves the activation-derivative
    factor out, where the specification's sentence keeps it. *)
Lemma C2_counterexample :
  exists z f_z nabla_W dE_dz targets out d_f z_last d,
    forward_pass Sample.network_halved Sample.batch01 = Ok (z, f_z)
    /\ backward_pass Sample.network_halved D_cross_entropy
         Sample.derivatives_halved Sample.Y Sample.batch01 [0; 1] 2 z f_z
       = Ok (nabla_W, dE_dz)
    /\ take_rows Sample.Y [0; 1] = Ok targets
    /\ py_last f_z = Ok out
    /\ nth_error Sample.derivatives_halved 1 = Some d_f
    /\ nth_error z 1 = Some z_last
    /\ nth_error dE_dz 1 = Some (Some d)
    /\ d <> claimed_output_dE_dz D_cross_entropy false
              (call_d_goal D_cross_entropy targets out) (d_f z_last).
Proof.
  do 9 eexists.
  split; [vm_compute; reflexivity|].
  split; [vm_compute; reflexivity|].
  split; [vm_compute; reflexivity|].
  split; [vm_compute; reflexivity|].
  split; [reflexivity|].
  split; [reflexivity|].
  split; [reflexivity|].
  vm_compute. intros H. discriminate H.
Qed.

(** With [max_iter = 0], training on inputs of the wrong width returns
    normally. *)
Lemma C7_counterexample :
  nth_error (W Sample.network) 0 = Some Sample.W0
  /\ shape1 (used_input Sample.hyper_no_epoch Sample.X_narrow) <> shape1 Sample.W0
  /\ train_backprop Sample.network Sample.X_narrow Sample.Y Sample.hyper_no_epoch
       Sample.no_shuffle
     = (Sample.network, Ok (Cost_only [])).
Proof.
  split; [reflexivity|]. split; [discriminate|].
  now rewrite train_backprop_no_epoch.
Qed.

(** When the derivative of the penalty returns the array it was given,
    the first batch of the sample goes through, and the first layer is
    left with [W[0]] with its bias column cleared, minus [delta], where
    the specification's sentence has [W[0] - delta]: entry [(0, 0)] is
    [-2/5] instead of [3/5]. *)
Lemma C4_counterexample :
  exists st' Wl last z f_z nabla_W dE_dz grad W',
    nth_error (W Sample.network) 0 = Some Wl
    /\ nth_error (last_delta_W (initial_state Sample.network Sample.hyper_alias)) 0
       = Some last
    /\ d_regularization_norm Sample.hyper_alias = Some Sample.d_alias
    /\ Sample.d_alias Wl = Argument
    /\ forward_pass Sample.network Sample.batch01 = Ok (z, f_z)
    /\ backward_pass Sample.network (D_fun Sample.residual) Sample.derivatives
         Sample.Y Sample.batch01 [0; 1] 2 z f_z = Ok (nabla_W, dE_dz)
    /\ nth_error nabla_W 0 = Some (Some grad)
    /\ train_batch Sample.hyper_alias Sample.derivatives (c_ones Sample.X) Sample.Y
         2 [0; 1; 2] 0 (initial_state Sample.network Sample.hyper_alias)
       = (st', Ok tt)
    /\ nth_error (W (net st')) 0 = Some W'
    /\ entry W' 0 0 = Sample.ratio (-2) 5
    /\ entry (zip_same rsub Wl (claimed_delta Sample.hyper_alias None Wl last grad))
         0 0 = Sample.ratio 3 5
    /\ W' <> zip_same rsub Wl (claimed_delta Sample.hyper_alias None Wl last grad).
Proof.
  do 9 eexists.
  split; [reflexivity|].
  split; [reflexivity|].
  split; [reflexivity|].
  split; [reflexivity|].
  split; [vm_compute; reflexivity|].
  split; [vm_compute; reflexivity|].
  split; [reflexivity|].
  split; [vm_compute; reflexivity|].
  split; [reflexivity|].
  split; [vm_compute; reflexivity|].
  split; [vm_compute; reflexivity|].
  vm_compute. intros H. discriminate H.
Qed.

(** The last batch of the sample has one example for a batch size of
    two.  Its update is not one half of the update computed from the
    gradient averaged over the batch: the momentum term is not scaled.
    Entry [(0, 0)] of the update of the first layer is [127/1250], where
    the specification's sentence gives [209/2500]. *)
Lemma C10_counterexample :
  exists st1 Wl last z f_z nabla_W dE_dz nabla_avg dE_avg grad_avg st2 delta,
    length [0; 1; 2] mod 2 <> 0
    /\ py_slice [0; 1; 2] 2 (2 + 2) = [2]
    /\ train_batch Sample.hyper_plain Sample.derivatives (c_ones Sample.X) Sample.Y
         2 [0; 1; 2] 0 (initial_state Sample.network Sample.hyper_plain)
       = (st1, Ok tt)
    /\ nth_error (W (net st1)) 0 = Some Wl
    /\ nth_error (last_delta_W st1) 0 = Some last
    /\ forward_pass (net st1) Sample.batch2 = Ok (z, f_z)
    /\ backward_pass (net st1) (D_fun Sample.residual) Sample.derivatives
         Sample.Y Sample.batch2 [2] 2 z f_z = Ok (nabla_W, dE_dz)
    /\ backward_pass (net st1) (D_fun Sample.residual) Sample.derivatives
         Sample.Y Sample.batch2 [2] 1 z f_z = Ok (nabla_avg, dE_avg)
    /\ nth_error nabla_avg 0 = Some (Some grad_avg)
    /\ train_batch Sample.hyper_plain Sample.derivatives (c_ones Sample.X) Sample.Y
         2 [0; 1; 2] 2 st1 = (st2, Ok tt)
    /\ nth_error (last_delta_W st2) 0 = Some delta
    /\ entry delta 0 0 = Sample.ratio 127 1250
    /\ entry (claimed_last_batch_update Sample.hyper_plain None Wl last
                grad_avg 1 2) 0 0 = Sample.ratio 209 2500
    /\ delta <> claimed_last_batch_update Sample.hyper_plain None Wl last grad_avg 1 2.
Proof.
  do 12 eexists.
  split; [discriminate|].
  split; [reflexivity|].
  split; [vm_compute; reflexivity|].
  split; [reflexivity|].
  split; [reflexivity|].
  split; [vm_compute; reflexivity|].
  split; [vm_compute; reflexivity|].
  split; [vm_compute; reflexivity|].
  split; [reflexivity|].
  split; [vm_compute; reflexivity|].
  split; [reflexivity|].
  split; [vm_compute; reflexivity|].
  split; [vm_compute; reflexivity|].
  vm_compute. intros H. discriminate H.
Qed.

(** ** Further properties of the code on the sample *)

(** X2 on a network of two layers built from the counting generator. *)
Lemma init_contents_witness :
  exists self : MLP Qcanon.Qc,
    init 2 [2; 1] None Sample.rng_count = Ok self
    /\ f_list self = [sigmoid; sigmoid]
    /\ length (f_list self) = length (W self).
Proof.
  destruct (init 2 [2; 1] None Sample.rng_count) as [self|e] eqn:Hinit;
    [|vm_compute in Hinit; discriminate].
  exists self. split; [reflexivity|].
  destruct (init_contents 2 [2; 1] Sample.rng_count None self Hinit)
    as (Hf & Hlen & _).
  split; [exact Hf|exact Hlen].
Defined.

(** X3 on the sample: three examples, one output neuron. *)
Lemma compute_output_shape_witness :
  exists out,
    compute_output Sample.network Sample.X true = Ok out
    /\ shape out = (3, 1).
Proof.
  destruct (compute_output_shape Sample.network Sample.X true Sample.W0 Sample.W1)
    as (out & Hout & Hs).
  - reflexivity.
  - repeat constructor.
  - exact sample_chained.
  - reflexivity.
  - reflexivity.
  - reflexivity.
  - exists out. split; [exact Hout|exact Hs].
Defined.

(** X4 on the sample. *)
Lemma compute_output_forward_pass_witness :
  compute_output Sample.network (c_ones Sample.X) false
  = (zf <- forward_pass Sample.network (c_ones Sample.X) ;; py_last (snd zf)).
Proof.
  apply compute_output_forward_pass.
  - apply le_n.
  - intros w0 [= <-]. reflexivity.
Defined.

(** X5 on the first batch of the sample. *)
Lemma forward_pass_records_witness :
  exists z f_z,
    forward_pass Sample.network Sample.batch01 = Ok (z, f_z)
    /\ length z = 2 /\ length f_z = 2.
Proof.
  destruct (forward_pass_records Sample.network Sample.batch01)
    as (z & f_z & Hrun & Hz & Hfz & _).
  - discriminate.
  - reflexivity.
  - repeat constructor.
  - exact sample_chained.
  - intros w0 [= <-]. reflexivity.
  - exists z, f_z. split; [exact Hrun|]. split; [exact Hz|exact Hfz].
Defined.

(** X6 on a network of two linear layers built for two features. *)
Lemma init_compute_output_witness :
  exists (self : MLP Qcanon.Qc) out,
    init 2 [2; 1] (Some [Sample.linear; Sample.linear]) Sample.rng_count = Ok self
    /\ compute_output self Sample.X true = Ok out
    /\ shape out = (3, 1).
Proof.
  destruct (init 2 [2; 1] (Some [Sample.linear; Sample.linear]) Sample.rng_count)
    as [self|e] eqn:Hinit; [|vm_compute in Hinit; discriminate].
  destruct (init_compute_output 2 [2; 1] (Some [Sample.linear; Sample.linear])
              Sample.rng_count self Sample.X Hinit) as (out & Hout & Hs).
  - discriminate.
  - destruct (init_Ok_inv _ _ _ _ _ Hinit) as (_ & Hf & _). rewrite Hf.
    repeat constructor.
  - reflexivity.
  - exists self, out. split; [reflexivity|]. split; [exact Hout|exact Hs].
Defined.

(** X7 on three examples in batches of two. *)
Lemma epoch_batches_partition_witness :
  exists idx_batch,
    py_range_step 3 2 = Ok idx_batch
    /\ concat (batch_indices [0; 1; 2] 2 idx_batch) = [0; 1; 2].
Proof.
  pose proof (epoch_batches_partition Sample.no_shuffle 0 3 2
                (Nat.neq_succ_0 1) no_shuffle_ok) as H.
  cbv zeta in H. destruct H as (idx_batch & Hr & _ & Hc & _).
  exists idx_batch. split; [exact Hr|exact Hc].
Defined.

(** X8 on the sample without [batch_size]. *)
Lemma full_batch_default_witness :
  py_range_step 3
    (used_batch_size (Sample.with_batch_size None Sample.hyper_plain) Sample.X)
  = Ok [0].
Proof.
  pose proof (full_batch_default (Sample.with_batch_size None Sample.hyper_plain)
                Sample.X Sample.no_shuffle 0 eq_refl (Nat.neq_succ_0 2)
                no_shuffle_ok) as H.
  cbv zeta in H. destruct H as (H1 & _). exact H1.
Defined.

(** X9 on the sample with a batch size of zero. *)
Lemma zero_batch_size_witness :
  train_backprop Sample.network Sample.X Sample.Y
    (Sample.with_batch_size (Some 0) Sample.hyper_plain) Sample.no_shuffle
  = (Sample.network, Raise ValueError).
Proof.
  apply zero_batch_size.
  - discriminate.
  - reflexivity.
Defined.

(** X10 on the sample: both epochs of the run are run. *)
Lemma no_early_stop_before_skip_witness :
  exists self' r,
    train_backprop Sample.network Sample.X Sample.Y Sample.hyper_plain
      Sample.no_shuffle = (self', Ok r)
    /\ 2 <= length (train_cost r).
Proof.
  destruct (no_early_stop_before_skip Sample.network Sample.X Sample.Y
              Sample.hyper_plain Sample.no_shuffle sample_call_plain)
    as (self' & r & Hrun & _ & Hmin).
  exists self', r. split; [exact Hrun|].
  change (2 <= Z.of_nat (length (train_cost r)))%Z in Hmin. lia.
Defined.

(** X11 on a run of two epochs of the sample. *)
Lemma last_cost_of_returned_network_witness :
  exists self' r,
    train_backprop Sample.network Sample.X Sample.Y Sample.hyper_plain
      Sample.no_shuffle = (self', Ok r)
    /\ py_last (train_cost r)
       = epoch_cost Sample.sq_err Sample.hyper_plain self' (c_ones Sample.X)
           Sample.Y.
Proof.
  destruct (train_backprop Sample.network Sample.X Sample.Y Sample.hyper_plain
              Sample.no_shuffle) as [self' [r|e]] eqn:Hrun;
    [|vm_compute in Hrun; discriminate].
  exists self', r. split; [reflexivity|].
  destruct (last_cost_of_returned_network Sample.network self' Sample.X Sample.Y
              Sample.hyper_plain Sample.no_shuffle r) as (Hc & _).
  - discriminate.
  - exact Hrun.
  - exact Hc.
Defined.

(** X13 on a network of two layers built for two features. *)
Lemma str_of_constructed_witness :
  exists self : MLP Qcanon.Qc,
    init 2 [2; 1] None Sample.rng_count = Ok self
    /\ __str__ self = Ok "MLP: 2 -> 2 -> 1"%string.
Proof.
  destruct (init 2 [2; 1] None Sample.rng_count) as [self|e] eqn:Hinit;
    [|vm_compute in Hinit; discriminate].
  exists self. split; [reflexivity|].
  rewrite (str_of_constructed 2 [2; 1] None Sample.rng_count self Hinit).
  - reflexivity.
  - discriminate.
Defined.

(** X15 on the network without layers. *)
Lemma empty_network_witness :
  __str__ Sample.network_empty = Raise IndexError
  /\ compute_output Sample.network_empty Sample.X true = Raise IndexError
  /\ train_backprop Sample.network_empty Sample.X Sample.Y Sample.hyper_plain
       Sample.no_shuffle
     = (Sample.network_empty, Raise IndexError).
Proof.
  destruct (empty_network Sample.network_empty eq_refl) as (H1 & H2 & H3).
  split; [exact H1|]. split; [apply H2|].
  apply H3.
  - discriminate.
  - discriminate.
  - exact no_shuffle_ok.
Defined.

(** X16 on the first layer of the sample, the penalty derivative handing
    back its argument. *)
Lemma aliased_penalty_clears_bias_witness :
  exists st',
    update_layer Sample.hyper_alias [Some Sample.W0; Some Sample.W1] 0
      (initial_state Sample.network Sample.hyper_alias) = (st', Ok tt)
    /\ nth_error (W (net st')) 0
       = Some (zip_same rsub (zeroed_col0 Sample.W0)
                 (layer_delta Sample.hyper_alias None Sample.W0
                    (nd_const r0 2 3) Sample.W0)).
Proof.
  destruct (aliased_penalty_clears_bias Sample.hyper_alias
              (initial_state Sample.network Sample.hyper_alias)
              [Some Sample.W0; Some Sample.W1] 0 Sample.W0 (nd_const r0 2 3)
              Sample.W0 Sample.d_alias) as (st' & Hrun & HW & _).
  - reflexivity.
  - reflexivity.
  - apply initial_state_ok.
  - intros. reflexivity.
  - repeat constructor; discriminate.
  - reflexivity.
  - reflexivity.
  - reflexivity.
  - reflexivity.
  - exists st'. split; [exact Hrun|exact HW].
Defined.

(** X17 on the sample with adaptive gain. *)
Lemma adaptive_gain_update_witness :
  exists st' g',
    for_each (seq 0 2)
      (update_layer Sample.hyper_full [Some Sample.W0; Some Sample.W1])
      (initial_state Sample.network Sample.hyper_full) = (st', Ok tt)
    /\ nlg st' = Some g'
    /\ length g' = 2.
Proof.
  destruct (adaptive_gain_update Sample.hyper_full [Some Sample.W0; Some Sample.W1]
              (initial_state Sample.network Sample.hyper_full))
    as (st' & Hrun & g' & b & p & mn & mx & _ & Hg & Hlen & _).
  - apply sample_hyper_ok. intros d [= <-]. reflexivity.
  - apply initial_state_ok.
  - intros i Wi H. destruct i as [|[|[|i]]]; simpl in H; try discriminate;
      injection H as <-; eexists; split; reflexivity.
  - exists st', g'. split; [exact Hrun|]. split; [exact Hg|exact Hlen].
Defined.
